(** * ANSI to HTML converter: a shallow embedding and its properties

    Source: packages/coding-agent/src/core/export-html/ansi-to-html.ts,
    and from index.ts and tool-renderer.ts beside it the parsing of theme
    colours, the pre-rendering of custom tool calls and their renderer.

    JavaScript strings are modelled as [string] (every character that the
    converter does not name is treated alike by it), arrays as lists read by
    index with [nth_error] ([None] is JavaScript's [undefined]), and the
    numbers produced by [Number.parseInt] as unbounded integers [Z].  The
    last point is exact for every parameter below 2^53; above it JavaScript
    rounds to a double, which changes only the characters printed for such
    a parameter (digits, or a point, [e+] or [Infinity]: none of them
    reserved by the markup), never a comparison with one of the small
    constants of the converter. *)

From Stdlib Require Import ZArith List Bool Lia.
From Stdlib Require Import Ascii String DecimalString HexadecimalString.
Import ListNotations.

Open Scope string_scope.
Open Scope Z_scope.

(** ** The JavaScript primitives the converter calls *)

Module JS.

(** [arr[i]]: [None] stands for [undefined]. *)
Definition at_index {A : Type} (arr : list A) (i : nat) : option A :=
  nth_error arr i.

(** [x !== undefined] *)
Definition defined {A : Type} (x : option A) : bool :=
  match x with Some _ => true | None => false end.

(** [x === k] for a number [k]; [undefined === k] is false. *)
Definition is_num (x : option Z) (k : Z) : bool :=
  match x with Some n => n =? k | None => false end.

(** Truthiness of an optional string: [undefined] and [""] are falsy. *)
Definition truthy_str (x : option string) : bool :=
  match x with
  | Some s => negb (s =? "")%string
  | None => false
  end.

(** [x || d] for an optional string [x]. *)
Definition or_else (x : option string) (d : string) : string :=
  match x with
  | Some s => if (s =? "")%string then d else s
  | None => d
  end.

(** Truthiness of an optional boolean. *)
Definition truthy_bool (x : option bool) : bool :=
  match x with Some b => b | None => false end.

(** [String(n)] of an integer, as a template literal prints it: all the
    digits, which is what JavaScript prints for an integer below 10^21. *)
Definition toString10 (n : Z) : string :=
  DecimalString.NilZero.string_of_int (Z.to_int n).

(** [n.toString(16)] of an integer. *)
Definition toString16 (n : Z) : string :=
  HexadecimalString.NilZero.string_of_int (Z.to_hex_int n).

(** [`${x}`] where [x] is [arr[i]] of a number array. *)
Definition template (x : option Z) : string :=
  match x with Some n => toString10 n | None => "undefined" end.

(** The first [n] characters of [fill] repeated for ever. *)
Fixpoint repeat_fill (fill cur : string) (n : nat) : string :=
  match n with
  | O => ""
  | S k =>
      match cur with
      | String c rest => String c (repeat_fill fill rest k)
      | EmptyString =>
          match fill with
          | String c rest => String c (repeat_fill fill rest k)
          | EmptyString => ""
          end
      end
  end.

(** [s.padStart(target, fill)] *)
Definition padStart (target : nat) (fill : string) (s : string) : string :=
  if (target <=? String.length s)%nat then s
  else if (fill =? "")%string then s
  else repeat_fill fill fill (target - String.length s) ++ s.

(** [s.replace(/c/g, by)] for a single character [c] and a replacement
    without [$] patterns. *)
Fixpoint replace_all (c : ascii) (by_ : string) (s : string) : string :=
  match s with
  | EmptyString => ""
  | String x rest =>
      if (x =? c)%char then by_ ++ replace_all c by_ rest
      else String x (replace_all c by_ rest)
  end.

(** [s.split(sep)] for a single character separator: never empty. *)
Fixpoint split (sep : ascii) (s : string) : list string :=
  match s with
  | EmptyString => [""]
  | String x rest =>
      if (x =? sep)%char then "" :: split sep rest
      else
        match split sep rest with
        | tok :: toks => String x tok :: toks
        | [] => [String x ""]
        end
  end.

(** [arr.join(sep)] of an array of strings. *)
Fixpoint join (sep : string) (arr : list string) : string :=
  match arr with
  | [] => ""
  | [x] => x
  | x :: rest => x ++ sep ++ join sep rest
  end.

(** [s.slice(from, to)] with indices that are not negative: the empty
    string when [to <= from], cut at the end of [s]. *)
Definition slice (s : string) (from to : nat) : string :=
  substring from (to - from) s.

(** [s.slice(from)] *)
Definition slice_from (s : string) (from : nat) : string :=
  substring from (String.length s - from) s.

Definition is_digit (c : ascii) : bool :=
  (48 <=? nat_of_ascii c)%nat && (nat_of_ascii c <=? 57)%nat.

Definition digit_value (c : ascii) : Z := Z.of_nat (nat_of_ascii c) - 48.

(** [Number.parseInt(s, 10)] on a string that starts with a digit: the value
    of its leading digits.  (On other strings JavaScript gives NaN or reads
    a sign or blanks; the converter calls it only on the non-empty digit
    strings of a matched parameter list, see [exec_tokens_digits].)  The
    value is the one JavaScript gives when it is below 2^53; above,
    JavaScript rounds it to a double. *)
Fixpoint parseInt_from (acc : Z) (s : string) : Z :=
  match s with
  | EmptyString => acc
  | String c rest =>
      if is_digit c then parseInt_from (10 * acc + digit_value c) rest
      else acc
  end.

Definition parseInt (s : string) : Z := parseInt_from 0 s.

End JS.

(** ** The palette and the 256-colour resolver *)

(** [ANSI_COLORS_16]: a lookup gives [None] outside the sixteen keys. *)
Definition ANSI_COLORS_16 (key : Z) : option string :=
  match key with
  | 0 => Some "#000000"
  | 1 => Some "#cd0000"
  | 2 => Some "#00cd00"
  | 3 => Some "#cdcd00"
  | 4 => Some "#0000ee"
  | 5 => Some "#cd00cd"
  | 6 => Some "#00cdcd"
  | 7 => Some "#e5e5e5"
  | 8 => Some "#7f7f7f"
  | 9 => Some "#ff0000"
  | 10 => Some "#00ff00"
  | 11 => Some "#ffff00"
  | 12 => Some "#5c5cff"
  | 13 => Some "#ff00ff"
  | 14 => Some "#00ffff"
  | 15 => Some "#ffffff"
  | _ => None
  end.

(** The local [toHex] of [ansi256ToHex]. *)
Definition toHex (c : Z) : string :=
  JS.padStart 2 "0" (JS.toString16 (if c =? 0 then 0 else 55 + c * 40)).

Definition ansi256ToHex (code : Z) : string :=
  if code <? 16 then
    JS.or_else (ANSI_COLORS_16 code) "#ffffff"
  else if code <? 232 then
    let n := code - 16 in
    let r := n / 36 in
    let g := Z.rem n 36 / 6 in
    let b := Z.rem n 6 in
    "#" ++ toHex r ++ toHex g ++ toHex b
  else
    let gray := (code - 232) * 10 + 8 in
    let hex := JS.padStart 2 "0" (JS.toString16 gray) in
    "#" ++ hex ++ hex ++ hex.

(** ** The style state *)

Record StyleState : Type := mkState {
  fg : option string;
  bg : option string;
  bold : option bool;
  italic : option bool;
  underline : option bool;
  dim : option bool
}.

(** [const state: StyleState = {}] *)
Definition empty_state : StyleState :=
  mkState None None None None None None.

Definition set_fg (s : StyleState) (v : option string) : StyleState :=
  mkState v (bg s) (bold s) (italic s) (underline s) (dim s).
Definition set_bg (s : StyleState) (v : option string) : StyleState :=
  mkState (fg s) v (bold s) (italic s) (underline s) (dim s).
Definition set_bold (s : StyleState) (v : option bool) : StyleState :=
  mkState (fg s) (bg s) v (italic s) (underline s) (dim s).
Definition set_italic (s : StyleState) (v : option bool) : StyleState :=
  mkState (fg s) (bg s) (bold s) v (underline s) (dim s).
Definition set_underline (s : StyleState) (v : option bool) : StyleState :=
  mkState (fg s) (bg s) (bold s) (italic s) v (dim s).
Definition set_dim (s : StyleState) (v : option bool) : StyleState :=
  mkState (fg s) (bg s) (bold s) (italic s) (underline s) v.

(** [styles.push(item)] when [cond] holds. *)
Definition push_if (cond : bool) (item : string) (styles : list string)
  : list string :=
  if cond then (styles ++ [item])%list else styles.

(** The [`${state.fg}`] of [openSpan]. *)
Definition color_text (c : option string) : string :=
  match c with Some s => s | None => "undefined" end.

Definition style_list (state : StyleState) : list string :=
  let styles := [] in
  let styles := push_if (JS.truthy_str (fg state))
                        ("color:" ++ color_text (fg state)) styles in
  let styles := push_if (JS.truthy_str (bg state))
                        ("background-color:" ++ color_text (bg state)) styles in
  let styles := push_if (JS.truthy_bool (bold state)) "font-weight:bold" styles in
  let styles := push_if (JS.truthy_bool (italic state)) "font-style:italic" styles in
  let styles := push_if (JS.truthy_bool (underline state))
                        "text-decoration:underline" styles in
  let styles := push_if (JS.truthy_bool (dim state)) "opacity:0.6" styles in
  styles.

(** The one-character string holding a double quote. *)
Definition dquote : string := String (ascii_of_nat 34) EmptyString.

Definition openSpan (state : StyleState) : string :=
  let styles := style_list state in
  if (0 <? List.length styles)%nat
  then "<span style=" ++ dquote ++ JS.join ";" styles ++ dquote ++ ">"
  else "".

(** ** The escape-sequence pattern *)

(** The character ESC, [\x1b]. *)
Definition ESC : ascii := ascii_of_nat 27.

(** The class [[0-9;]] of the pattern. *)
Definition is_param_char (c : ascii) : bool :=
  JS.is_digit c || (c =? ";")%char.

(** The longest run of [[0-9;]] at the head of [s], and what follows it. *)
Fixpoint span_params (s : string) : string * string :=
  match s with
  | EmptyString => ("", "")
  | String c rest =>
      if is_param_char c then
        let (run, after) := span_params rest in (String c run, after)
      else ("", s)
  end.

(** An attempt to match [ansiRegex] (ESC, an opening bracket, a greedy run
    of the class captured as group 1, then [m]) at the head of [s]: the text
    of the group when it matches.  The star is greedy and [m] is outside the
    class, so the pattern matches exactly when [m] follows the longest run. *)
Definition exec_at (s : string) : option string :=
  match s with
  | String c1 (String c2 rest) =>
      if (c1 =? ESC)%char && (c2 =? "[")%char then
        let (run, after) := span_params rest in
        match after with
        | String c3 _ => if (c3 =? "m")%char then Some run else None
        | EmptyString => None
        end
      else None
  | _ => None
  end.

(** One element of [text.matchAll(ansiRegex)]: [match.index],
    [match[0].length] and [match[1]]. *)
Record Match : Type := mkMatch {
  index : nat;
  whole_length : nat;
  group1 : string
}.

(** The matches in [s], the text from position [pos] on, found from left to
    right; [skip] counts the characters of [s] that a match already found
    still covers (the scan resumes at the end of each match). *)
Fixpoint matchAll_from (s : string) (pos skip : nat) : list Match :=
  match s with
  | EmptyString => []
  | String _ rest =>
      match skip with
      | S k => matchAll_from rest (S pos) k
      | O =>
          match exec_at s with
          | Some g =>
              mkMatch pos (3 + String.length g) g
                :: matchAll_from rest (S pos) (2 + String.length g)
          | None => matchAll_from rest (S pos) 0
          end
      end
  end.

Definition matchAll (text : string) : list Match := matchAll_from text 0 0.

(** ** The converter *)

Definition hasStyle (state : StyleState) : bool :=
  JS.truthy_str (fg state) || JS.truthy_str (bg state)
  || JS.truthy_bool (bold state) || JS.truthy_bool (italic state)
  || JS.truthy_bool (underline state) || JS.truthy_bool (dim state).

Definition escapeHtml (s : string) : string :=
  JS.replace_all ">" "&gt;"
    (JS.replace_all "<" "&lt;" (JS.replace_all "&" "&amp;" s)).

(** The block that appends a piece of literal text to [result]; the source
    has it twice, for the text before a match and for the remaining text. *)
Definition append_text (state : StyleState) (result piece : string) : string :=
  if (piece =? "")%string then result
  else if hasStyle state
       then result ++ (openSpan state ++ escapeHtml piece ++ "</span>")
       else result ++ escapeHtml piece.

(** [match[1].split(";").map((s) => (s === "" ? 0 : Number.parseInt(s, 10)))] *)
Definition parse_codes (group : string) : list Z :=
  map (fun s => if (s =? "")%string then 0 else JS.parseInt s)
      (JS.split ";" group).

(** The [rgb(r,g,b)] template of the truecolor branches. *)
Definition rgb_text (r g b : option Z) : string :=
  "rgb(" ++ JS.template r ++ "," ++ JS.template g ++ ","
         ++ JS.template b ++ ")".

(** The extended-colour branch shared, up to the field written, by codes 38
    and 48: the new state and the new value of [i]. *)
Definition extended (set : StyleState -> option string -> StyleState)
    (codes : list Z) (i : nat) (state : StyleState) : StyleState * nat :=
  if JS.is_num (JS.at_index codes (i + 1)) 5
     && JS.defined (JS.at_index codes (i + 2))
  then (set state (Some (ansi256ToHex (nth (i + 2) codes 0))), (i + 2)%nat)
  else if JS.is_num (JS.at_index codes (i + 1)) 2
          && JS.defined (JS.at_index codes (i + 4))
  then
    let r := JS.at_index codes (i + 2) in
    let g := JS.at_index codes (i + 3) in
    let b := JS.at_index codes (i + 4) in
    (set state (Some (rgb_text r g b)), (i + 4)%nat)
  else (state, i).

(** The if-chain of the while loop for [code = codes[i]]: the state and the
    value of [i] it leaves, before the final [i++]. *)
Definition interpret (codes : list Z) (i : nat) (code : Z)
    (state : StyleState) : StyleState * nat :=
  if code =? 0 then
    (set_dim (set_underline (set_italic (set_bold
       (set_bg (set_fg state None) None) None) None) None) None, i)
  else if code =? 1 then (set_bold state (Some true), i)
  else if code =? 2 then (set_dim state (Some true), i)
  else if code =? 3 then (set_italic state (Some true), i)
  else if code =? 4 then (set_underline state (Some true), i)
  else if code =? 22 then (set_dim (set_bold state None) None, i)
  else if code =? 23 then (set_italic state None, i)
  else if code =? 24 then (set_underline state None, i)
  else if (30 <=? code) && (code <=? 37)
       then (set_fg state (ANSI_COLORS_16 (code - 30)), i)
  else if code =? 38 then extended set_fg codes i state
  else if code =? 39 then (set_fg state None, i)
  else if (40 <=? code) && (code <=? 47)
       then (set_bg state (ANSI_COLORS_16 (code - 40)), i)
  else if code =? 48 then extended set_bg codes i state
  else if code =? 49 then (set_bg state None, i)
  else if (90 <=? code) && (code <=? 97)
       then (set_fg state (ANSI_COLORS_16 (code - 90 + 8)), i)
  else if (100 <=? code) && (code <=? 107)
       then (set_bg state (ANSI_COLORS_16 (code - 100 + 8)), i)
  else (state, i).

(** [while (i < codes.length) { ...; i++ }]; [None] when [fuel] iterations
    do not reach the end of [codes]. *)
Fixpoint sgr_loop (fuel : nat) (codes : list Z) (i : nat)
    (state : StyleState) : option StyleState :=
  match JS.at_index codes i with
  | None => Some state
  | Some code =>
      match fuel with
      | O => None
      | S fuel' =>
          let (state', i') := interpret codes i code state in
          sgr_loop fuel' codes (S i') state'
      end
  end.

(** The variables the [for] loop over the matches carries. *)
Record Scan : Type := mkScan {
  state_of : StyleState;
  result_of : string;
  lastIndex_of : nat
}.

(** The body of the [for] loop for one match. *)
Definition on_match (text : string) (sc : Scan) (m : Match) : option Scan :=
  let before := JS.slice text (lastIndex_of sc) (index m) in
  let result := append_text (state_of sc) (result_of sc) before in
  let codes := parse_codes (group1 m) in
  match sgr_loop (List.length codes) codes 0 (state_of sc) with
  | Some state => Some (mkScan state result (index m + whole_length m))
  | None => None
  end.

Fixpoint for_matches (text : string) (ms : list Match) (sc : Scan)
  : option Scan :=
  match ms with
  | [] => Some sc
  | m :: rest =>
      match on_match text sc m with
      | Some sc' => for_matches text rest sc'
      | None => None
      end
  end.

Definition ansiToHtml (text : string) : option string :=
  match for_matches text (matchAll text) (mkScan empty_state "" 0) with
  | Some sc =>
      let remaining := JS.slice_from text (lastIndex_of sc) in
      Some (append_text (state_of sc) (result_of sc) remaining)
  | None => None
  end.

(** [lines.map(ansiToHtml)] *)
Fixpoint map_lines (lines : list string) : option (list string) :=
  match lines with
  | [] => Some []
  | l :: rest =>
      match ansiToHtml l, map_lines rest with
      | Some h, Some hs => Some (h :: hs)
      | _, _ => None
      end
  end.

Definition ansiLinesToHtml (lines : list string) : option string :=
  match map_lines lines with
  | Some hs => Some (JS.join "<br>" hs)
  | None => None
  end.

(** ** The words of the specification, and the shape of an output *)

Module Spec.

(** The per-channel value of the colour cube: 0 for component 0, and
    55 + 40 * component otherwise. *)
Definition cube_component (c : Z) : Z :=
  if c =? 0 then 0 else 55 + 40 * c.

Definition hex_digit (d : Z) : ascii :=
  match d with
  | 0 => "0" | 1 => "1" | 2 => "2" | 3 => "3" | 4 => "4" | 5 => "5"
  | 6 => "6" | 7 => "7" | 8 => "8" | 9 => "9" | 10 => "a" | 11 => "b"
  | 12 => "c" | 13 => "d" | 14 => "e" | _ => "f"
  end%char.

(** A value below 256 as two hexadecimal digits, padded with a zero. *)
Definition hex2 (v : Z) : string :=
  String (hex_digit (v / 16)) (String (hex_digit (v mod 16)) "").

(** Indices 16 to 231: n = code - 16, r = n / 36, g = (n % 36) / 6,
    b = n % 6. *)
Definition cube_color (code : Z) : string :=
  let n := code - 16 in
  "#" ++ hex2 (cube_component (n / 36))
      ++ hex2 (cube_component ((n mod 36) / 6))
      ++ hex2 (cube_component (n mod 6)).

(** Indices 232 to 255: the gray level (code - 232) * 10 + 8 on the three
    channels. *)
Definition gray_color (code : Z) : string :=
  let level := hex2 ((code - 232) * 10 + 8) in
  "#" ++ level ++ level ++ level.

(** The codes of the mutation table. *)
Definition listed_code (code : Z) : bool :=
  (code =? 0) || (code =? 1) || (code =? 2) || (code =? 3) || (code =? 4)
  || (code =? 22) || (code =? 23) || (code =? 24)
  || ((30 <=? code) && (code <=? 37)) || (code =? 38) || (code =? 39)
  || ((40 <=? code) && (code <=? 47)) || (code =? 48) || (code =? 49)
  || ((90 <=? code) && (code <=? 97)) || ((100 <=? code) && (code <=? 107)).

(** An extended-colour selector at position [i] of [codes] that is not
    followed by a complete sub-sequence: the next parameter is missing, or
    is neither 5 nor 2, or the index after 5 is missing, or one of the three
    channels after 2 is missing. *)
Definition malformed_selector (codes : list Z) (i : nat) : Prop :=
  (nth_error codes i = Some 38 \/ nth_error codes i = Some 48)
  /\ (nth_error codes (i + 1) = None
      \/ (exists p, nth_error codes (i + 1) = Some p /\ p <> 5 /\ p <> 2)
      \/ (nth_error codes (i + 1) = Some 5 /\ nth_error codes (i + 2) = None)
      \/ (nth_error codes (i + 1) = Some 2
          /\ (nth_error codes (i + 2) = None
              \/ nth_error codes (i + 3) = None
              \/ nth_error codes (i + 4) = None))).

(** A colour value of the form rgb(r,g,b) whose three channels are integers
    from 0 to 255. *)
Definition channel (c : Z) : Prop := 0 <= c <= 255.

Definition rgb_in_range (color : string) : Prop :=
  exists r g b, channel r /\ channel g /\ channel b
    /\ color = "rgb(" ++ JS.toString10 r ++ "," ++ JS.toString10 g
                      ++ "," ++ JS.toString10 b ++ ")".

(** Every character of [s] passes the test [p]. *)
Fixpoint all_chars (p : ascii -> bool) (s : string) : bool :=
  match s with
  | EmptyString => true
  | String c rest => p c && all_chars p rest
  end.

(** A character other than the three that the markup language reserves. *)
Definition plain_char (c : ascii) : bool :=
  negb ((c =? "&")%char || (c =? "<")%char || (c =? ">")%char).

Definition not_esc (c : ascii) : bool := negb (c =? ESC)%char.

(** The results of the lines joined by the line-break marker. *)
Definition joined (outs : list string) : string := String.concat "<br>" outs.

(** The encoding of one character of literal text. *)
Definition entity_of (c : ascii) : string :=
  if (c =? "&")%char then "&amp;"
  else if (c =? "<")%char then "&lt;"
  else if (c =? ">")%char then "&gt;"
  else String c "".

(** Literal text encoded character by character. *)
Fixpoint encode (s : string) : string :=
  match s with
  | EmptyString => ""
  | String c rest => entity_of c ++ encode rest
  end.

(** The number of positions of [s] at which [pat] occurs. *)
Fixpoint occurrences (pat s : string) : nat :=
  match s with
  | EmptyString => 0
  | String _ rest =>
      ((if prefix pat s then 1 else 0) + occurrences pat rest)%nat
  end.

(** Every [<] of [s] opens one of the two markers of a style scope. *)
Fixpoint every_lt_is_marker (s : string) : bool :=
  match s with
  | EmptyString => true
  | String c rest =>
      (if (c =? "<")%char
       then prefix "<span style=" s || prefix "</span>" s
       else true)
      && every_lt_is_marker rest
  end.

(** Every [&] of [s] opens one of the three entities. *)
Fixpoint every_amp_is_entity (s : string) : bool :=
  match s with
  | EmptyString => true
  | String c rest =>
      (if (c =? "&")%char
       then prefix "&amp;" s || prefix "&lt;" s || prefix "&gt;" s
       else true)
      && every_amp_is_entity rest
  end.

Definition not_lt (c : ascii) : bool := negb (c =? "<")%char.

Definition not_amp (c : ascii) : bool := negb (c =? "&")%char.

Definition not_angle (c : ascii) : bool :=
  negb ((c =? "<")%char || (c =? ">")%char).

(** A character that can stand inside the quoted style attribute. *)
Definition attr_char (c : ascii) : bool :=
  negb ((c =? "<")%char || (c =? ">")%char || (c =? "&")%char
        || (c =? ascii_of_nat 34)%char).

(** A style declaration: not empty, made of attribute characters. *)
Definition declaration (d : string) : bool :=
  negb (d =? "")%string && all_chars attr_char d.

(** The shape of an output with balanced style scopes: a sequence of pieces,
    each one an escaped text, or an opening marker with at least one
    declaration, one escaped text and the closing marker right after it. *)
Inductive Markup : string -> Prop :=
| Markup_end : Markup ""
| Markup_text (raw rest : string) :
    Markup rest -> Markup (escapeHtml raw ++ rest)
| Markup_span (decls : list string) (raw rest : string) :
    decls <> [] ->
    forallb declaration decls = true ->
    Markup rest ->
    Markup (("<span style=" ++ dquote ++ JS.join ";" decls ++ dquote ++ ">")
              ++ escapeHtml raw ++ "</span>" ++ rest).

End Spec.

(** The escape sequence ESC [ params m. *)
Definition sgr (params : string) : string :=
  String ESC (String "[" (params ++ "m")).

(** ** The invariant of the scan *)

(** A colour of the state that can stand inside the style attribute. *)
Definition clean_color (c : option string) : bool :=
  match c with
  | Some s => Spec.all_chars Spec.attr_char s
  | None => true
  end.

Definition clean_state (state : StyleState) : bool :=
  clean_color (fg state) && clean_color (bg state).

From Stdlib Require Import DecimalPos.

(** ** The converter resumed from a state *)

(** The body of [ansiToHtml] with [state] and [result] as they may stand in
    the middle of a text: the state and the result at the end of [text]. *)
Definition convert_from (state : StyleState) (result text : string)
  : option (StyleState * string) :=
  match for_matches text (matchAll text) (mkScan state result 0) with
  | Some sc =>
      let remaining := JS.slice_from text (lastIndex_of sc) in
      Some (state_of sc, append_text (state_of sc) (result_of sc) remaining)
  | None => None
  end.

(** The while loop run on the codes of the parameter text [params]. *)
Definition apply_codes (params : string) (state : StyleState)
  : option StyleState :=
  sgr_loop (List.length (parse_codes params)) (parse_codes params) 0 state.

(** The literal pieces of [text] around the matches [ms], from [last] on:
    the text with the matched sequences cut out. *)
Fixpoint literal_pieces (text : string) (ms : list Match) (last : nat)
  : string :=
  match ms with
  | [] => JS.slice_from text last
  | m :: rest =>
      JS.slice text last (index m)
        ++ literal_pieces text rest (index m + whole_length m)
  end.

(** The text [s] with every match of the pattern deleted, as
    [s.replace(ansiRegex, "")] gives it; [skip] counts the characters that a
    match already found still covers. *)
Fixpoint remove_sequences_from (s : string) (skip : nat) : string :=
  match s with
  | EmptyString => ""
  | String c rest =>
      match skip with
      | S k => remove_sequences_from rest k
      | O =>
          match exec_at s with
          | Some g => remove_sequences_from rest (2 + String.length g)
          | None => String c (remove_sequences_from rest 0)
          end
      end
  end.

Definition remove_sequences (text : string) : string :=
  remove_sequences_from text 0.

(** The text of a markup with everything from a [<] to the next [>] cut
    out; [inside] tells whether the scan is between the two. *)
Fixpoint strip_tags (inside : bool) (s : string) : string :=
  match s with
  | EmptyString => ""
  | String c rest =>
      if inside then strip_tags (negb (c =? ">")%char) rest
      else if (c =? "<")%char then strip_tags true rest
      else String c (strip_tags false rest)
  end.

(** Every [<] of [s] opens a marker of a style scope or a line break. *)
Fixpoint every_lt_is_tag (s : string) : bool :=
  match s with
  | EmptyString => true
  | String c rest =>
      (if (c =? "<")%char
       then prefix "<span style=" s || prefix "</span>" s || prefix "<br>" s
       else true)
      && every_lt_is_tag rest
  end.

(** ** Two runs of the same codes *)

(** The values [s] and [s'] of a field in two runs that started with the
    values [a] and [a']: written alike in both, or still as at the start. *)
Definition field_rel {A : Type} (a a' s s' : A) : Prop :=
  s = s' \/ (s = a /\ s' = a').

Definition runs_rel (a a' s s' : StyleState) : Prop :=
  field_rel (fg a) (fg a') (fg s) (fg s')
  /\ field_rel (bg a) (bg a') (bg s) (bg s')
  /\ field_rel (bold a) (bold a') (bold s) (bold s')
  /\ field_rel (italic a) (italic a') (italic s) (italic s')
  /\ field_rel (underline a) (underline a') (underline s) (underline s')
  /\ field_rel (dim a) (dim a') (dim s) (dim s').

(** ** The integers that JavaScript numbers hold exactly *)

(** [Number.parseInt] and the printing of a number are exact on the
    integers up to [Number.MAX_SAFE_INTEGER], 2^53 - 1: a run of decimal
    digits with a value in this range is read as its value, and a number in
    this range is printed with all its digits.  (Above, [parseInt] rounds to
    a double and, from 10^21 on, a number is printed with an exponent.) *)
Definition MAX_SAFE_INTEGER : Z := 9007199254740991.

Definition safe_integer (n : Z) : Prop := 0 <= n <= MAX_SAFE_INTEGER.

(** ** Colours of the theme (index.ts) *)

Module Index.

(** The class [[0-9a-fA-F]]. *)
Definition is_hex (c : ascii) : bool :=
  JS.is_digit c
  || ((97 <=? nat_of_ascii c)%nat && (nat_of_ascii c <=? 102)%nat)
  || ((65 <=? nat_of_ascii c)%nat && (nat_of_ascii c <=? 70)%nat).

Definition hex_value (c : ascii) : Z :=
  if JS.is_digit c then Z.of_nat (nat_of_ascii c) - 48
  else if (97 <=? nat_of_ascii c)%nat then Z.of_nat (nat_of_ascii c) - 87
  else Z.of_nat (nat_of_ascii c) - 55.

(** [Number.parseInt(s, 16)] on a string that starts with a hexadecimal
    digit other than in the form 0x: the value of its leading digits. *)
Fixpoint parseInt16_from (acc : Z) (s : string) : Z :=
  match s with
  | EmptyString => acc
  | String c rest =>
      if is_hex c then parseInt16_from (16 * acc + hex_value c) rest
      else acc
  end.

Definition parseInt16 (s : string) : Z := parseInt16_from 0 s.

(** The class [\s] among the characters of the model, whose code is below
    256: tab, line feed, vertical tab, form feed, carriage return, space
    and no-break space.  (The other characters of the class, U+1680,
    U+2000 to U+200A, U+2028, U+2029, U+202F, U+205F, U+3000 and U+FEFF,
    are not characters of a [string].) *)
Definition is_space (c : ascii) : bool :=
  ((9 <=? nat_of_ascii c)%nat && (nat_of_ascii c <=? 13)%nat)
  || (nat_of_ascii c =? 32)%nat || (nat_of_ascii c =? 160)%nat.

(** What is left of [s] after a greedy [\s*]. *)
Fixpoint skip_spaces (s : string) : string :=
  match s with
  | EmptyString => ""
  | String c rest => if is_space c then skip_spaces rest else s
  end.

(** The longest run of digits at the head of [s], and what follows it. *)
Fixpoint span_digits (s : string) : string * string :=
  match s with
  | EmptyString => ("", "")
  | String c rest =>
      if JS.is_digit c then
        let (run, after) := span_digits rest in (String c run, after)
      else ("", s)
  end.

(** A group [(\d+)] at the head of [s]. *)
Definition digits1 (s : string) : option (string * string) :=
  let (run, after) := span_digits s in
  if (run =? "")%string then None else Some (run, after).

(** The single character [c] at the head of [s]. *)
Definition expect (c : ascii) (s : string) : option string :=
  match s with
  | String x rest => if (x =? c)%char then Some rest else None
  | EmptyString => None
  end.

(** The three groups of [color.match] for the anchored pattern
    [#] followed by three pairs of hexadecimal digits. *)
Definition match_hex (color : string) : option (string * string * string) :=
  match color with
  | String c0 rest =>
      if (c0 =? "#")%char then
        match rest with
        | String c1 (String c2 (String c3 (String c4 (String c5
            (String c6 EmptyString))))) =>
            if is_hex c1 && is_hex c2 && is_hex c3 && is_hex c4
               && is_hex c5 && is_hex c6
            then Some (String c1 (String c2 ""), String c3 (String c4 ""),
                       String c5 (String c6 ""))
            else None
        | _ => None
        end
      else None
  | EmptyString => None
  end.

(** The three groups of [color.match] for the anchored pattern [rgb],
    spaces, an opening parenthesis, then three runs of digits separated by
    commas, each with spaces around, and a closing parenthesis.  No class of
    the pattern overlaps the next one, so the greedy reading is the only
    one. *)
Definition match_rgb (color : string) : option (string * string * string) :=
  match color with
  | String c0 (String c1 (String c2 s0)) =>
      if (c0 =? "r")%char && (c1 =? "g")%char && (c2 =? "b")%char then
        match expect "(" (skip_spaces s0) with
        | Some s1 =>
          match digits1 (skip_spaces s1) with
          | Some (d1, s2) =>
            match expect "," (skip_spaces s2) with
            | Some s3 =>
              match digits1 (skip_spaces s3) with
              | Some (d2, s4) =>
                match expect "," (skip_spaces s4) with
                | Some s5 =>
                  match digits1 (skip_spaces s5) with
                  | Some (d3, s6) =>
                    match expect ")" (skip_spaces s6) with
                    | Some EmptyString => Some (d1, d2, d3)
                    | _ => None
                    end
                  | None => None
                  end
                | None => None
                end
              | None => None
              end
            | None => None
            end
          | None => None
          end
        | None => None
        end
      else None
  | _ => None
  end.

Record RGB : Type := mkRGB { r : Z; g : Z; b : Z }.

Definition parseColor (color : string) : option RGB :=
  match match_hex color with
  | Some (h1, h2, h3) =>
      Some (mkRGB (parseInt16 h1) (parseInt16 h2) (parseInt16 h3))
  | None =>
      match match_rgb color with
      | Some (d1, d2, d3) =>
          Some (mkRGB (JS.parseInt d1) (JS.parseInt d2) (JS.parseInt d3))
      | None => None
      end
  end.

(** *** Brightness and the colours of the export *)

Section Brightness.

(** Floating-point numbers are not modelled: the factor of
    [adjustBrightness] is of a type left open, [round_times c factor] stands
    for [Math.round(c * factor)] (an integer, for a factor that is a number)
    and [is_light r g b] for the test [getLuminance(r, g, b) > 0.5]. *)
Context {Factor : Type}.
Variable round_times : Z -> Factor -> Z.
Variable is_light : Z -> Z -> Z -> bool.
Variables factor_096 factor_07 factor_085 : Factor.

(** The local [adjust] of [adjustBrightness]. *)
Definition adjust (factor : Factor) (c : Z) : Z :=
  Z.min 255 (Z.max 0 (round_times c factor)).

(** The template [rgb(r, g, b)], with a space after each comma. *)
Definition rgb_spaced (r g b : Z) : string :=
  "rgb(" ++ JS.toString10 r ++ ", " ++ JS.toString10 g ++ ", "
         ++ JS.toString10 b ++ ")".

Definition adjustBrightness (color : string) (factor : Factor) : string :=
  match parseColor color with
  | None => color
  | Some parsed =>
      rgb_spaced (adjust factor (r parsed)) (adjust factor (g parsed))
                 (adjust factor (b parsed))
  end.

Record ExportColors : Type := mkExportColors {
  pageBg : string;
  cardBg : string;
  infoBg : string
}.

Definition deriveExportColors (baseColor : string) : ExportColors :=
  match parseColor baseColor with
  | None =>
      mkExportColors "rgb(24, 24, 30)" "rgb(30, 30, 36)" "rgb(60, 55, 40)"
  | Some parsed =>
      if is_light (r parsed) (g parsed) (b parsed) then
        mkExportColors
          (adjustBrightness baseColor factor_096)
          baseColor
          (rgb_spaced (Z.min 255 (r parsed + 10)) (Z.min 255 (g parsed + 5))
                      (Z.max 0 (b parsed - 20)))
      else
        mkExportColors
          (adjustBrightness baseColor factor_07)
          (adjustBrightness baseColor factor_085)
          (rgb_spaced (Z.min 255 (r parsed + 20)) (Z.min 255 (g parsed + 15))
                      (b parsed))
  end.

End Brightness.

(** A colour text that [parseColor] reads with its three channels from 0
    to 255. *)
Definition parses_in_range (color : string) : Prop :=
  exists c, parseColor color = Some c
            /\ 0 <= r c <= 255 /\ 0 <= g c <= 255 /\ 0 <= b c <= 255.

(** *** The tool calls of a session *)

(** A JavaScript [Map] with string keys: the pairs in insertion order; [set]
    on a key already there replaces the value where it stands. *)
Fixpoint map_set {V : Type} (k : string) (v : V) (m : list (string * V))
  : list (string * V) :=
  match m with
  | [] => [(k, v)]
  | (k', v') :: rest =>
      if (k' =? k)%string then (k, v) :: rest
      else (k', v') :: map_set k v rest
  end.

Fixpoint map_get {V : Type} (k : string) (m : list (string * V)) : option V :=
  match m with
  | [] => None
  | (k', v') :: rest => if (k' =? k)%string then Some v' else map_get k rest
  end.

(** [obj[k] = v] on an object literal used as a record of objects, read
    through its own keys: the key [__proto__] names the prototype, and
    assigning an object to it adds no key. *)
Definition obj_set {V : Type} (k : string) (v : V) (obj : list (string * V))
  : list (string * V) :=
  if (k =? "__proto__")%string then obj else map_set k v obj.

(** [BUILTIN_TOOLS.has(name)] *)
Definition BUILTIN_TOOLS_has (name : string) : bool :=
  existsb (String.eqb name)
          ["bash"; "read"; "write"; "edit"; "ls"; "find"; "grep"].

Section Session.

(** The content of a tool result, its details and the arguments of a tool
    call are passed on without being looked into. *)
Context {Content Details Args : Type}.

(** A block of the content of an assistant message; the name, the id and
    the arguments are read when the type is [toolCall]. *)
Record Block : Type := mkBlock {
  block_type : string;
  block_name : string;
  block_id : string;
  block_arguments : Args
}.

(** A message, by its role: [toolResult], [assistant], or another one. *)
Inductive Message : Type :=
| ToolResultMessage (toolCallId : string) (content : Content)
                    (details : option Details) (isError : option bool)
| AssistantMessage (content : list Block)
| OtherMessage (role : string).

(** An entry of the session, by its type: [message], or another one. *)
Inductive Entry : Type :=
| MessageEntry (message : Message)
| OtherEntry (type : string).

Record ToolResult : Type := mkToolResult {
  result_content : Content;
  result_details : option Details;
  result_isError : bool
}.

(** The body of the loop of [buildToolResultMap]. *)
Definition add_tool_result (map : list (string * ToolResult)) (entry : Entry)
  : list (string * ToolResult) :=
  match entry with
  | MessageEntry (ToolResultMessage id content details isError) =>
      map_set id
        (mkToolResult content details
           (match isError with Some e => e | None => false end))
        map
  | _ => map
  end.

Definition buildToolResultMap (entries : list Entry)
  : list (string * ToolResult) :=
  fold_left add_tool_result entries [].

Record RenderedToolHtml : Type := mkRendered {
  callHtml : option string;
  resultHtmlCollapsed : option string;
  resultHtmlExpanded : option string
}.

(** The interface [ToolHtmlRenderer]; [None] is [undefined]. *)
Record ToolHtmlRenderer : Type := mkRenderer {
  renderCall : string -> Args -> string -> option string;
  renderResult :
    string -> Content -> option Details -> bool -> bool -> option string
}.

(** [if (html) rendered.field = html]: the field is set for a string that
    is not empty. *)
Definition set_if_truthy (html : option string) : option string :=
  if JS.truthy_str html then html else None.

(** What the loop builds for one tool call that is not built in. *)
Definition render_tool_call (renderer : ToolHtmlRenderer)
    (toolResults : list (string * ToolResult)) (toolCall : Block)
  : RenderedToolHtml :=
  let call :=
    set_if_truthy
      (renderCall renderer (block_name toolCall) (block_arguments toolCall)
                  (block_id toolCall)) in
  match map_get (block_id toolCall) toolResults with
  | Some result =>
      let collapsedHtml :=
        renderResult renderer (block_name toolCall) (result_content result)
                     (result_details result) (result_isError result) false in
      let expandedHtml :=
        renderResult renderer (block_name toolCall) (result_content result)
                     (result_details result) (result_isError result) true in
      mkRendered call (set_if_truthy collapsedHtml)
                 (set_if_truthy expandedHtml)
  | None => mkRendered call None None
  end.

(** The body of the inner loop of [renderCustomTools], for one block. *)
Definition render_block (renderer : ToolHtmlRenderer)
    (toolResults : list (string * ToolResult))
    (renderedTools : list (string * RenderedToolHtml)) (block : Block)
  : list (string * RenderedToolHtml) :=
  if (block_type block =? "toolCall")%string then
    if negb (BUILTIN_TOOLS_has (block_name block)) then
      let rendered := render_tool_call renderer toolResults block in
      if JS.truthy_str (callHtml rendered)
         || JS.truthy_str (resultHtmlCollapsed rendered)
         || JS.truthy_str (resultHtmlExpanded rendered)
      then obj_set (block_id block) rendered renderedTools
      else renderedTools
    else renderedTools
  else renderedTools.

(** The body of the outer loop of [renderCustomTools], for one entry. *)
Definition render_entry (renderer : ToolHtmlRenderer)
    (toolResults : list (string * ToolResult))
    (renderedTools : list (string * RenderedToolHtml)) (entry : Entry)
  : list (string * RenderedToolHtml) :=
  match entry with
  | MessageEntry (AssistantMessage content) =>
      fold_left (render_block renderer toolResults) content renderedTools
  | _ => renderedTools
  end.

Definition renderCustomTools (entries : list Entry)
    (renderer : ToolHtmlRenderer) : list (string * RenderedToolHtml) :=
  let toolResults := buildToolResultMap entries in
  fold_left (render_entry renderer toolResults) entries [].

(** The tool-call blocks of the assistant messages of a session, in order. *)
Definition tool_calls (entries : list Entry) : list Block :=
  flat_map (fun entry =>
              match entry with
              | MessageEntry (AssistantMessage content) =>
                  filter (fun block => (block_type block =? "toolCall")%string)
                         content
              | _ => []
              end)
           entries.

(** The entry is a tool result for the call [id]. *)
Definition is_result_for (id : string) (entry : Entry) : bool :=
  match entry with
  | MessageEntry (ToolResultMessage id' _ _ _) => (id' =? id)%string
  | _ => false
  end.

(** What a stored rendering is: the rendering of a tool call of the session
    with that id, not built in, with some piece of HTML in it. *)
Definition rendering_of (entries : list Entry) (renderer : ToolHtmlRenderer)
    (id : string) (rendered : RenderedToolHtml) : Prop :=
  id <> "__proto__"
  /\ JS.truthy_str (callHtml rendered)
     || JS.truthy_str (resultHtmlCollapsed rendered)
     || JS.truthy_str (resultHtmlExpanded rendered) = true
  /\ exists block : Block,
       In block (tool_calls entries)
       /\ block_id block = id
       /\ BUILTIN_TOOLS_has (block_name block) = false
       /\ rendered
          = render_tool_call renderer (buildToolResultMap entries) block.

End Session.

End Index.

(** ** The renderer of custom tools (tool-renderer.ts) *)

Module ToolRenderer.

Definition DEFAULT_RENDER_WIDTH : nat := 100.

(** What a call into code from outside gives: a value, or an exception. *)
Inductive Outcome (A : Type) : Type :=
| Returned (a : A)
| Thrown.

Arguments Returned {A} a.
Arguments Thrown {A}.

Section Renderer.

Context {Content Details Args : Type}.

(** A component, by what [component.render(width)] gives. *)
Record Component : Type := mkComponent {
  render : nat -> Outcome (list string)
}.

(** A tool definition, by its two optional renderers, the theme being
    fixed: each gives a component, or a falsy value ([None]), or throws.
    The renderer of results is given the content, the details and the
    [expanded] flag. *)
Record ToolDefinition : Type := mkToolDefinition {
  def_renderCall : option (Args -> Outcome (option Component));
  def_renderResult :
    option (Content -> option Details -> bool -> Outcome (option Component))
}.

(** [renderComponentToHtml(component)] with the default width.  The
    conversion of the lines always gives a string ([ansiLinesToHtml_markers]);
    the model's [None] for it is passed on as an exception. *)
Definition renderComponentToHtml (component : Component) : Outcome string :=
  match render component DEFAULT_RENDER_WIDTH with
  | Returned lines =>
      match ansiLinesToHtml lines with
      | Some html => Returned html
      | None => Thrown
      end
  | Thrown => Thrown
  end.

(** The closure [getToolDefinition] over the cache [toolDefinitions] and the
    lookup of the extension runner: the definition and the cache after the
    call. *)
Definition getToolDefinition (runner : string -> option ToolDefinition)
    (toolDefinitions : list (string * ToolDefinition)) (toolName : string)
  : option ToolDefinition * list (string * ToolDefinition) :=
  match Index.map_get toolName toolDefinitions with
  | Some def => (Some def, toolDefinitions)
  | None =>
      match runner toolName with
      | Some def => (Some def, Index.map_set toolName def toolDefinitions)
      | None => (None, toolDefinitions)
      end
  end.

(** The [try] block shared by the two methods: the component, when there is
    one, rendered to HTML; [undefined] for a falsy component and for any
    exception. *)
Definition component_html (made : Outcome (option Component))
  : option string :=
  match made with
  | Returned (Some component) =>
      match renderComponentToHtml component with
      | Returned html => Some html
      | Thrown => None
      end
  | Returned None => None
  | Thrown => None
  end.

Definition renderCall (runner : string -> option ToolDefinition)
    (toolDefinitions : list (string * ToolDefinition))
    (toolName : string) (args : Args) (_toolCallId : string)
  : option string * list (string * ToolDefinition) :=
  let (def, cache) := getToolDefinition runner toolDefinitions toolName in
  match def with
  | Some d =>
      match def_renderCall d with
      | Some f => (component_html (f args), cache)
      | None => (None, cache)
      end
  | None => (None, cache)
  end.

Definition renderResult (runner : string -> option ToolDefinition)
    (toolDefinitions : list (string * ToolDefinition))
    (toolName : string) (result : Content) (details : option Details)
    (_isError : bool) (expanded : bool)
  : option string * list (string * ToolDefinition) :=
  let (def, cache) := getToolDefinition runner toolDefinitions toolName in
  match def with
  | Some d =>
      match def_renderResult d with
      | Some f => (component_html (f result details expanded), cache)
      | None => (None, cache)
      end
  | None => (None, cache)
  end.

(** Every definition of the cache is the one the runner gives. *)
Definition cache_agrees (runner : string -> option ToolDefinition)
    (toolDefinitions : list (string * ToolDefinition)) : Prop :=
  forall name def,
    Index.map_get name toolDefinitions = Some def -> runner name = Some def.

End Renderer.

End ToolRenderer.

(** ** The order of the matches *)

(** The matches [ms] come one after the other from position [last] on:
    each starts at or after the end of the one before. *)
Fixpoint in_order (ms : list Match) (last : nat) : Prop :=
  match ms with
  | [] => True
  | m :: rest =>
      (last <= index m)%nat /\ in_order rest (index m + whole_length m)
  end.

(** The tests of the context read as propositions. *)
Ltac tests_to_props :=
  repeat match goal with
         | H : (_ =? _) = true |- _ => apply Z.eqb_eq in H
         | H : (_ =? _) = false |- _ => apply Z.eqb_neq in H
         | H : _ && _ = true |- _ => apply andb_true_iff in H as [? ?]
         | H : _ && _ = false |- _ => apply andb_false_iff in H
         | H : (_ <=? _) = true |- _ => apply Z.leb_le in H
         | H : (_ <=? _) = false |- _ => apply Z.leb_gt in H
         end.

(** ** Auxiliary definitions of the proofs *)

(** The [n] integers from [lo] on. *)
Definition range (lo : Z) (n : nat) : list Z :=
  map (fun k => lo + Z.of_nat k) (seq 0 n).

(** A match moved [k] characters to the right. *)
Definition shift (k : nat) (m : Match) : Match :=
  mkMatch (k + index m) (whole_length m) (group1 m).

(** Case analysis on every test of the goal. *)
Ltac case_tests :=
  repeat match goal with
         | |- context [if ?b then _ else _] =>
             let E := fresh "E" in destruct b eqn:E
         end.

(** ** Strings *)

Lemma append_nil_r (s : string) : s ++ "" = s.
Proof. induction s as [|c s IH]; simpl; [reflexivity | now rewrite IH]. Qed.

Lemma append_assoc (a b c : string) : (a ++ b) ++ c = a ++ (b ++ c).
Proof. induction a as [|x a IH]; simpl; [reflexivity | now rewrite IH]. Qed.

Lemma length_append (a b : string) :
  String.length (a ++ b) = (String.length a + String.length b)%nat.
Proof. induction a as [|x a IH]; simpl; [reflexivity | now rewrite IH]. Qed.

(** ** Checking a property on a range of integers *)

Lemma range_forallb (P : Z -> bool) (lo : Z) (n : nat) :
  forallb P (range lo n) = true ->
  forall z, lo <= z < lo + Z.of_nat n -> P z = true.
Proof.
  intros H z Hz. rewrite forallb_forall in H. apply H.
  unfold range. apply in_map_iff. exists (Z.to_nat (z - lo)). split.
  - lia.
  - apply in_seq. lia.
Qed.

(** ** The colour resolver *)

(** C4: the resolver sends an index from 16 to 231 through the cube
    decomposition, each channel printed on two hexadecimal digits, and an
    index from 232 to 255 to the gray level (code - 232) * 10 + 8 repeated
    on the three channels; index 196 gives #ff0000 and index 244 gives
    #808080. *)
Theorem ansi256ToHex_cube_and_gray :
  (forall code, 16 <= code <= 231 -> ansi256ToHex code = Spec.cube_color code)
  /\ (forall code, 232 <= code <= 255 ->
        ansi256ToHex code = Spec.gray_color code)
  /\ ansi256ToHex 196 = "#ff0000"
  /\ ansi256ToHex 244 = "#808080".
Proof.
  repeat split.
  - intros code Hc. apply String.eqb_eq.
    apply (range_forallb
             (fun c => (ansi256ToHex c =? Spec.cube_color c)%string) 16 216).
    + vm_compute. reflexivity.
    + lia.
  - intros code Hc. apply String.eqb_eq.
    apply (range_forallb
             (fun c => (ansi256ToHex c =? Spec.gray_color c)%string) 232 24).
    + vm_compute. reflexivity.
    + lia.
Qed.

Lemma ansi256ToHex_cube_and_gray_witness :
  16 <= 196 <= 231 /\ ansi256ToHex 196 = Spec.cube_color 196.
Proof.
  split; [lia | apply (proj1 ansi256ToHex_cube_and_gray); lia].
Defined.

(** ** The loop over the codes of one sequence *)

Lemma nth_error_Some_lt {A} (l : list A) n x :
  nth_error l n = Some x -> (n < List.length l)%nat.
Proof. intros H. apply nth_error_Some. congruence. Qed.

Lemma extended_index set codes i st :
  (i <= snd (extended set codes i st))%nat.
Proof. unfold extended. case_tests; simpl; lia. Qed.

Lemma interpret_index codes i code st :
  (i <= snd (interpret codes i code st))%nat.
Proof.
  unfold interpret. case_tests; simpl; try lia; apply extended_index.
Qed.

(** The loop ends within as many iterations as there are codes left. *)
Lemma sgr_loop_total fuel :
  forall codes i st, (List.length codes - i <= fuel)%nat ->
    exists st', sgr_loop fuel codes i st = Some st'.
Proof.
  induction fuel as [|fuel IH]; intros codes i st Hf; simpl;
    unfold JS.at_index; destruct (nth_error codes i) as [code|] eqn:Hc.
  - apply nth_error_Some_lt in Hc. lia.
  - eauto.
  - pose proof (interpret_index codes i code st) as Hi.
    destruct (interpret codes i code st) as [st' i']. simpl in Hi.
    apply IH. apply nth_error_Some_lt in Hc. lia.
  - eauto.
Qed.

Lemma nth_error_None_le {A} (l : list A) n m :
  nth_error l n = None -> (n <= m)%nat -> nth_error l m = None.
Proof. rewrite !nth_error_None. lia. Qed.

Lemma extended_malformed set codes i st :
  Spec.malformed_selector codes i -> extended set codes i st = (st, i).
Proof.
  intros [_ H]. unfold extended, JS.at_index.
  destruct H as [H | [(p & H & H5 & H2) | [[H H'] | [H H']]]].
  - rewrite H. reflexivity.
  - rewrite H. simpl.
    destruct (Z.eqb_spec p 5); [contradiction|].
    destruct (Z.eqb_spec p 2); [contradiction|]. reflexivity.
  - rewrite H, H'. reflexivity.
  - assert (H4 : nth_error codes (i + 4) = None)
      by (destruct H' as [H'|[H'|H']];
          apply (nth_error_None_le _ _ _ H'); lia).
    rewrite H, H4. simpl. reflexivity.
Qed.

(** C1 (amended): a malformed extended-colour selector changes no field of
    the state and moves the index by one only, so the parameters after it
    are read next as codes of their own; the loop over the sequence still
    ends with a state. *)
Theorem malformed_selector_is_skipped codes i st :
  Spec.malformed_selector codes i ->
  (exists code, nth_error codes i = Some code
                /\ interpret codes i code st = (st, i))
  /\ (forall fuel, sgr_loop (S fuel) codes i st = sgr_loop fuel codes (S i) st)
  /\ (forall st0, exists st', sgr_loop (List.length codes) codes 0 st0 = Some st').
Proof.
  intros H.
  assert (Hi : exists code, nth_error codes i = Some code
                            /\ interpret codes i code st = (st, i)).
  { destruct H as [[Hc | Hc] H']; eexists; (split; [exact Hc|]);
      unfold interpret; simpl; apply extended_malformed; split; auto. }
  split; [exact Hi|]. split.
  - intros fuel. destruct Hi as (code & Hc & Hi). simpl.
    unfold JS.at_index. rewrite Hc, Hi. reflexivity.
  - intros st0. apply sgr_loop_total. lia.
Qed.

Lemma malformed_selector_is_skipped_witness :
  Spec.malformed_selector [38; 2; 1] 0
  /\ interpret [38; 2; 1] 0 38 empty_state = (empty_state, 0%nat).
Proof.
  assert (M : Spec.malformed_selector [38; 2; 1] 0).
  { split; [left; reflexivity|]. right. right. right.
    split; [reflexivity|]. right. left. reflexivity. }
  split; [exact M|].
  destruct (proj1 (malformed_selector_is_skipped [38; 2; 1] 0 empty_state M))
    as (code & Hc & Hi).
  injection Hc as <-. exact Hi.
Defined.

(** C1 (as stated) fails: after the incomplete selector 38 of the sequence
    38;2;1 the leftover parameters 2 and 1 are read as the codes for dim and
    bold, and the state is changed. *)
Lemma malformed_selector_leftover_counterexample :
  Spec.malformed_selector [38; 2; 1] 0
  /\ sgr_loop 3 [38; 2; 1] 0 empty_state
     = Some (mkState None None (Some true) None None (Some true))
  /\ sgr_loop 3 [38; 2; 1] 0 empty_state <> Some empty_state.
Proof.
  split; [|split].
  - split; [left; reflexivity|]. right. right. right.
    split; [reflexivity|]. right. left. reflexivity.
  - reflexivity.
  - discriminate.
Qed.

(** ** Truecolor *)

Lemma prefix_nil (s : string) : prefix "" s = true.
Proof. destruct s; reflexivity. Qed.

Lemma prefix_append (a b : string) : prefix a (a ++ b) = true.
Proof.
  induction a as [|x a IH]; simpl.
  - destruct b; reflexivity.
  - destruct (ascii_dec x x); [exact IH | congruence].
Qed.

(** C3 (amended): an accepted truecolor sequence writes rgb(R,G,B) with
    the three parameters printed as they were parsed, without clamping;
    the channels of the colour are from 0 to 255 when the three parameters
    are. *)
Theorem truecolor_passes_channels_through codes i st r g b :
  nth_error codes (i + 1) = Some 2 ->
  nth_error codes (i + 2) = Some r ->
  nth_error codes (i + 3) = Some g ->
  nth_error codes (i + 4) = Some b ->
  let color := "rgb(" ++ JS.toString10 r ++ "," ++ JS.toString10 g
                      ++ "," ++ JS.toString10 b ++ ")" in
  interpret codes i 38 st = (set_fg st (Some color), (i + 4)%nat)
  /\ interpret codes i 48 st = (set_bg st (Some color), (i + 4)%nat)
  /\ (Spec.channel r -> Spec.channel g -> Spec.channel b -> Spec.rgb_in_range color).
Proof.
  intros H1 H2 H3 H4 color.
  assert (E : forall set, extended set codes i st
                          = (set st (Some color), (i + 4)%nat)).
  { intros set. unfold extended, JS.at_index.
    rewrite H1, H2, H3, H4. reflexivity. }
  split; [|split].
  - unfold interpret. simpl. apply E.
  - unfold interpret. simpl. apply E.
  - intros Hr Hg Hb. exists r, g, b. auto.
Qed.

Lemma truecolor_passes_channels_through_witness :
  nth_error [38; 2; 10; 20; 30] (0 + 1) = Some 2
  /\ nth_error [38; 2; 10; 20; 30] (0 + 2) = Some 10
  /\ nth_error [38; 2; 10; 20; 30] (0 + 3) = Some 20
  /\ nth_error [38; 2; 10; 20; 30] (0 + 4) = Some 30
  /\ interpret [38; 2; 10; 20; 30] 0 38 empty_state
     = (set_fg empty_state (Some "rgb(10,20,30)"), 4%nat)
  /\ Spec.rgb_in_range "rgb(10,20,30)".
Proof.
  pose proof (truecolor_passes_channels_through
                [38; 2; 10; 20; 30] 0 empty_state 10 20 30
                eq_refl eq_refl eq_refl eq_refl) as (H38 & _ & Hr).
  do 4 (split; [reflexivity|]). split.
  - exact H38.
  - apply Hr; unfold Spec.channel; lia.
Defined.

(** C3 (as stated) fails: the accepted sequence 38;2;999;0;0 gives the
    colour rgb(999,0,0), whose first channel is above 255. *)
Lemma truecolor_not_clamped_counterexample :
  interpret [38; 2; 999; 0; 0] 0 38 empty_state
  = (set_fg empty_state (Some "rgb(999,0,0)"), 4%nat)
  /\ ~ Spec.rgb_in_range "rgb(999,0,0)".
Proof.
  split; [reflexivity|].
  intros (r & g & b & Hr & _ & _ & H).
  assert (P : prefix ("rgb(" ++ JS.toString10 r ++ ",") "rgb(999,0,0)" = true).
  { rewrite H.
    replace ("rgb(" ++ JS.toString10 r ++ "," ++ JS.toString10 g ++ ","
                    ++ JS.toString10 b ++ ")")
      with (("rgb(" ++ JS.toString10 r ++ ",")
              ++ (JS.toString10 g ++ "," ++ JS.toString10 b ++ ")")).
    - apply prefix_append.
    - cbn. rewrite append_assoc. reflexivity. }
  assert (Q : negb (prefix ("rgb(" ++ JS.toString10 r ++ ",") "rgb(999,0,0)")
              = true).
  { apply (range_forallb
             (fun c => negb (prefix ("rgb(" ++ JS.toString10 c ++ ",")
                                    "rgb(999,0,0)")) 0 256).
    - vm_compute. reflexivity.
    - unfold Spec.channel in Hr. lia. }
  rewrite P in Q. discriminate.
Qed.

(** ** The converter returns *)

Lemma on_match_total text sc m : exists sc', on_match text sc m = Some sc'.
Proof.
  unfold on_match.
  destruct (sgr_loop_total (List.length (parse_codes (group1 m)))
              (parse_codes (group1 m)) 0 (state_of sc)) as [st' H]; [lia|].
  rewrite H. eauto.
Qed.

Lemma for_matches_total text ms :
  forall sc, exists sc', for_matches text ms sc = Some sc'.
Proof.
  induction ms as [|m ms IH]; intros sc; simpl; [eauto|].
  destruct (on_match_total text sc m) as [sc' H]. rewrite H. apply IH.
Qed.

Lemma ansiToHtml_total text : exists out, ansiToHtml text = Some out.
Proof.
  unfold ansiToHtml.
  destruct (for_matches_total text (matchAll text) (mkScan empty_state "" 0))
    as [sc H].
  rewrite H. eauto.
Qed.

(** ** Text without escape sequences *)

Lemma substring_all (s : string) : substring 0 (String.length s) s = s.
Proof. induction s as [|c s IH]; simpl; [reflexivity | now rewrite IH]. Qed.

Lemma replace_all_absent c by_ s :
  Spec.all_chars (fun x => negb (x =? c)%char) s = true ->
  JS.replace_all c by_ s = s.
Proof.
  induction s as [|x s IH]; simpl; [reflexivity|].
  intros H. apply andb_true_iff in H as [Hx Hs].
  apply negb_true_iff in Hx. rewrite Hx, IH by assumption. reflexivity.
Qed.

Lemma all_chars_weaken (p q : ascii -> bool) s :
  (forall c, p c = true -> q c = true) ->
  Spec.all_chars p s = true -> Spec.all_chars q s = true.
Proof.
  intros Hpq. induction s as [|x s IH]; simpl; [reflexivity|].
  intros H. apply andb_true_iff in H as [Hx Hs].
  rewrite (Hpq _ Hx), IH by assumption. reflexivity.
Qed.

Lemma escapeHtml_plain s :
  Spec.all_chars Spec.plain_char s = true -> escapeHtml s = s.
Proof.
  intros H. unfold escapeHtml.
  rewrite (replace_all_absent "&"), (replace_all_absent "<"),
    (replace_all_absent ">"); try reflexivity;
    revert H; apply all_chars_weaken; intros c; unfold Spec.plain_char;
    destruct (c =? "&")%char, (c =? "<")%char, (c =? ">")%char;
    simpl; congruence.
Qed.

Lemma ansiToHtml_no_match s :
  matchAll s = [] -> ansiToHtml s = Some (escapeHtml s).
Proof.
  intros H. unfold ansiToHtml. rewrite H. simpl.
  unfold JS.slice_from. rewrite Nat.sub_0_r, substring_all.
  unfold append_text. destruct (String.eqb_spec s "") as [->|_]; reflexivity.
Qed.

(** C8: on a string without escape sequences and without the characters
    &, < and >, the converter is the identity. *)
Theorem ansiToHtml_plain_identity s :
  matchAll s = [] ->
  Spec.all_chars Spec.plain_char s = true ->
  ansiToHtml s = Some s.
Proof.
  intros Hm Hp. rewrite (ansiToHtml_no_match s Hm), (escapeHtml_plain s Hp).
  reflexivity.
Qed.

Lemma ansiToHtml_plain_identity_witness :
  matchAll "plain text, 100%" = []
  /\ Spec.all_chars Spec.plain_char "plain text, 100%" = true
  /\ ansiToHtml "plain text, 100%" = Some "plain text, 100%".
Proof.
  split; [reflexivity|]. split; [reflexivity|].
  apply (ansiToHtml_plain_identity "plain text, 100%"); reflexivity.
Defined.

(** ** Sequences that are not terminated *)

Lemma exec_at_esc s g : exec_at s = Some g -> exists rest, s = String ESC rest.
Proof.
  destruct s as [|c1 [|c2 rest]]; simpl; try discriminate.
  destruct (Ascii.eqb_spec c1 ESC) as [->|]; simpl; [eauto | discriminate].
Qed.

Lemma matchAll_from_try c rest pos :
  matchAll_from (String c rest) pos 0
  = match exec_at (String c rest) with
    | Some g =>
        mkMatch pos (3 + String.length g) g
          :: matchAll_from rest (S pos) (2 + String.length g)
    | None => matchAll_from rest (S pos) 0
    end.
Proof. reflexivity. Qed.

Lemma matchAll_from_no_esc s :
  Spec.all_chars Spec.not_esc s = true ->
  forall pos, matchAll_from s pos 0 = [].
Proof.
  induction s as [|c s IH]; intros H pos; [reflexivity|].
  simpl in H. apply andb_true_iff in H as [Hc Hs].
  rewrite matchAll_from_try.
  destruct (exec_at (String c s)) as [g|] eqn:E.
  - apply exec_at_esc in E as [rest E]. injection E as -> _.
    unfold Spec.not_esc in Hc. rewrite Ascii.eqb_refl in Hc. discriminate.
  - apply IH. exact Hs.
Qed.

Lemma span_params_run p :
  Spec.all_chars is_param_char p = true ->
  forall rest,
    match rest with
    | String c _ => is_param_char c = false
    | EmptyString => True
    end ->
    span_params (p ++ rest) = (p, rest).
Proof.
  induction p as [|c p IH]; intros H rest Hr.
  - simpl. destruct rest as [|c r]; [reflexivity|]. simpl. now rewrite Hr.
  - simpl in H. apply andb_true_iff in H as [Hc Hp].
    simpl. rewrite Hc, (IH Hp rest Hr). reflexivity.
Qed.

(** An opened sequence whose run of parameters is followed by the end of
    the text, or by a character that is neither in the class nor [m], does
    not match. *)
Lemma exec_at_unterminated p rest :
  Spec.all_chars is_param_char p = true ->
  match rest with
  | String c _ => is_param_char c = false /\ c <> "m"%char
  | EmptyString => True
  end ->
  exec_at (String ESC (String "[" (p ++ rest))) = None.
Proof.
  intros Hp Hr. cbn [exec_at].
  rewrite Ascii.eqb_refl. simpl andb. cbv iota.
  rewrite (span_params_run p Hp rest).
  - destruct rest as [|c r]; [reflexivity|].
    destruct Hr as [_ Hm]. apply Ascii.eqb_neq in Hm. now rewrite Hm.
  - destruct rest; [exact I | apply Hr].
Qed.

Lemma param_char_not_esc c : is_param_char c = true -> Spec.not_esc c = true.
Proof.
  unfold Spec.not_esc. destruct (Ascii.eqb_spec c ESC) as [->|]; [|reflexivity].
  vm_compute. discriminate.
Qed.

Lemma param_char_plain c : is_param_char c = true -> Spec.plain_char c = true.
Proof.
  unfold Spec.plain_char.
  destruct (Ascii.eqb_spec c "&") as [->|]; [vm_compute; discriminate|].
  destruct (Ascii.eqb_spec c "<") as [->|]; [vm_compute; discriminate|].
  destruct (Ascii.eqb_spec c ">") as [->|]; [vm_compute; discriminate|].
  reflexivity.
Qed.

(** ** Reset *)

(** C5: ESC[31m x ESC[0m y gives x in a span whose colour is entry 1 of
    the palette, then y outside any span; code 0 resets every field of the
    state, and text met in the reset state is appended without a span. *)
Theorem reset_ends_the_style :
  ansiToHtml (sgr "31" ++ "x" ++ sgr "0" ++ "y")
  = Some ("<span style=" ++ dquote ++ "color:#cd0000" ++ dquote
                         ++ ">x</span>" ++ "y")
  /\ ANSI_COLORS_16 1 = Some "#cd0000"
  /\ (forall codes i st, interpret codes i 0 st = (empty_state, i))
  /\ (forall result piece,
        append_text empty_state result piece = result ++ escapeHtml piece).
Proof.
  repeat split.
  intros result piece. unfold append_text.
  destruct (String.eqb_spec piece "") as [->|_]; simpl.
  - now rewrite append_nil_r.
  - reflexivity.
Qed.

(** ** Several lines *)

Lemma map_lines_total lines :
  exists outs, Forall2 (fun l o => ansiToHtml l = Some o) lines outs
               /\ map_lines lines = Some outs.
Proof.
  induction lines as [|l lines (outs & HF & HM)]; simpl.
  - exists []. split; [constructor | reflexivity].
  - destruct (ansiToHtml_total l) as [o Ho]. rewrite Ho, HM.
    exists (o :: outs). split; [constructor; assumption | reflexivity].
Qed.

Lemma join_concat sep outs : JS.join sep outs = String.concat sep outs.
Proof.
  induction outs as [|o outs IH]; [reflexivity|].
  destruct outs as [|o' outs]; [reflexivity|].
  change (o ++ sep ++ JS.join sep (o' :: outs)
          = o ++ sep ++ String.concat sep (o' :: outs)).
  now rewrite IH.
Qed.

(** C9: the result for a sequence of lines is the results of the lines,
    each converted on its own, joined by the line-break marker; for the two
    lines a and b it is the result for a, the marker, the result for b. *)
Theorem ansiLinesToHtml_joins_lines :
  (forall lines, exists outs,
      Forall2 (fun l o => ansiToHtml l = Some o) lines outs
      /\ ansiLinesToHtml lines = Some (Spec.joined outs))
  /\ (forall a b, exists a' b',
        ansiToHtml a = Some a' /\ ansiToHtml b = Some b'
        /\ ansiLinesToHtml [a; b] = Some (a' ++ "<br>" ++ b'))
  /\ ansiLinesToHtml ["a"; "b"] = Some "a<br>b".
Proof.
  repeat split.
  - intros lines. destruct (map_lines_total lines) as (outs & HF & HM).
    exists outs. split; [exact HF|].
    unfold ansiLinesToHtml, Spec.joined. rewrite HM, join_concat. reflexivity.
  - intros a b.
    destruct (ansiToHtml_total a) as [a' Ha].
    destruct (ansiToHtml_total b) as [b' Hb].
    exists a', b'. repeat split; try assumption.
    unfold ansiLinesToHtml. simpl. rewrite Ha, Hb. reflexivity.
Qed.

(** ** Codes outside the table *)

Lemma interpret_unlisted codes i code st :
  Spec.listed_code code = false -> interpret codes i code st = (st, i).
Proof.
  unfold Spec.listed_code, interpret. intros H.
  repeat (apply orb_false_iff in H; destruct H as [H ?]).
  repeat match goal with
         | E : ?b = false |- context [if ?b then _ else _] => rewrite E
         end.
  reflexivity.
Qed.

Lemma sgr_loop_unlisted codes :
  Forall (fun code => Spec.listed_code code = false) codes ->
  forall fuel i st, (List.length codes - i <= fuel)%nat ->
    sgr_loop fuel codes i st = Some st.
Proof.
  intros HF. induction fuel as [|fuel IH]; intros i st Hf; simpl;
    unfold JS.at_index; destruct (nth_error codes i) as [code|] eqn:Hc;
    try reflexivity.
  - apply nth_error_Some_lt in Hc. lia.
  - rewrite Forall_forall in HF.
    rewrite (interpret_unlisted codes i code st)
      by (apply HF; eapply nth_error_In; eassumption).
    apply IH. lia.
Qed.

Lemma substring_shift a t n m :
  substring (String.length a + n) m (a ++ t) = substring n m t.
Proof. induction a as [|c a IH]; simpl; [reflexivity | exact IH]. Qed.

Lemma matchAll_from_skip a t :
  forall pos k, k = String.length a ->
    matchAll_from (a ++ t) pos k = matchAll_from t (pos + k) 0.
Proof.
  induction a as [|c a IH]; intros pos k ->; simpl.
  - now rewrite Nat.add_0_r.
  - rewrite (IH (S pos) _ eq_refl). f_equal. lia.
Qed.

Lemma matchAll_from_shift k s :
  forall pos skip,
    matchAll_from s (k + pos) skip = map (shift k) (matchAll_from s pos skip).
Proof.
  induction s as [|c s IH]; intros pos skip; [reflexivity|].
  destruct skip as [|skip].
  - rewrite !matchAll_from_try.
    destruct (exec_at (String c s)) as [g|]; simpl map;
      rewrite <- IH; repeat f_equal; lia.
  - simpl. rewrite <- IH. f_equal. lia.
Qed.

Lemma for_matches_shift a t ms :
  forall st result last,
    for_matches (a ++ t) (map (shift (String.length a)) ms)
                (mkScan st result (String.length a + last))
    = match for_matches t ms (mkScan st result last) with
      | Some sc =>
          Some (mkScan (state_of sc) (result_of sc)
                       (String.length a + lastIndex_of sc))
      | None => None
      end.
Proof.
  induction ms as [|m ms IH]; intros st result last; [reflexivity|].
  cbn [map for_matches]. unfold on_match. cbn [shift index whole_length
    group1 state_of result_of lastIndex_of].
  unfold JS.slice.
  replace (String.length a + index m - (String.length a + last))%nat
    with (index m - last)%nat by lia.
  rewrite substring_shift.
  destruct (sgr_loop _ (parse_codes (group1 m)) 0 st) as [st'|];
    [|reflexivity].
  rewrite <- Nat.add_assoc. apply IH.
Qed.

Lemma ansiToHtml_after_inert_sequence p t :
  Spec.all_chars is_param_char p = true ->
  Forall (fun code => Spec.listed_code code = false) (parse_codes p) ->
  ansiToHtml (sgr p ++ t) = ansiToHtml t.
Proof.
  intros Hp Hc.
  set (a := String "[" (p ++ "m")).
  assert (Ha : sgr p ++ t = String ESC (a ++ t)) by reflexivity.
  assert (Hl : String.length (String ESC a) = (3 + String.length p)%nat).
  { unfold a. simpl. rewrite length_append. simpl. lia. }
  assert (He : exec_at (String ESC (a ++ t)) = Some p).
  { unfold a. cbn [exec_at append]. rewrite Ascii.eqb_refl. simpl andb.
    cbv iota. rewrite append_assoc.
    rewrite (span_params_run p Hp ("m" ++ t)) by reflexivity.
    reflexivity. }
  assert (Hm : matchAll (sgr p ++ t)
               = mkMatch 0 (3 + String.length p) p
                   :: map (shift (String.length (String ESC a))) (matchAll t)).
  { unfold matchAll. rewrite Ha, matchAll_from_try, He. f_equal.
    rewrite (matchAll_from_skip a t 1 (2 + String.length p)).
    - rewrite <- matchAll_from_shift. f_equal. simpl in Hl |- *. lia.
    - unfold a in *. simpl in *. lia. }
  unfold ansiToHtml at 1. rewrite Hm. cbn [for_matches].
  unfold on_match at 1. cbn [index whole_length group1 state_of result_of
    lastIndex_of].
  rewrite (sgr_loop_unlisted _ Hc) by lia.
  assert (Hb : JS.slice (sgr p ++ t) 0 0 = "") by reflexivity.
  rewrite Hb. cbn [append_text String.eqb].
  replace (0 + (3 + String.length p))%nat
    with (String.length (String ESC a) + 0)%nat by lia.
  rewrite Ha.
  change (String ESC (a ++ t)) with (String ESC a ++ t).
  rewrite for_matches_shift. unfold ansiToHtml.
  destruct (for_matches t (matchAll t) (mkScan empty_state "" 0)) as [sc|];
    [|reflexivity].
  cbn [state_of result_of lastIndex_of]. do 2 f_equal.
  unfold JS.slice_from. rewrite length_append.
  replace (String.length (String ESC a) + String.length t
           - (String.length (String ESC a) + lastIndex_of sc))%nat
    with (String.length t - lastIndex_of sc)%nat by lia.
  apply substring_shift.
Qed.

(** C7: a code outside the mutation table leaves every field of the state
    as it was, so a sequence made of such codes only, for example ESC[99m,
    put in front of a text gives the output of the text alone. *)
Theorem unlisted_code_is_ignored :
  (forall codes i code st,
      Spec.listed_code code = false -> interpret codes i code st = (st, i))
  /\ (forall p t,
        Spec.all_chars is_param_char p = true ->
        Forall (fun code => Spec.listed_code code = false) (parse_codes p) ->
        ansiToHtml (sgr p ++ t) = ansiToHtml t)
  /\ (forall t, ansiToHtml (sgr "99" ++ t) = ansiToHtml t).
Proof.
  split; [exact interpret_unlisted|].
  split; [exact ansiToHtml_after_inert_sequence|].
  intros t. apply ansiToHtml_after_inert_sequence; [reflexivity|].
  repeat constructor.
Qed.

Lemma unlisted_code_is_ignored_witness :
  Spec.listed_code 99 = false
  /\ interpret [99] 0 99 empty_state = (empty_state, 0%nat)
  /\ Spec.all_chars is_param_char "99;5" = true
  /\ ansiToHtml (sgr "99;5" ++ "<b>") = ansiToHtml "<b>".
Proof.
  split; [reflexivity|]. split; [|split; [reflexivity|]].
  - apply (proj1 unlisted_code_is_ignored). reflexivity.
  - apply (proj1 (proj2 unlisted_code_is_ignored)); [reflexivity|].
    repeat constructor.
Defined.

(** ** Escaping *)

Lemma replace_all_app c by_ a b :
  JS.replace_all c by_ (a ++ b)
  = JS.replace_all c by_ a ++ JS.replace_all c by_ b.
Proof.
  induction a as [|x a IH]; simpl; [reflexivity|].
  destruct (x =? c)%char; rewrite IH; [|reflexivity].
  now rewrite append_assoc.
Qed.

Lemma escapeHtml_cons c s :
  escapeHtml (String c s) = Spec.entity_of c ++ escapeHtml s.
Proof.
  unfold escapeHtml, Spec.entity_of.
  cbn [JS.replace_all].
  destruct (Ascii.eqb_spec c "&") as [->|Ha].
  - rewrite !replace_all_app. reflexivity.
  - cbn [JS.replace_all].
    destruct (Ascii.eqb_spec c "<") as [->|Hl].
    + rewrite !replace_all_app. reflexivity.
    + cbn [JS.replace_all].
      destruct (Ascii.eqb_spec c ">") as [->|Hg]; reflexivity.
Qed.

Lemma escapeHtml_encode s : escapeHtml s = Spec.encode s.
Proof.
  induction s as [|c s IH]; [reflexivity|].
  rewrite escapeHtml_cons, IH. reflexivity.
Qed.

Lemma all_chars_app p a b :
  Spec.all_chars p (a ++ b) = Spec.all_chars p a && Spec.all_chars p b.
Proof.
  induction a as [|x a IH]; simpl; [reflexivity|].
  now rewrite IH, andb_assoc.
Qed.

Lemma escapeHtml_not_angle s :
  Spec.all_chars Spec.not_angle (escapeHtml s) = true.
Proof.
  rewrite escapeHtml_encode.
  induction s as [|c s IH]; [reflexivity|].
  cbn [Spec.encode]. rewrite all_chars_app, IH, andb_true_r.
  unfold Spec.entity_of, Spec.not_angle.
  destruct (Ascii.eqb_spec c "&"); [reflexivity|].
  destruct (Ascii.eqb_spec c "<") as [|Hl]; [reflexivity|].
  destruct (Ascii.eqb_spec c ">") as [|Hg]; [reflexivity|].
  simpl. apply Ascii.eqb_neq in Hl, Hg. now rewrite Hl, Hg.
Qed.

Lemma escapeHtml_entities s :
  Spec.every_amp_is_entity (escapeHtml s) = true.
Proof.
  rewrite escapeHtml_encode.
  induction s as [|c s IH]; [reflexivity|].
  cbn [Spec.encode]. unfold Spec.entity_of.
  destruct (Ascii.eqb_spec c "&"); [simpl; rewrite prefix_nil; exact IH|].
  destruct (Ascii.eqb_spec c "<"); [simpl; rewrite prefix_nil; exact IH|].
  destruct (Ascii.eqb_spec c ">"); [simpl; rewrite prefix_nil; exact IH|].
  cbn [append Spec.every_amp_is_entity].
  destruct (Ascii.eqb_spec c "&"); [contradiction | exact IH].
Qed.

(** ** The colours of the state are attribute text *)

Lemma decimal_attr d :
  Spec.all_chars Spec.attr_char (DecimalString.NilEmpty.string_of_uint d)
  = true.
Proof. induction d; simpl; auto. Qed.

Lemma hexadecimal_attr d :
  Spec.all_chars Spec.attr_char (HexadecimalString.NilEmpty.string_of_uint d)
  = true.
Proof. induction d; simpl; auto. Qed.

Lemma toString10_attr n : Spec.all_chars Spec.attr_char (JS.toString10 n) = true.
Proof.
  unfold JS.toString10, DecimalString.NilZero.string_of_int,
    DecimalString.NilZero.string_of_uint.
  destruct (Z.to_int n) as [d|d]; destruct d; simpl;
    try reflexivity; apply decimal_attr.
Qed.

Lemma toString16_attr n : Spec.all_chars Spec.attr_char (JS.toString16 n) = true.
Proof.
  unfold JS.toString16, HexadecimalString.NilZero.string_of_int,
    HexadecimalString.NilZero.string_of_uint.
  destruct (Z.to_hex_int n) as [d|d]; destruct d; simpl;
    try reflexivity; apply hexadecimal_attr.
Qed.

Lemma repeat_fill_attr fill n :
  Spec.all_chars Spec.attr_char fill = true ->
  forall cur, Spec.all_chars Spec.attr_char cur = true ->
    Spec.all_chars Spec.attr_char (JS.repeat_fill fill cur n) = true.
Proof.
  intros Hf. induction n as [|n IH]; intros cur Hc; [reflexivity|].
  simpl. destruct cur as [|c cur].
  - destruct fill as [|c fill]; [reflexivity|].
    simpl in Hf |- *. apply andb_true_iff in Hf as [H1 H2].
    rewrite H1. simpl. apply IH. exact H2.
  - simpl in Hc |- *. apply andb_true_iff in Hc as [H1 H2].
    rewrite H1. simpl. apply IH. exact H2.
Qed.

Lemma padStart_attr n fill s :
  Spec.all_chars Spec.attr_char fill = true ->
  Spec.all_chars Spec.attr_char s = true ->
  Spec.all_chars Spec.attr_char (JS.padStart n fill s) = true.
Proof.
  intros Hf Hs. unfold JS.padStart.
  destruct (n <=? String.length s)%nat; [exact Hs|].
  destruct (fill =? "")%string; [exact Hs|].
  rewrite all_chars_app, Hs, andb_true_r.
  apply repeat_fill_attr; assumption.
Qed.

Lemma toHex_attr c : Spec.all_chars Spec.attr_char (toHex c) = true.
Proof.
  unfold toHex. apply padStart_attr; [reflexivity | apply toString16_attr].
Qed.

Lemma palette_clean key : clean_color (ANSI_COLORS_16 key) = true.
Proof.
  destruct key as [|p|p]; try reflexivity.
  do 5 (try destruct p as [p|p|]; try reflexivity).
Qed.

Lemma ansi256ToHex_attr code :
  Spec.all_chars Spec.attr_char (ansi256ToHex code) = true.
Proof.
  unfold ansi256ToHex.
  destruct (code <? 16).
  - pose proof (palette_clean code) as H. unfold JS.or_else.
    destruct (ANSI_COLORS_16 code) as [s|]; [|reflexivity].
    destruct (s =? "")%string; [reflexivity | exact H].
  - destruct (code <? 232); cbv zeta;
      rewrite ?all_chars_app, ?toHex_attr, ?padStart_attr;
      try reflexivity; try apply toString16_attr.
Qed.

Lemma template_attr x : Spec.all_chars Spec.attr_char (JS.template x) = true.
Proof. destruct x; [apply toString10_attr | reflexivity]. Qed.

Lemma rgb_text_attr r g b :
  Spec.all_chars Spec.attr_char (rgb_text r g b) = true.
Proof.
  unfold rgb_text. rewrite !all_chars_app, !template_attr. reflexivity.
Qed.

Lemma extended_clean_fg codes i st :
  clean_state st = true ->
  clean_state (fst (extended set_fg codes i st)) = true.
Proof.
  unfold extended, clean_state. intros H.
  apply andb_true_iff in H as [H1 H2].
  case_tests; cbn [fst set_fg set_bg fg bg clean_color];
    rewrite ?H1, ?H2, ?ansi256ToHex_attr, ?rgb_text_attr; reflexivity.
Qed.

Lemma extended_clean_bg codes i st :
  clean_state st = true ->
  clean_state (fst (extended set_bg codes i st)) = true.
Proof.
  unfold extended, clean_state. intros H.
  apply andb_true_iff in H as [H1 H2].
  case_tests; cbn [fst set_fg set_bg fg bg clean_color];
    rewrite ?H1, ?H2, ?ansi256ToHex_attr, ?rgb_text_attr; reflexivity.
Qed.

Lemma interpret_clean codes i code st :
  clean_state st = true ->
  clean_state (fst (interpret codes i code st)) = true.
Proof.
  intros H. pose proof H as H'. unfold clean_state in H'.
  apply andb_true_iff in H' as [H1 H2].
  unfold interpret.
  case_tests;
    try (apply extended_clean_fg; exact H);
    try (apply extended_clean_bg; exact H);
    unfold clean_state; simpl;
    rewrite ?H1, ?H2, ?palette_clean; reflexivity.
Qed.

Lemma sgr_loop_clean codes fuel :
  forall i st st',
    clean_state st = true -> sgr_loop fuel codes i st = Some st' ->
    clean_state st' = true.
Proof.
  induction fuel as [|fuel IH]; intros i st st' Hc; simpl;
    destruct (JS.at_index codes i) as [code|];
    try (intros [= <-]; exact Hc); try discriminate.
  pose proof (interpret_clean codes i code st Hc) as Hi.
  destruct (interpret codes i code st) as [st1 i1]. simpl in Hi.
  apply IH. exact Hi.
Qed.

(** ** The opening marker *)

Lemma style_list_declarations st :
  clean_state st = true -> forallb Spec.declaration (style_list st) = true.
Proof.
  unfold clean_state, style_list, push_if. intros H.
  apply andb_true_iff in H as [H1 H2].
  destruct (JS.truthy_bool (bold st)), (JS.truthy_bool (italic st)),
    (JS.truthy_bool (underline st)), (JS.truthy_bool (dim st));
    destruct (fg st) as [f|], (bg st) as [b|]; simpl in H1, H2 |- *;
    try destruct (f =? "")%string; try destruct (b =? "")%string;
    unfold Spec.declaration; simpl; rewrite ?H1, ?H2; reflexivity.
Qed.

Lemma hasStyle_style_list st : hasStyle st = true -> style_list st <> [].
Proof.
  unfold hasStyle, style_list, push_if.
  destruct (JS.truthy_str (fg st)), (JS.truthy_str (bg st)),
    (JS.truthy_bool (bold st)), (JS.truthy_bool (italic st)),
    (JS.truthy_bool (underline st)), (JS.truthy_bool (dim st));
    simpl; intros H; discriminate.
Qed.

Lemma openSpan_marker st :
  style_list st <> [] ->
  openSpan st
  = "<span style=" ++ dquote ++ JS.join ";" (style_list st) ++ dquote ++ ">".
Proof.
  unfold openSpan. destruct (style_list st); [contradiction | reflexivity].
Qed.

(** ** The shape of the output *)

Lemma Markup_app a b : Spec.Markup a -> Spec.Markup b -> Spec.Markup (a ++ b).
Proof.
  intros Ha Hb. induction Ha as [|raw rest Ha IH|decls raw rest Hn Hd Ha IH].
  - exact Hb.
  - rewrite append_assoc. apply Spec.Markup_text. exact IH.
  - rewrite (append_assoc
               ("<span style=" ++ dquote ++ JS.join ";" decls ++ dquote ++ ">")),
      (append_assoc (escapeHtml raw)), (append_assoc "</span>").
    apply Spec.Markup_span; assumption.
Qed.

Lemma append_text_markup st result piece :
  clean_state st = true -> Spec.Markup result ->
  Spec.Markup (append_text st result piece).
Proof.
  intros Hc Hr. unfold append_text.
  destruct (piece =? "")%string; [exact Hr|].
  destruct (hasStyle st) eqn:Hs; apply Markup_app; try exact Hr.
  - rewrite (openSpan_marker st (hasStyle_style_list st Hs)).
    exact (Spec.Markup_span (style_list st) piece ""
             (hasStyle_style_list st Hs) (style_list_declarations st Hc)
             Spec.Markup_end).
  - rewrite <- (append_nil_r (escapeHtml piece)).
    apply Spec.Markup_text, Spec.Markup_end.
Qed.

Lemma for_matches_markup text ms :
  forall sc sc',
    clean_state (state_of sc) = true -> Spec.Markup (result_of sc) ->
    for_matches text ms sc = Some sc' ->
    clean_state (state_of sc') = true /\ Spec.Markup (result_of sc').
Proof.
  induction ms as [|m ms IH]; intros sc sc' Hc Hr; simpl.
  - intros [= <-]. auto.
  - unfold on_match.
    destruct (sgr_loop _ (parse_codes (group1 m)) 0 (state_of sc))
      as [st|] eqn:Hl; [|discriminate].
    apply IH; simpl.
    + exact (sgr_loop_clean _ _ _ _ _ Hc Hl).
    + apply append_text_markup; assumption.
Qed.

Lemma ansiToHtml_markup s :
  exists out, ansiToHtml s = Some out /\ Spec.Markup out.
Proof.
  unfold ansiToHtml.
  destruct (for_matches_total s (matchAll s) (mkScan empty_state "" 0))
    as [sc H].
  rewrite H. eexists. split; [reflexivity|].
  destruct (for_matches_markup s (matchAll s)
              (mkScan empty_state "" 0) sc eq_refl Spec.Markup_end H)
    as [Hc Hr].
  apply append_text_markup; assumption.
Qed.

(** ** Counting the markers *)

Lemma occurrences_no_lt p a r :
  Spec.all_chars Spec.not_lt a = true ->
  Spec.occurrences (String "<" p) (a ++ r) = Spec.occurrences (String "<" p) r.
Proof.
  induction a as [|c a IH]; intros H; [reflexivity|].
  simpl in H. apply andb_true_iff in H as [Hc Ha].
  cbn [append Spec.occurrences prefix].
  destruct (ascii_dec "<" c) as [<-|_]; [discriminate Hc|].
  simpl. apply IH. exact Ha.
Qed.

Lemma attr_not_lt s :
  Spec.all_chars Spec.attr_char s = true -> Spec.all_chars Spec.not_lt s = true.
Proof.
  apply all_chars_weaken. intros c. unfold Spec.attr_char, Spec.not_lt.
  destruct (c =? "<")%char; simpl; congruence.
Qed.

Lemma not_angle_not_lt s :
  Spec.all_chars Spec.not_angle s = true -> Spec.all_chars Spec.not_lt s = true.
Proof.
  apply all_chars_weaken. intros c. unfold Spec.not_angle, Spec.not_lt.
  destruct (c =? "<")%char; simpl; congruence.
Qed.

Lemma join_attr decls :
  forallb Spec.declaration decls = true ->
  Spec.all_chars Spec.attr_char (JS.join ";" decls) = true.
Proof.
  induction decls as [|d decls IH]; [reflexivity|].
  intros H. cbn [forallb] in H. apply andb_true_iff in H as [Hd Hs].
  unfold Spec.declaration in Hd. apply andb_true_iff in Hd as [_ Hd].
  destruct decls as [|d' decls]; [exact Hd|].
  change (JS.join ";" (d :: d' :: decls))
    with (d ++ ";" ++ JS.join ";" (d' :: decls)).
  rewrite !all_chars_app, Hd, (IH Hs). reflexivity.
Qed.

(** A span piece, cut at its two [<]. *)
Lemma span_piece_cut decls raw rest :
  ("<span style=" ++ dquote ++ JS.join ";" decls ++ dquote ++ ">")
    ++ escapeHtml raw ++ "</span>" ++ rest
  = String "<" (("span style=" ++ dquote ++ JS.join ";" decls ++ dquote
                               ++ ">" ++ escapeHtml raw)
                  ++ String "<" ("/span>" ++ rest)).
Proof.
  cbn [append dquote]. rewrite !append_assoc. reflexivity.
Qed.

Lemma span_piece_inside decls raw :
  forallb Spec.declaration decls = true ->
  Spec.all_chars Spec.not_lt
    ("span style=" ++ dquote ++ JS.join ";" decls ++ dquote
                   ++ ">" ++ escapeHtml raw) = true.
Proof.
  intros H. rewrite !all_chars_app.
  rewrite (attr_not_lt _ (join_attr decls H)).
  rewrite (not_angle_not_lt _ (escapeHtml_not_angle raw)). reflexivity.
Qed.

Lemma Markup_balanced out :
  Spec.Markup out ->
  Spec.occurrences "<span" out = Spec.occurrences "</span>" out.
Proof.
  induction 1 as [|raw rest Ha IH|decls raw rest Hn Hd Ha IH].
  - reflexivity.
  - rewrite !occurrences_no_lt
      by apply not_angle_not_lt, escapeHtml_not_angle.
    exact IH.
  - rewrite span_piece_cut.
    set (inside := "span style=" ++ dquote ++ JS.join ";" decls ++ dquote
                                 ++ ">" ++ escapeHtml raw).
    assert (Hi : Spec.all_chars Spec.not_lt inside = true)
      by (apply span_piece_inside; exact Hd).
    assert (Hsix : Spec.all_chars Spec.not_lt "/span>" = true) by reflexivity.
    cbn [Spec.occurrences].
    rewrite !(occurrences_no_lt _ inside) by exact Hi.
    cbn [Spec.occurrences].
    rewrite !(occurrences_no_lt _ "/span>") by exact Hsix.
    rewrite IH. unfold inside. simpl. rewrite ?prefix_nil. reflexivity.
Qed.

(** C10: the output of the converter is a sequence of pieces, each one an
    escaped text or an opening marker with at least one declaration, one
    escaped text and the closing marker right after it; it has as many
    opening as closing markers. *)
Theorem style_scopes_are_balanced s :
  exists out,
    ansiToHtml s = Some out
    /\ Spec.Markup out
    /\ Spec.occurrences "<span" out = Spec.occurrences "</span>" out.
Proof.
  destruct (ansiToHtml_markup s) as (out & Ho & Hm).
  exists out. repeat split; [exact Ho | exact Hm | apply Markup_balanced, Hm].
Qed.

(** ** The reserved characters of the output *)

Lemma prefix_app_r p s b : prefix p s = true -> prefix p (s ++ b) = true.
Proof.
  revert p. induction s as [|c s IH]; intros [|x p] H.
  - apply prefix_nil.
  - discriminate H.
  - reflexivity.
  - simpl in H |- *. destruct (ascii_dec x c); [apply IH, H | discriminate H].
Qed.

Lemma every_lt_app a b :
  Spec.every_lt_is_marker a = true -> Spec.every_lt_is_marker b = true ->
  Spec.every_lt_is_marker (a ++ b) = true.
Proof.
  intros Ha Hb. induction a as [|c a IH]; [exact Hb|].
  cbn [Spec.every_lt_is_marker] in Ha. apply andb_true_iff in Ha as [Hc Ha].
  change (String c a ++ b) with (String c (a ++ b)).
  cbn [Spec.every_lt_is_marker]. rewrite (IH Ha), andb_true_r.
  destruct (c =? "<")%char; [|reflexivity].
  apply orb_true_iff in Hc as [Hc|Hc];
    apply (prefix_app_r _ _ b) in Hc;
    change (String c a ++ b) with (String c (a ++ b)) in Hc;
    rewrite Hc, ?orb_true_r; reflexivity.
Qed.

Lemma every_amp_app a b :
  Spec.every_amp_is_entity a = true -> Spec.every_amp_is_entity b = true ->
  Spec.every_amp_is_entity (a ++ b) = true.
Proof.
  intros Ha Hb. induction a as [|c a IH]; [exact Hb|].
  cbn [Spec.every_amp_is_entity] in Ha. apply andb_true_iff in Ha as [Hc Ha].
  change (String c a ++ b) with (String c (a ++ b)).
  cbn [Spec.every_amp_is_entity]. rewrite (IH Ha), andb_true_r.
  destruct (c =? "&")%char; [|reflexivity].
  apply orb_true_iff in Hc as [Hc|Hc];
    [apply orb_true_iff in Hc as [Hc|Hc]|];
    apply (prefix_app_r _ _ b) in Hc;
    change (String c a ++ b) with (String c (a ++ b)) in Hc;
    rewrite Hc, ?orb_true_r; reflexivity.
Qed.

Lemma no_lt_every_lt s :
  Spec.all_chars Spec.not_lt s = true -> Spec.every_lt_is_marker s = true.
Proof.
  induction s as [|c s IH]; [reflexivity|]. simpl.
  intros H. apply andb_true_iff in H as [Hc Hs].
  apply negb_true_iff in Hc. rewrite Hc, (IH Hs). reflexivity.
Qed.

Lemma no_amp_every_amp s :
  Spec.all_chars Spec.not_amp s = true -> Spec.every_amp_is_entity s = true.
Proof.
  induction s as [|c s IH]; [reflexivity|]. simpl.
  intros H. apply andb_true_iff in H as [Hc Hs].
  apply negb_true_iff in Hc. rewrite Hc, (IH Hs). reflexivity.
Qed.

Lemma attr_not_amp s :
  Spec.all_chars Spec.attr_char s = true -> Spec.all_chars Spec.not_amp s = true.
Proof.
  apply all_chars_weaken. intros c. unfold Spec.attr_char, Spec.not_amp.
  destruct (c =? "&")%char; simpl; rewrite ?orb_true_r; simpl; congruence.
Qed.

Lemma Markup_every_lt out :
  Spec.Markup out -> Spec.every_lt_is_marker out = true.
Proof.
  induction 1 as [|raw rest Ha IH|decls raw rest Hn Hd Ha IH].
  - reflexivity.
  - apply every_lt_app; [|exact IH].
    apply no_lt_every_lt, not_angle_not_lt, escapeHtml_not_angle.
  - repeat apply every_lt_app; try exact IH; try reflexivity.
    + apply no_lt_every_lt, attr_not_lt, join_attr, Hd.
    + apply no_lt_every_lt, not_angle_not_lt, escapeHtml_not_angle.
Qed.

Lemma Markup_every_amp out :
  Spec.Markup out -> Spec.every_amp_is_entity out = true.
Proof.
  induction 1 as [|raw rest Ha IH|decls raw rest Hn Hd Ha IH].
  - reflexivity.
  - apply every_amp_app; [apply escapeHtml_entities | exact IH].
  - repeat apply every_amp_app; try exact IH; try reflexivity.
    + apply no_amp_every_amp, attr_not_amp, join_attr, Hd.
    + apply escapeHtml_entities.
Qed.

Lemma prefix_cons_inv a p s :
  prefix (String a p) s = true -> exists s', s = String a s' /\ prefix p s' = true.
Proof.
  destruct s as [|c s]; simpl; [discriminate|].
  destruct (ascii_dec a c) as [<-|]; [eauto | discriminate].
Qed.

Lemma every_lt_no_script s :
  Spec.every_lt_is_marker s = true -> Spec.occurrences "<script>" s = 0%nat.
Proof.
  induction s as [|c s IH]; [reflexivity|].
  intros H. pose proof H as H'.
  cbn [Spec.every_lt_is_marker] in H'. apply andb_true_iff in H' as [_ Hs].
  cbn [Spec.occurrences]. rewrite (IH Hs), Nat.add_0_r.
  destruct (prefix "<script>" (String c s)) eqn:P; [|reflexivity].
  apply prefix_cons_inv in P as (s1 & E1 & P). injection E1 as -> ->.
  apply prefix_cons_inv in P as (s2 & -> & P).
  apply prefix_cons_inv in P as (s3 & -> & P).
  simpl in H. discriminate H.
Qed.

(** ** The tokens handed to [parseInt] *)

Lemma span_params_chars s :
  Spec.all_chars is_param_char (fst (span_params s)) = true.
Proof.
  induction s as [|c s IH]; [reflexivity|]. simpl.
  destruct (is_param_char c) eqn:Hc; [|reflexivity].
  destruct (span_params s) as [run after]. simpl in IH |- *.
  now rewrite Hc, IH.
Qed.

Lemma exec_at_group_chars s g :
  exec_at s = Some g -> Spec.all_chars is_param_char g = true.
Proof.
  destruct s as [|c1 [|c2 rest]]; simpl; try discriminate.
  destruct ((c1 =? ESC)%char && (c2 =? "[")%char); [|discriminate].
  pose proof (span_params_chars rest) as H.
  destruct (span_params rest) as [run [|c3 after]]; [discriminate|].
  destruct (c3 =? "m")%char; [|discriminate].
  intros [= <-]. exact H.
Qed.

(** Every token of a matched parameter list is a string of digits: the
    empty ones are answered by the test before [parseInt], the others are
    read in full by it. *)
Lemma exec_tokens_digits s g :
  exec_at s = Some g ->
  Forall (fun tok => Spec.all_chars JS.is_digit tok = true) (JS.split ";" g).
Proof.
  intros H. apply exec_at_group_chars in H. revert H.
  induction g as [|c g IH]; simpl; intros H.
  - repeat constructor.
  - apply andb_true_iff in H as [Hc Hg]. specialize (IH Hg).
    destruct (Ascii.eqb_spec c ";") as [->|Hn].
    + constructor; [reflexivity | exact IH].
    + unfold is_param_char in Hc. apply Ascii.eqb_neq in Hn.
      rewrite Hn, orb_false_r in Hc.
      destruct (JS.split ";" g) as [|tok toks].
      * repeat constructor. simpl. now rewrite Hc.
      * inversion IH as [|? ? Ht Hts]; subst.
        constructor; [simpl; now rewrite Hc, Ht | exact Hts].
Qed.

(** ** Worked examples *)

Example truecolor_example :
  ansiToHtml (sgr "38;2;10;20;30" ++ "x")
  = Some ("<span style=" ++ dquote ++ "color:rgb(10,20,30)" ++ dquote
                         ++ ">x</span>").
Proof. reflexivity. Qed.

Example indexed_background_example :
  ansiToHtml (sgr "1;48;5;196" ++ "a<b" ++ sgr "" ++ "&c")
  = Some ("<span style=" ++ dquote
            ++ "background-color:#ff0000;font-weight:bold" ++ dquote
            ++ ">a&lt;b</span>&amp;c").
Proof. reflexivity. Qed.

Example leftover_parameters_example :
  ansiToHtml (sgr "38;2;1" ++ "x")
  = Some ("<span style=" ++ dquote ++ "font-weight:bold;opacity:0.6"
                         ++ dquote ++ ">x</span>").
Proof. reflexivity. Qed.

Example unterminated_example :
  ansiToHtml ("a" ++ String ESC "[31" ++ "b") = Some ("a" ++ String ESC "[31b")
  /\ matchAll ("a" ++ String ESC "[31" ++ "b") = [].
Proof. split; reflexivity. Qed.

Example matches_example :
  matchAll ("ab" ++ sgr "1;31" ++ "c" ++ sgr "" ++ "d")
  = [mkMatch 2 7 "1;31"; mkMatch 10 3 ""].
Proof. reflexivity. Qed.

Example parse_codes_example : parse_codes "1;;038;5" = [1; 0; 38; 5].
Proof. reflexivity. Qed.

Example markers_example :
  Spec.occurrences "<span"
    ("<span style=" ++ dquote ++ "color:#cd0000" ++ dquote ++ ">x</span>y")
  = 1%nat
  /\ Spec.occurrences "</span>"
       ("<span style=" ++ dquote ++ "color:#cd0000" ++ dquote ++ ">x</span>y")
     = 1%nat.
Proof. split; reflexivity. Qed.

(** ** Cutting a text before a sequence *)

Lemma span_params_app_esc s r :
  span_params (s ++ String ESC r)
  = (fst (span_params s), snd (span_params s) ++ String ESC r).
Proof.
  induction s as [|c s IH]; [reflexivity|].
  cbn [append span_params].
  destruct (is_param_char c); [|reflexivity].
  rewrite IH. destruct (span_params s) as [run after]. reflexivity.
Qed.

Lemma exec_at_app_esc c x r :
  exec_at (String c x ++ String ESC r) = exec_at (String c x).
Proof.
  destruct x as [|c2 rest]; cbn [append exec_at].
  - destruct (c =? ESC)%char; reflexivity.
  - destruct ((c =? ESC)%char && (c2 =? "[")%char); [|reflexivity].
    rewrite span_params_app_esc.
    destruct (span_params rest) as [run [|c3 after]]; reflexivity.
Qed.

Lemma span_params_length s :
  (String.length (fst (span_params s)) + String.length (snd (span_params s))
   = String.length s)%nat.
Proof.
  induction s as [|c s IH]; [reflexivity|]. simpl.
  destruct (is_param_char c); [|reflexivity].
  destruct (span_params s) as [run after]. simpl in IH |- *. lia.
Qed.

Lemma exec_at_length x g :
  exec_at x = Some g -> (3 + String.length g <= String.length x)%nat.
Proof.
  destruct x as [|c1 [|c2 rest]]; simpl; try discriminate.
  destruct ((c1 =? ESC)%char && (c2 =? "[")%char); [|discriminate].
  pose proof (span_params_length rest) as H.
  destruct (span_params rest) as [run [|c3 after]]; [discriminate|].
  destruct (c3 =? "m")%char; [|discriminate].
  intros [= <-]. simpl in H. lia.
Qed.

Lemma matchAll_from_app a r :
  forall pos skip, (skip <= String.length a)%nat ->
    matchAll_from (a ++ String ESC r) pos skip
    = (matchAll_from a pos skip
         ++ matchAll_from (String ESC r) (pos + String.length a) 0)%list.
Proof.
  induction a as [|c a IH]; intros pos skip Hs.
  - simpl in Hs. replace skip with 0%nat by lia.
    cbn [append String.length]. rewrite Nat.add_0_r. reflexivity.
  - replace (pos + String.length (String c a))%nat
      with (S pos + String.length a)%nat by (simpl; lia).
    destruct skip as [|k].
    + rewrite matchAll_from_try.
      change (String c a ++ String ESC r) with (String c (a ++ String ESC r)).
      rewrite matchAll_from_try.
      change (String c (a ++ String ESC r)) with (String c a ++ String ESC r).
      rewrite exec_at_app_esc.
      destruct (exec_at (String c a)) as [g|] eqn:E.
      * apply exec_at_length in E. simpl in E.
        rewrite IH by lia. reflexivity.
      * rewrite IH by lia. reflexivity.
    + cbn [append matchAll_from]. simpl in Hs.
      rewrite IH by lia. reflexivity.
Qed.

Lemma matchAll_from_bounds a :
  forall pos skip m, In m (matchAll_from a pos skip) ->
    (pos <= index m /\ index m + whole_length m <= pos + String.length a)%nat.
Proof.
  induction a as [|c a IH]; intros pos skip m; [intros []|].
  destruct skip as [|k].
  - rewrite matchAll_from_try.
    destruct (exec_at (String c a)) as [g|] eqn:E.
    + apply exec_at_length in E. intros [<-|H].
      * cbn [index whole_length]. lia.
      * apply IH in H. simpl in *. lia.
    + intros H. apply IH in H. simpl. lia.
  - cbn [matchAll_from]. intros H. apply IH in H. simpl. lia.
Qed.

Lemma sgr_length p : String.length (sgr p) = (3 + String.length p)%nat.
Proof. unfold sgr. simpl. rewrite length_append. simpl. lia. Qed.

Lemma matchAll_sgr p b :
  Spec.all_chars is_param_char p = true ->
  matchAll (sgr p ++ b)
  = mkMatch 0 (3 + String.length p) p
      :: map (shift (3 + String.length p)) (matchAll b).
Proof.
  intros Hp. set (a := String "[" (p ++ "m")).
  assert (Ha : sgr p ++ b = String ESC (a ++ b)) by reflexivity.
  assert (Hl : String.length a = (2 + String.length p)%nat).
  { unfold a. simpl. rewrite length_append. simpl. lia. }
  assert (He : exec_at (String ESC (a ++ b)) = Some p).
  { unfold a. cbn [exec_at append]. rewrite Ascii.eqb_refl. simpl andb.
    cbv iota. rewrite append_assoc.
    rewrite (span_params_run p Hp ("m" ++ b)) by reflexivity.
    reflexivity. }
  unfold matchAll. rewrite Ha, matchAll_from_try, He. f_equal.
  rewrite (matchAll_from_skip a b 1 (2 + String.length p)) by (symmetry; exact Hl).
  rewrite <- matchAll_from_shift. f_equal. lia.
Qed.

Lemma substring_zero n s : substring n 0 s = "".
Proof.
  revert n. induction s as [|c s IH]; intros [|n]; simpl; auto.
Qed.

Lemma substring_app_l a s :
  forall n m, (n + m <= String.length a)%nat ->
    substring n m (a ++ s) = substring n m a.
Proof.
  induction a as [|c a IH]; intros n m H; simpl in H.
  - replace n with 0%nat by lia. replace m with 0%nat by lia.
    simpl. destruct s; reflexivity.
  - destruct n as [|n]; destruct m as [|m]; simpl; try reflexivity.
    + rewrite IH by lia. reflexivity.
    + apply IH. lia.
    + apply IH. lia.
Qed.

Lemma slice_app_l a s last idx :
  (idx <= String.length a)%nat ->
  JS.slice (a ++ s) last idx = JS.slice a last idx.
Proof.
  intros H. unfold JS.slice.
  destruct (Nat.le_gt_cases last idx) as [Hl|Hl].
  - apply substring_app_l. lia.
  - replace (idx - last)%nat with 0%nat by lia.
    now rewrite !substring_zero.
Qed.

Lemma for_matches_app text ms1 ms2 sc :
  for_matches text (ms1 ++ ms2)%list sc
  = match for_matches text ms1 sc with
    | Some sc1 => for_matches text ms2 sc1
    | None => None
    end.
Proof.
  revert sc. induction ms1 as [|m ms1 IH]; intros sc; [reflexivity|].
  cbn [app for_matches]. destruct (on_match text sc m); [apply IH | reflexivity].
Qed.

Lemma for_matches_in_prefix a s ms :
  Forall (fun m => (index m <= String.length a)%nat) ms ->
  forall sc, for_matches (a ++ s) ms sc = for_matches a ms sc.
Proof.
  induction 1 as [|m ms Hm _ IH]; intros sc; [reflexivity|].
  cbn [for_matches]. unfold on_match. rewrite slice_app_l by exact Hm.
  destruct (sgr_loop _ _ 0 (state_of sc)); [apply IH | reflexivity].
Qed.

Lemma matchAll_index_bound a :
  Forall (fun m => (index m <= String.length a)%nat) (matchAll a).
Proof.
  apply Forall_forall. intros m H.
  apply matchAll_from_bounds in H. lia.
Qed.

(** The text cut right before a sequence: the first part is converted as
    on its own, the codes of the sequence are applied to the state it
    leaves, and the second part is converted from there. *)
Lemma convert_from_cut a p b st res :
  Spec.all_chars is_param_char p = true ->
  convert_from st res (a ++ sgr p ++ b)
  = match convert_from st res a with
    | Some (st1, res1) =>
        match apply_codes p st1 with
        | Some st2 => convert_from st2 res1 b
        | None => None
        end
    | None => None
    end.
Proof.
  intros Hp.
  assert (Hm : matchAll (a ++ sgr p ++ b)
               = (matchAll a
                   ++ mkMatch (String.length a) (3 + String.length p) p
                   :: map (shift (String.length (a ++ sgr p))) (matchAll b))%list).
  { unfold matchAll at 1.
    change (sgr p ++ b) with (String ESC (String "[" (p ++ "m") ++ b)).
    rewrite matchAll_from_app by lia.
    change (String ESC (String "[" (p ++ "m") ++ b)) with (sgr p ++ b).
    fold (matchAll a). f_equal.
    replace (0 + String.length a)%nat with (String.length a + 0)%nat by lia.
    rewrite (matchAll_from_shift (String.length a) (sgr p ++ b) 0 0).
    fold (matchAll (sgr p ++ b)).
    rewrite (matchAll_sgr p b Hp). cbn [map]. unfold shift at 1.
    cbn [index whole_length group1].
    rewrite Nat.add_0_r, map_map. f_equal.
    apply map_ext. intros m. unfold shift. cbn [index whole_length group1].
    rewrite length_append, sgr_length. f_equal. lia. }
  unfold convert_from at 1. rewrite Hm, for_matches_app.
  rewrite for_matches_in_prefix by apply matchAll_index_bound.
  unfold convert_from at 1.
  destruct (for_matches a (matchAll a) (mkScan st res 0)) as [sc1|];
    [|reflexivity].
  cbn [for_matches]. unfold on_match at 1.
  cbn [index whole_length group1]. unfold apply_codes.
  assert (Hb : JS.slice (a ++ sgr p ++ b) (lastIndex_of sc1) (String.length a)
               = JS.slice_from a (lastIndex_of sc1)).
  { rewrite slice_app_l by lia. reflexivity. }
  rewrite Hb.
  destruct (sgr_loop _ (parse_codes p) 0 (state_of sc1)) as [st2|];
    [|reflexivity].
  replace (String.length a + (3 + String.length p))%nat
    with (String.length (a ++ sgr p) + 0)%nat
    by (rewrite length_append, sgr_length; lia).
  rewrite <- (append_assoc a (sgr p) b).
  rewrite for_matches_shift. unfold convert_from.
  destruct (for_matches b (matchAll b) _) as [sc|]; [|reflexivity].
  cbn [state_of result_of lastIndex_of]. do 3 f_equal.
  unfold JS.slice_from. rewrite (length_append (a ++ sgr p)).
  replace (String.length (a ++ sgr p) + String.length b
           - (String.length (a ++ sgr p) + lastIndex_of sc))%nat
    with (String.length b - lastIndex_of sc)%nat by lia.
  apply substring_shift.
Qed.

Lemma append_text_prefix st res x piece :
  append_text st (res ++ x) piece = res ++ append_text st x piece.
Proof.
  unfold append_text. destruct (piece =? "")%string; [reflexivity|].
  destruct (hasStyle st); now rewrite append_assoc.
Qed.

Lemma for_matches_result_prefix text ms res :
  forall st x last,
    for_matches text ms (mkScan st (res ++ x) last)
    = match for_matches text ms (mkScan st x last) with
      | Some sc =>
          Some (mkScan (state_of sc) (res ++ result_of sc) (lastIndex_of sc))
      | None => None
      end.
Proof.
  induction ms as [|m ms IH]; intros st x last; [reflexivity|].
  cbn [for_matches]. unfold on_match.
  cbn [state_of result_of lastIndex_of].
  destruct (sgr_loop _ _ 0 st) as [st'|]; [|reflexivity].
  rewrite append_text_prefix. apply IH.
Qed.

Lemma convert_from_result_prefix st res text :
  convert_from st res text
  = match convert_from st "" text with
    | Some (st', out) => Some (st', res ++ out)
    | None => None
    end.
Proof.
  unfold convert_from.
  rewrite <- (append_nil_r res) at 1. rewrite for_matches_result_prefix.
  destruct (for_matches text (matchAll text) (mkScan st "" 0)) as [sc|];
    [|reflexivity].
  cbn [state_of result_of lastIndex_of]. now rewrite append_text_prefix.
Qed.

Lemma ansiToHtml_convert_from text :
  ansiToHtml text
  = match convert_from empty_state "" text with
    | Some (_, out) => Some out
    | None => None
    end.
Proof.
  unfold ansiToHtml, convert_from.
  destruct (for_matches text (matchAll text) _); reflexivity.
Qed.

Lemma convert_from_total st res text :
  exists st' out, convert_from st res text = Some (st', out).
Proof.
  unfold convert_from.
  destruct (for_matches_total text (matchAll text) (mkScan st res 0)) as [sc H].
  rewrite H. eauto.
Qed.

Lemma apply_codes_total p st : exists st', apply_codes p st = Some st'.
Proof. apply sgr_loop_total. lia. Qed.

(** X1: when a text is cut right before an escape sequence, the output is
    the output of the first part followed by the output of the second part
    converted from the state that the codes of the sequence give to the state
    the first part left. *)
Theorem ansiToHtml_cut_before_sequence a p b :
  Spec.all_chars is_param_char p = true ->
  exists st1 oa st2 st3 ob,
    convert_from empty_state "" a = Some (st1, oa)
    /\ ansiToHtml a = Some oa
    /\ apply_codes p st1 = Some st2
    /\ convert_from st2 "" b = Some (st3, ob)
    /\ ansiToHtml (a ++ sgr p ++ b) = Some (oa ++ ob).
Proof.
  intros Hp.
  destruct (convert_from_total empty_state "" a) as (st1 & oa & Ha).
  destruct (apply_codes_total p st1) as (st2 & Hc).
  destruct (convert_from_total st2 "" b) as (st3 & ob & Hb).
  exists st1, oa, st2, st3, ob.
  split; [exact Ha|]. split; [now rewrite ansiToHtml_convert_from, Ha|].
  split; [exact Hc|]. split; [exact Hb|].
  rewrite ansiToHtml_convert_from, (convert_from_cut a p b _ _ Hp), Ha, Hc.
  rewrite convert_from_result_prefix, Hb. reflexivity.
Qed.

Lemma ansiToHtml_cut_before_sequence_witness :
  Spec.all_chars is_param_char "1" = true
  /\ ansiToHtml (sgr "31" ++ "a") = Some ("<span style=" ++ dquote
                                   ++ "color:#cd0000" ++ dquote ++ ">a</span>")
  /\ ansiToHtml ((sgr "31" ++ "a") ++ sgr "1" ++ "b")
     = Some (("<span style=" ++ dquote ++ "color:#cd0000" ++ dquote
                ++ ">a</span>")
             ++ ("<span style=" ++ dquote ++ "color:#cd0000;font-weight:bold"
                   ++ dquote ++ ">b</span>")).
Proof.
  split; [reflexivity|]. split; [reflexivity|].
  destruct (ansiToHtml_cut_before_sequence (sgr "31" ++ "a") "1" "b" eq_refl)
    as (st1 & oa & st2 & st3 & ob & H1 & H2 & H3 & H4 & H5).
  vm_compute in H1. injection H1 as <- <-.
  vm_compute in H3. injection H3 as <-.
  vm_compute in H4. injection H4 as <- <-.
  exact H5.
Defined.

(** X2: a reset sequence, ESC[0m or ESC[m, makes what follows independent
    of what came before: the output of a text cut by it is the output of the
    first part followed by the output of the second part, each converted on
    its own. *)
Theorem reset_separates_the_parts a b :
  exists oa ob,
    ansiToHtml a = Some oa /\ ansiToHtml b = Some ob
    /\ ansiToHtml (a ++ sgr "0" ++ b) = Some (oa ++ ob)
    /\ ansiToHtml (a ++ sgr "" ++ b) = Some (oa ++ ob).
Proof.
  destruct (convert_from_total empty_state "" a) as (st1 & oa & Ha).
  destruct (convert_from_total empty_state "" b) as (st3 & ob & Hb).
  exists oa, ob.
  rewrite !ansiToHtml_convert_from, Ha, Hb.
  rewrite (convert_from_cut a "0" b _ _ eq_refl), Ha.
  rewrite (convert_from_cut a "" b _ _ eq_refl), Ha.
  change (apply_codes "0" st1) with (Some empty_state).
  change (apply_codes "" st1) with (Some empty_state).
  cbv beta iota.
  rewrite convert_from_result_prefix, Hb. auto.
Qed.

(** ** The text under the markers *)

Lemma escapeHtml_app a b : escapeHtml (a ++ b) = escapeHtml a ++ escapeHtml b.
Proof. unfold escapeHtml. now rewrite !replace_all_app. Qed.

Lemma strip_tags_no_lt t r :
  Spec.all_chars Spec.not_lt t = true ->
  strip_tags false (t ++ r) = t ++ strip_tags false r.
Proof.
  induction t as [|c t IH]; [reflexivity|]. simpl.
  intros H. apply andb_true_iff in H as [Hc Ht].
  apply negb_true_iff in Hc. rewrite Hc, (IH Ht). reflexivity.
Qed.

Lemma strip_tags_inside x r :
  Spec.all_chars (fun c => negb (c =? ">")%char) x = true ->
  strip_tags true (x ++ String ">" r) = strip_tags false r.
Proof.
  induction x as [|c x IH]; [reflexivity|]. simpl.
  intros H. apply andb_true_iff in H as [Hc Hx].
  apply negb_true_iff in Hc. rewrite Hc. simpl. apply IH, Hx.
Qed.

Lemma attr_not_gt s :
  Spec.all_chars Spec.attr_char s = true ->
  Spec.all_chars (fun c => negb (c =? ">")%char) s = true.
Proof.
  apply all_chars_weaken. intros c. unfold Spec.attr_char.
  destruct (c =? ">")%char; simpl; rewrite ?orb_true_r; simpl; congruence.
Qed.

Lemma strip_tags_span decls raw rest :
  forallb Spec.declaration decls = true ->
  strip_tags false
    (("<span style=" ++ dquote ++ JS.join ";" decls ++ dquote ++ ">")
       ++ escapeHtml raw ++ "</span>" ++ rest)
  = escapeHtml raw ++ strip_tags false rest.
Proof.
  intros Hd.
  replace (("<span style=" ++ dquote ++ JS.join ";" decls ++ dquote ++ ">")
             ++ escapeHtml raw ++ "</span>" ++ rest)
    with (String "<" (("span style=" ++ dquote ++ JS.join ";" decls ++ dquote)
                        ++ String ">" (escapeHtml raw ++ "</span>" ++ rest)))
    by (cbn [append dquote]; rewrite !append_assoc; reflexivity).
  cbn [strip_tags Ascii.eqb Bool.eqb]. rewrite strip_tags_inside.
  - rewrite strip_tags_no_lt
      by apply not_angle_not_lt, escapeHtml_not_angle.
    reflexivity.
  - rewrite !all_chars_app, (attr_not_gt _ (join_attr decls Hd)). reflexivity.
Qed.

Lemma strip_tags_markup_app a b :
  Spec.Markup a ->
  strip_tags false (a ++ b) = strip_tags false a ++ strip_tags false b.
Proof.
  induction 1 as [|raw rest Ha IH|decls raw rest Hn Hd Ha IH].
  - reflexivity.
  - rewrite append_assoc.
    rewrite (strip_tags_no_lt _ (rest ++ b)), (strip_tags_no_lt _ rest)
      by apply not_angle_not_lt, escapeHtml_not_angle.
    now rewrite IH, append_assoc.
  - rewrite (append_assoc
               ("<span style=" ++ dquote ++ JS.join ";" decls ++ dquote ++ ">")),
      (append_assoc (escapeHtml raw)), (append_assoc "</span>").
    rewrite (strip_tags_span _ _ (rest ++ b)), (strip_tags_span _ _ rest)
      by exact Hd.
    now rewrite IH, append_assoc.
Qed.

Lemma strip_tags_append_text st res piece :
  clean_state st = true -> Spec.Markup res ->
  strip_tags false (append_text st res piece)
  = strip_tags false res ++ escapeHtml piece.
Proof.
  intros Hc Hr. unfold append_text.
  destruct (String.eqb_spec piece "") as [->|_].
  - now rewrite append_nil_r.
  - destruct (hasStyle st) eqn:Hs; rewrite strip_tags_markup_app by exact Hr;
      f_equal.
    + rewrite (openSpan_marker st (hasStyle_style_list st Hs)).
      change "</span>" with ("</span>" ++ "").
      rewrite strip_tags_span by (apply style_list_declarations, Hc).
      apply append_nil_r.
    + rewrite <- (append_nil_r (escapeHtml piece)) at 1.
      rewrite strip_tags_no_lt
        by apply not_angle_not_lt, escapeHtml_not_angle.
      apply append_nil_r.
Qed.

Lemma for_matches_literal text ms :
  forall sc sc',
    clean_state (state_of sc) = true -> Spec.Markup (result_of sc) ->
    for_matches text ms sc = Some sc' ->
    strip_tags false
      (append_text (state_of sc') (result_of sc')
                   (JS.slice_from text (lastIndex_of sc')))
    = strip_tags false (result_of sc)
        ++ escapeHtml (literal_pieces text ms (lastIndex_of sc)).
Proof.
  induction ms as [|m ms IH]; intros sc sc' Hc Hr; cbn [for_matches].
  - intros [= <-]. apply strip_tags_append_text; assumption.
  - unfold on_match.
    destruct (sgr_loop _ (parse_codes (group1 m)) 0 (state_of sc))
      as [st|] eqn:Hl; [|discriminate].
    intros H. apply IH in H; cbn [state_of result_of lastIndex_of] in *.
    + rewrite H, strip_tags_append_text by assumption.
      cbn [literal_pieces]. now rewrite escapeHtml_app, append_assoc.
    + exact (sgr_loop_clean _ _ _ _ _ Hc Hl).
    + apply append_text_markup; assumption.
Qed.

Lemma substring_snoc pre c rest :
  forall last, (last <= String.length pre)%nat ->
    substring last (S (String.length pre - last)) (pre ++ String c rest)
    = substring last (String.length pre - last) (pre ++ String c rest)
        ++ String c "".
Proof.
  induction pre as [|x pre IH]; intros last H; simpl in H.
  - replace last with 0%nat by lia. simpl. now rewrite !substring_zero.
  - destruct last as [|last].
    + specialize (IH 0%nat (Nat.le_0_l _)). rewrite Nat.sub_0_r in IH.
      cbn [String.length Nat.sub append]. simpl substring. now rewrite IH.
    + cbn [String.length Nat.sub append]. simpl substring. apply IH. lia.
Qed.

Lemma literal_pieces_remove s :
  forall pre skip last,
    (skip = 0 -> last <= String.length pre)%nat ->
    (skip <> 0 -> last = String.length pre + skip)%nat ->
    literal_pieces (pre ++ s) (matchAll_from s (String.length pre) skip) last
    = substring last (String.length pre - last) (pre ++ s)
        ++ remove_sequences_from s skip.
Proof.
  induction s as [|c s IH]; intros pre skip last H0 H1.
  - cbn [matchAll_from literal_pieces remove_sequences_from].
    unfold JS.slice_from. rewrite !append_nil_r. reflexivity.
  - assert (E : pre ++ String c s = (pre ++ String c "") ++ s)
      by now rewrite append_assoc.
    assert (L : String.length (pre ++ String c "") = S (String.length pre))
      by (rewrite length_append; simpl; lia).
    destruct skip as [|k].
    + specialize (H0 eq_refl). rewrite matchAll_from_try.
      cbn [remove_sequences_from].
      destruct (exec_at (String c s)) as [g|].
      * cbn [literal_pieces index whole_length]. unfold JS.slice. f_equal.
        rewrite E, <- L.
        rewrite (IH (pre ++ String c "") (2 + String.length g)%nat) by lia.
        replace (String.length (pre ++ String c "")
                 - (String.length pre + (3 + String.length g)))%nat
          with 0%nat by lia.
        now rewrite substring_zero.
      * rewrite E, <- L at 1.
        rewrite (IH (pre ++ String c "") 0%nat last) by lia.
        rewrite L, <- E.
        replace (S (String.length pre) - last)%nat
          with (S (String.length pre - last)) by lia.
        rewrite substring_snoc by exact H0.
        now rewrite append_assoc.
    + specialize (H1 (Nat.neq_succ_0 k)). cbn [matchAll_from remove_sequences_from].
      rewrite E, <- L.
      rewrite (IH (pre ++ String c "") k last) by lia.
      rewrite L, <- E.
      replace (S (String.length pre) - last)%nat with 0%nat by lia.
      replace (String.length pre - last)%nat with 0%nat by lia.
      reflexivity.
Qed.

(** X3: the output with its markers cut out is the escaped input with its
    escape sequences removed: the converter neither loses, nor repeats, nor
    reorders literal text. *)
Theorem markers_wrap_the_literal_text text :
  exists out,
    ansiToHtml text = Some out
    /\ strip_tags false out = escapeHtml (remove_sequences text).
Proof.
  unfold ansiToHtml.
  destruct (for_matches_total text (matchAll text) (mkScan empty_state "" 0))
    as [sc H].
  rewrite H. eexists. split; [reflexivity|].
  rewrite (for_matches_literal text (matchAll text)
             (mkScan empty_state "" 0) sc eq_refl Spec.Markup_end H).
  cbn [result_of lastIndex_of strip_tags append]. f_equal.
  pose proof (literal_pieces_remove text "" 0 0 (fun _ => Nat.le_0_l _)
                (fun H => False_ind _ (H eq_refl))) as P.
  cbn [append String.length Nat.sub] in P. rewrite substring_zero in P.
  exact P.
Qed.

(** ** The markers of several lines *)

Lemma occurrences_markup_app p a t :
  In p ["<span"; "</span>"; "<br>"] ->
  Spec.Markup a ->
  Spec.occurrences p (a ++ t)
  = (Spec.occurrences p a + Spec.occurrences p t)%nat.
Proof.
  intros Hp Ha.
  induction Ha as [|raw rest Ha IH|decls raw rest Hn Hd Ha IH].
  - reflexivity.
  - rewrite append_assoc.
    destruct Hp as [<-|[<-|[<-|[]]]];
      rewrite (occurrences_no_lt _ _ (rest ++ t)),
        (occurrences_no_lt _ _ rest)
        by apply not_angle_not_lt, escapeHtml_not_angle;
      exact IH.
  - rewrite (append_assoc
               ("<span style=" ++ dquote ++ JS.join ";" decls ++ dquote ++ ">")),
      (append_assoc (escapeHtml raw)), (append_assoc "</span>").
    rewrite !span_piece_cut.
    set (inside := "span style=" ++ dquote ++ JS.join ";" decls ++ dquote
                                 ++ ">" ++ escapeHtml raw).
    assert (Hi : Spec.all_chars Spec.not_lt inside = true)
      by (apply span_piece_inside; exact Hd).
    assert (Hsix : Spec.all_chars Spec.not_lt "/span>" = true) by reflexivity.
    destruct Hp as [<-|[<-|[<-|[]]]]; cbn [Spec.occurrences];
      rewrite !(occurrences_no_lt _ inside) by exact Hi;
      cbn [Spec.occurrences];
      rewrite !(occurrences_no_lt _ "/span>") by exact Hsix;
      rewrite IH by (simpl; auto); unfold inside; simpl;
      rewrite ?prefix_nil; lia.
Qed.

Lemma every_lt_no_break s :
  Spec.every_lt_is_marker s = true -> Spec.occurrences "<br>" s = 0%nat.
Proof.
  induction s as [|c s IH]; [reflexivity|].
  intros H. pose proof H as H'.
  cbn [Spec.every_lt_is_marker] in H'. apply andb_true_iff in H' as [_ Hs].
  cbn [Spec.occurrences]. rewrite (IH Hs), Nat.add_0_r.
  destruct (prefix "<br>" (String c s)) eqn:P; [|reflexivity].
  apply prefix_cons_inv in P as (s1 & E1 & P). injection E1 as -> ->.
  apply prefix_cons_inv in P as (s2 & -> & P).
  simpl in H. discriminate H.
Qed.

Lemma every_lt_tag_of_marker s :
  Spec.every_lt_is_marker s = true -> every_lt_is_tag s = true.
Proof.
  induction s as [|c s IH]; [reflexivity|].
  cbn [Spec.every_lt_is_marker every_lt_is_tag].
  intros H. apply andb_true_iff in H as [Hc Hs].
  rewrite (IH Hs), andb_true_r.
  destruct (c =? "<")%char; [|reflexivity]. now rewrite Hc.
Qed.

Lemma every_lt_tag_app a b :
  every_lt_is_tag a = true -> every_lt_is_tag b = true ->
  every_lt_is_tag (a ++ b) = true.
Proof.
  intros Ha Hb. induction a as [|c a IH]; [exact Hb|].
  cbn [every_lt_is_tag] in Ha. apply andb_true_iff in Ha as [Hc Ha].
  change (String c a ++ b) with (String c (a ++ b)).
  cbn [every_lt_is_tag]. rewrite (IH Ha), andb_true_r.
  destruct (c =? "<")%char; [|reflexivity].
  apply orb_true_iff in Hc as [Hc|Hc];
    [apply orb_true_iff in Hc as [Hc|Hc]|];
    apply (prefix_app_r _ _ b) in Hc;
    change (String c a ++ b) with (String c (a ++ b)) in Hc;
    rewrite Hc, ?orb_true_r; reflexivity.
Qed.

Lemma map_lines_markup lines :
  exists outs, map_lines lines = Some outs
               /\ List.length outs = List.length lines
               /\ Forall Spec.Markup outs.
Proof.
  induction lines as [|l lines (outs & HM & HL & HF)]; simpl.
  - exists []. repeat split. constructor.
  - destruct (ansiToHtml_markup l) as (o & Ho & Hm). rewrite Ho, HM.
    exists (o :: outs). repeat split; [simpl; now rewrite HL|].
    constructor; assumption.
Qed.

Lemma join_break_counts outs :
  Forall Spec.Markup outs ->
  Spec.occurrences "<br>" (JS.join "<br>" outs) = (List.length outs - 1)%nat
  /\ Spec.occurrences "<span" (JS.join "<br>" outs)
     = Spec.occurrences "</span>" (JS.join "<br>" outs)
  /\ every_lt_is_tag (JS.join "<br>" outs) = true
  /\ Spec.every_amp_is_entity (JS.join "<br>" outs) = true.
Proof.
  induction 1 as [|o outs Ho Hs (IH1 & IH2 & IH3 & IH4)].
  - repeat split.
  - pose proof (Markup_every_lt o Ho) as Hl.
    destruct outs as [|o' outs].
    + cbn [JS.join List.length]. repeat split.
      * now apply every_lt_no_break.
      * now apply Markup_balanced.
      * now apply every_lt_tag_of_marker.
      * now apply Markup_every_amp.
    + change (JS.join "<br>" (o :: o' :: outs))
        with (o ++ "<br>" ++ JS.join "<br>" (o' :: outs)).
      set (J := JS.join "<br>" (o' :: outs)) in *.
      rewrite (occurrences_markup_app "<br>" o),
        (occurrences_markup_app "<span" o),
        (occurrences_markup_app "</span>" o) by (simpl; auto).
      rewrite (every_lt_no_break o Hl), (Markup_balanced o Ho).
      repeat split.
      * simpl. rewrite prefix_nil, IH1. simpl. lia.
      * simpl. rewrite IH2. reflexivity.
      * apply every_lt_tag_app; [now apply every_lt_tag_of_marker|].
        apply every_lt_tag_app; [reflexivity | exact IH3].
      * apply every_amp_app; [now apply Markup_every_amp|].
        apply every_amp_app; [reflexivity | exact IH4].
Qed.

(** X4: in the output for a sequence of lines the line-break marker occurs
    once less than there are lines, whatever the lines contain; the opening
    and closing markers of style scopes are equal in number, every [<]
    opens one of these markers or a line break, and every [&] an entity. *)
Theorem ansiLinesToHtml_markers lines :
  exists out,
    ansiLinesToHtml lines = Some out
    /\ Spec.occurrences "<br>" out = (List.length lines - 1)%nat
    /\ Spec.occurrences "<span" out = Spec.occurrences "</span>" out
    /\ every_lt_is_tag out = true
    /\ Spec.every_amp_is_entity out = true.
Proof.
  destruct (map_lines_markup lines) as (outs & HM & HL & HF).
  unfold ansiLinesToHtml. rewrite HM. eexists. split; [reflexivity|].
  rewrite <- HL. apply join_break_counts, HF.
Qed.

(** ** More on escaping *)

Lemma entity_of_cases c :
  (c = "&"%char /\ Spec.entity_of c = "&amp;")
  \/ (c = "<"%char /\ Spec.entity_of c = "&lt;")
  \/ (c = ">"%char /\ Spec.entity_of c = "&gt;")
  \/ (c <> "&"%char /\ Spec.entity_of c = String c "").
Proof.
  unfold Spec.entity_of.
  destruct (Ascii.eqb_spec c "&"); [auto|].
  destruct (Ascii.eqb_spec c "<"); [auto|].
  destruct (Ascii.eqb_spec c ">"); auto.
Qed.

Lemma encode_injective s :
  forall t, Spec.encode s = Spec.encode t -> s = t.
Proof.
  induction s as [|c s IH]; intros [|d t] H.
  - reflexivity.
  - cbn [Spec.encode] in H.
    destruct (entity_of_cases d) as [[_ E]|[[_ E]|[[_ E]|[_ E]]]];
      rewrite E in H; discriminate H.
  - cbn [Spec.encode] in H.
    destruct (entity_of_cases c) as [[_ E]|[[_ E]|[[_ E]|[_ E]]]];
      rewrite E in H; discriminate H.
  - cbn [Spec.encode] in H.
    destruct (entity_of_cases c) as [[-> E]|[[-> E]|[[-> E]|[Hc E]]]];
      destruct (entity_of_cases d) as [[-> F]|[[-> F]|[[-> F]|[Hd F]]]];
      try rewrite E in H; try rewrite F in H; simpl in H;
      try discriminate H;
      try (injection H as H; f_equal; apply IH; exact H);
      try (injection H as <- H; congruence);
      try (injection H as -> H; congruence).
    injection H as -> H. f_equal. apply IH, H.
Qed.

(** X5: the escaping of literal text loses nothing: two texts with the same
    escaped form are the same text; and it works piece by piece: the escaped
    form of a concatenation is the concatenation of the escaped forms. *)
Theorem escapeHtml_injective_and_piecewise :
  (forall s t, escapeHtml s = escapeHtml t -> s = t)
  /\ (forall a b, escapeHtml (a ++ b) = escapeHtml a ++ escapeHtml b).
Proof.
  split.
  - intros s t H. rewrite !escapeHtml_encode in H.
    exact (encode_injective s t H).
  - exact escapeHtml_app.
Qed.

Lemma escapeHtml_injective_and_piecewise_witness :
  escapeHtml "a<b" = escapeHtml ("a" ++ "<b") /\ "a<b" = "a" ++ "<b".
Proof.
  split; [reflexivity|].
  apply (proj1 escapeHtml_injective_and_piecewise). reflexivity.
Defined.

(** ** What one code can change *)

(** X6: a code other than 0 changes only the fields of its own group: bold
    is touched by 1 and 22 only, dim by 2 and 22, italic by 3 and 23,
    underline by 4 and 24, the foreground by 30 to 39 and 90 to 97, the
    background by 40 to 49 and 100 to 107. *)
Theorem interpret_frame codes i code st :
  code <> 0 ->
  (code <> 1 -> code <> 22 -> bold (fst (interpret codes i code st)) = bold st)
  /\ (code <> 2 -> code <> 22 ->
      dim (fst (interpret codes i code st)) = dim st)
  /\ (code <> 3 -> code <> 23 ->
      italic (fst (interpret codes i code st)) = italic st)
  /\ (code <> 4 -> code <> 24 ->
      underline (fst (interpret codes i code st)) = underline st)
  /\ (~ 30 <= code <= 39 -> ~ 90 <= code <= 97 ->
      fg (fst (interpret codes i code st)) = fg st)
  /\ (~ 40 <= code <= 49 -> ~ 100 <= code <= 107 ->
      bg (fst (interpret codes i code st)) = bg st).
Proof.
  intros H0. unfold interpret, extended.
  destruct (code =? 0) eqn:E0; [apply Z.eqb_eq in E0; contradiction|].
  case_tests; tests_to_props; cbn [fst]; repeat split; intros;
    try reflexivity; try lia.
Qed.

Lemma interpret_frame_witness :
  31 <> 0
  /\ bold (fst (interpret [31] 0 31 (mkState None None (Some true) None None None)))
     = Some true.
Proof.
  split; [discriminate|].
  apply (proj1 (interpret_frame [31] 0 31
                  (mkState None None (Some true) None None None)
                  ltac:(discriminate))); discriminate.
Defined.

Lemma extended_indexed set codes i st n :
  nth_error codes (i + 1) = Some 5 ->
  nth_error codes (i + 2) = Some n ->
  extended set codes i st = (set st (Some (ansi256ToHex n)), (i + 2)%nat).
Proof.
  intros H1 H2. unfold extended, JS.at_index. rewrite H1, H2.
  rewrite (nth_error_nth _ _ 0 H2). reflexivity.
Qed.

(** X7: the indexed form agrees with the named codes on the sixteen palette
    colours: 38;5;N sets the foreground that 30+N sets for N from 0 to 7
    and that 90+(N-8) sets for N from 8 to 15, and 48;5;N sets the
    background that 40+N and 100+(N-8) set. *)
Theorem indexed_agrees_with_named codes i st n :
  nth_error codes (i + 1) = Some 5 ->
  nth_error codes (i + 2) = Some n ->
  (0 <= n <= 7 ->
   fst (interpret codes i 38 st) = fst (interpret codes i (30 + n) st)
   /\ fst (interpret codes i 48 st) = fst (interpret codes i (40 + n) st))
  /\ (8 <= n <= 15 ->
      fst (interpret codes i 38 st) = fst (interpret codes i (90 + (n - 8)) st)
      /\ fst (interpret codes i 48 st)
         = fst (interpret codes i (100 + (n - 8)) st)).
Proof.
  intros H1 H2.
  assert (E38 : interpret codes i 38 st
                = (set_fg st (Some (ansi256ToHex n)), (i + 2)%nat))
    by (unfold interpret; simpl; now apply extended_indexed).
  assert (E48 : interpret codes i 48 st
                = (set_bg st (Some (ansi256ToHex n)), (i + 2)%nat))
    by (unfold interpret; simpl; now apply extended_indexed).
  rewrite E38, E48. split; intros Hn.
  - assert (C : n = 0 \/ n = 1 \/ n = 2 \/ n = 3 \/ n = 4 \/ n = 5 \/ n = 6
                \/ n = 7) by lia.
    repeat (destruct C as [->|C]; [split; reflexivity|]). subst. split; reflexivity.
  - assert (C : n = 8 \/ n = 9 \/ n = 10 \/ n = 11 \/ n = 12 \/ n = 13
                \/ n = 14 \/ n = 15) by lia.
    repeat (destruct C as [->|C]; [split; reflexivity|]). subst. split; reflexivity.
Qed.

Lemma indexed_agrees_with_named_witness :
  nth_error [38; 5; 9] (0 + 1) = Some 5
  /\ nth_error [38; 5; 9] (0 + 2) = Some 9
  /\ 8 <= 9 <= 15
  /\ fst (interpret [38; 5; 9] 0 38 empty_state)
     = fst (interpret [38; 5; 9] 0 (90 + (9 - 8)) empty_state).
Proof.
  split; [reflexivity|]. split; [reflexivity|]. split; [lia|].
  apply (proj2 (indexed_agrees_with_named [38; 5; 9] 0 empty_state 9
                  eq_refl eq_refl)). lia.
Defined.

(** ** A sequence sent twice *)

Lemma interpret_rel codes i code a a' s s' :
  runs_rel a a' s s' ->
  runs_rel a a' (fst (interpret codes i code s)) (fst (interpret codes i code s'))
  /\ snd (interpret codes i code s) = snd (interpret codes i code s').
Proof.
  intros (Hf & Hb & Ho & Hi & Hu & Hd).
  unfold interpret, extended. case_tests; cbn [fst snd];
    (split; [|reflexivity]);
    unfold runs_rel; cbn [fg bg bold italic underline dim set_fg set_bg
      set_bold set_italic set_underline set_dim empty_state];
    repeat split; try assumption; left; reflexivity.
Qed.

Lemma sgr_loop_rel codes a a' fuel :
  forall i s s' o o',
    runs_rel a a' s s' ->
    sgr_loop fuel codes i s = Some o -> sgr_loop fuel codes i s' = Some o' ->
    runs_rel a a' o o'.
Proof.
  induction fuel as [|fuel IH]; intros i s s' o o' R; simpl;
    destruct (JS.at_index codes i) as [code|];
    try discriminate; try (intros [= <-] [= <-]; exact R).
  destruct (interpret_rel codes i code a a' s s' R) as [R' E].
  destruct (interpret codes i code s) as [s1 i1].
  destruct (interpret codes i code s') as [s1' i1'].
  simpl in R', E. subst i1'. apply IH. exact R'.
Qed.

Lemma apply_codes_idempotent p st st1 :
  apply_codes p st = Some st1 -> apply_codes p st1 = Some st1.
Proof.
  intros H. destruct (apply_codes_total p st1) as [st2 H2]. rewrite H2. f_equal.
  assert (R : runs_rel st st1 st st1)
    by (unfold runs_rel, field_rel; repeat split; right; split; reflexivity).
  pose proof (sgr_loop_rel _ st st1 _ 0 st st1 st1 st2 R H H2)
    as (Hf & Hb & Ho & Hi & Hu & Hd).
  destruct st1, st2. unfold field_rel in *. simpl in *.
  f_equal; intuition congruence.
Qed.

Lemma convert_from_empty st res : convert_from st res "" = Some (st, res).
Proof. reflexivity. Qed.

(** X8: a sequence sent twice in a row has the effect of the sequence sent
    once: the codes of a sequence, applied to the state they gave, give it
    again, and the output with the sequence doubled is the output with the
    sequence alone. *)
Theorem repeated_sequence_is_idempotent :
  (forall p st st1, apply_codes p st = Some st1 -> apply_codes p st1 = Some st1)
  /\ (forall a p b,
        Spec.all_chars is_param_char p = true ->
        ansiToHtml (a ++ sgr p ++ sgr p ++ b) = ansiToHtml (a ++ sgr p ++ b)).
Proof.
  split; [exact apply_codes_idempotent|].
  intros a p b Hp. rewrite !ansiToHtml_convert_from.
  rewrite (convert_from_cut a p (sgr p ++ b) _ _ Hp),
    (convert_from_cut a p b _ _ Hp).
  destruct (convert_from empty_state "" a) as [[st1 res1]|]; [|reflexivity].
  destruct (apply_codes p st1) as [st2|] eqn:H; [|reflexivity].
  change (sgr p ++ b) with ("" ++ sgr p ++ b).
  rewrite (convert_from_cut "" p b _ _ Hp), convert_from_empty.
  rewrite (apply_codes_idempotent p st1 st2 H). reflexivity.
Qed.

Lemma repeated_sequence_is_idempotent_witness :
  apply_codes "1;31" empty_state
  = Some (mkState (Some "#cd0000") None (Some true) None None None)
  /\ apply_codes "1;31" (mkState (Some "#cd0000") None (Some true) None None None)
     = Some (mkState (Some "#cd0000") None (Some true) None None None)
  /\ Spec.all_chars is_param_char "1;31" = true
  /\ ansiToHtml ("a" ++ sgr "1;31" ++ sgr "1;31" ++ "b")
     = ansiToHtml ("a" ++ sgr "1;31" ++ "b").
Proof.
  split; [reflexivity|]. split; [|split; [reflexivity|]].
  - apply (proj1 repeated_sequence_is_idempotent "1;31" empty_state).
    reflexivity.
  - apply (proj2 repeated_sequence_is_idempotent). reflexivity.
Defined.

(** ** Parsing a colour *)

Example parseColor_examples :
  Index.parseColor "#343541" = Some (Index.mkRGB 52 53 65)
  /\ Index.parseColor "#FFaa00" = Some (Index.mkRGB 255 170 0)
  /\ Index.parseColor "rgb( 24,30 , 007 )" = Some (Index.mkRGB 24 30 7)
  /\ Index.parseColor "#fff" = None
  /\ Index.parseColor "RGB(1,2,3)" = None
  /\ Index.parseColor "rgb(1,2,3) " = None
  /\ Index.parseColor "rgb(1.5,2,3)" = None
  /\ Index.parseColor "rgb(-1,2,3)" = None
  /\ Index.parseColor "rgba(1,2,3,0)" = None
  /\ Index.parseColor "" = None.
Proof. repeat split. Qed.

Lemma hex_value_bound c :
  Index.is_hex c = true -> 0 <= Index.hex_value c <= 15.
Proof.
  unfold Index.is_hex, Index.hex_value, JS.is_digit.
  destruct (48 <=? nat_of_ascii c)%nat eqn:E1;
    destruct (nat_of_ascii c <=? 57)%nat eqn:E2;
    destruct (97 <=? nat_of_ascii c)%nat eqn:E3;
    destruct (nat_of_ascii c <=? 102)%nat eqn:E4;
    destruct (65 <=? nat_of_ascii c)%nat eqn:E5;
    destruct (nat_of_ascii c <=? 70)%nat eqn:E6;
    simpl; try discriminate; intros _;
    rewrite ?Nat.leb_le, ?Nat.leb_gt in *; lia.
Qed.

Lemma parseInt16_pair c1 c2 :
  Index.is_hex c1 = true -> Index.is_hex c2 = true ->
  0 <= Index.parseInt16 (String c1 (String c2 "")) <= 255.
Proof.
  intros H1 H2. unfold Index.parseInt16. cbn [Index.parseInt16_from].
  rewrite H1, H2.
  pose proof (hex_value_bound c1 H1). pose proof (hex_value_bound c2 H2). lia.
Qed.

Lemma digit_value_bound c :
  JS.is_digit c = true -> 0 <= JS.digit_value c <= 9.
Proof.
  unfold JS.is_digit, JS.digit_value. intros H.
  apply andb_true_iff in H as [H1 H2].
  rewrite Nat.leb_le in H1, H2. lia.
Qed.

Lemma parseInt_from_nonneg s :
  forall acc, 0 <= acc -> 0 <= JS.parseInt_from acc s.
Proof.
  induction s as [|c s IH]; intros acc H; cbn [JS.parseInt_from]; [exact H|].
  destruct (JS.is_digit c) eqn:E; [|exact H].
  apply IH. pose proof (digit_value_bound c E). lia.
Qed.

Lemma match_hex_shape color h1 h2 h3 :
  Index.match_hex color = Some (h1, h2, h3) ->
  exists c1 c2 c3 c4 c5 c6,
    color = String "#" (String c1 (String c2 (String c3 (String c4
              (String c5 (String c6 ""))))))
    /\ h1 = String c1 (String c2 "") /\ h2 = String c3 (String c4 "")
    /\ h3 = String c5 (String c6 "")
    /\ Index.is_hex c1 = true /\ Index.is_hex c2 = true
    /\ Index.is_hex c3 = true /\ Index.is_hex c4 = true
    /\ Index.is_hex c5 = true /\ Index.is_hex c6 = true.
Proof.
  destruct color as [|c0 rest]; simpl; [discriminate|].
  destruct (Ascii.eqb_spec c0 "#") as [->|]; [|discriminate].
  destruct rest as [|c1 [|c2 [|c3 [|c4 [|c5 [|c6 [|]]]]]]]; try discriminate.
  destruct (Index.is_hex c1) eqn:E1, (Index.is_hex c2) eqn:E2,
    (Index.is_hex c3) eqn:E3, (Index.is_hex c4) eqn:E4,
    (Index.is_hex c5) eqn:E5, (Index.is_hex c6) eqn:E6;
    simpl; try discriminate.
  intros [= <- <- <-]. exists c1, c2, c3, c4, c5, c6.
  repeat split; assumption.
Qed.

Lemma match_rgb_prefix color d :
  Index.match_rgb color = Some d -> prefix "rgb" color = true.
Proof.
  destruct color as [|c0 [|c1 [|c2 s0]]]; simpl; try discriminate.
  destruct (Ascii.eqb_spec c0 "r") as [->|]; [|discriminate].
  destruct (Ascii.eqb_spec c1 "g") as [->|]; [|discriminate].
  destruct (Ascii.eqb_spec c2 "b") as [->|]; [|discriminate].
  intros _. simpl. apply prefix_nil.
Qed.

Lemma skip_spaces_inv s :
  exists w, s = w ++ Index.skip_spaces s
            /\ Spec.all_chars Index.is_space w = true.
Proof.
  induction s as [|c s (w & E & Hw)]; [exists ""; split; reflexivity|].
  simpl. destruct (Index.is_space c) eqn:Hc.
  - exists (String c w). split; [simpl; now rewrite <- E|].
    simpl. now rewrite Hc, Hw.
  - exists "". split; reflexivity.
Qed.

Lemma span_digits_inv s :
  s = fst (Index.span_digits s) ++ snd (Index.span_digits s)
  /\ Spec.all_chars JS.is_digit (fst (Index.span_digits s)) = true.
Proof.
  induction s as [|c s [E Hd]]; [split; reflexivity|].
  simpl. destruct (JS.is_digit c) eqn:Hc; [|split; reflexivity].
  destruct (Index.span_digits s) as [run after]. simpl in E, Hd |- *.
  split; [now rewrite <- E | now rewrite Hc, Hd].
Qed.

Lemma digits1_inv s d rest :
  Index.digits1 s = Some (d, rest) ->
  s = d ++ rest /\ Spec.all_chars JS.is_digit d = true /\ d <> "".
Proof.
  unfold Index.digits1. destruct (span_digits_inv s) as [E Hd].
  destruct (Index.span_digits s) as [run after]. simpl in E, Hd.
  destruct (String.eqb_spec run "") as [|Hn]; [discriminate|].
  intros [= <- <-]. auto.
Qed.

Lemma expect_inv c s rest : Index.expect c s = Some rest -> s = String c rest.
Proof.
  destruct s as [|x s]; simpl; [discriminate|].
  destruct (Ascii.eqb_spec x c) as [->|]; [|discriminate].
  now intros [= <-].
Qed.

Lemma match_rgb_shape color d1 d2 d3 :
  Index.match_rgb color = Some (d1, d2, d3) ->
  exists w1 w2 w3 w4 w5 w6 w7,
    color = "rgb" ++ w1 ++ "(" ++ w2 ++ d1 ++ w3 ++ "," ++ w4 ++ d2 ++ w5
                  ++ "," ++ w6 ++ d3 ++ w7 ++ ")"
    /\ Forall (fun w => Spec.all_chars Index.is_space w = true)
              [w1; w2; w3; w4; w5; w6; w7]
    /\ Forall (fun d => Spec.all_chars JS.is_digit d = true /\ d <> "")
              [d1; d2; d3].
Proof.
  destruct color as [|c0 [|c1 [|c2 s0]]]; simpl; try discriminate.
  destruct (Ascii.eqb_spec c0 "r") as [->|]; [|discriminate].
  destruct (Ascii.eqb_spec c1 "g") as [->|]; [|discriminate].
  destruct (Ascii.eqb_spec c2 "b") as [->|]; [|discriminate].
  cbn [andb].
  destruct (skip_spaces_inv s0) as (w1 & E0 & H1).
  destruct (Index.expect "(" (Index.skip_spaces s0)) as [s1|] eqn:X1;
    [|discriminate]. apply expect_inv in X1.
  destruct (skip_spaces_inv s1) as (w2 & E1 & H2).
  destruct (Index.digits1 (Index.skip_spaces s1)) as [[e1 s2]|] eqn:D1;
    [|discriminate]. apply digits1_inv in D1 as (F1 & G1 & N1).
  destruct (skip_spaces_inv s2) as (w3 & E2 & H3).
  destruct (Index.expect "," (Index.skip_spaces s2)) as [s3|] eqn:X2;
    [|discriminate]. apply expect_inv in X2.
  destruct (skip_spaces_inv s3) as (w4 & E3 & H4).
  destruct (Index.digits1 (Index.skip_spaces s3)) as [[e2 s4]|] eqn:D2;
    [|discriminate]. apply digits1_inv in D2 as (F2 & G2 & N2).
  destruct (skip_spaces_inv s4) as (w5 & E4 & H5).
  destruct (Index.expect "," (Index.skip_spaces s4)) as [s5|] eqn:X3;
    [|discriminate]. apply expect_inv in X3.
  destruct (skip_spaces_inv s5) as (w6 & E5 & H6).
  destruct (Index.digits1 (Index.skip_spaces s5)) as [[e3 s6]|] eqn:D3;
    [|discriminate]. apply digits1_inv in D3 as (F3 & G3 & N3).
  destruct (skip_spaces_inv s6) as (w7 & E6 & H7).
  destruct (Index.expect ")" (Index.skip_spaces s6)) as [[|x s7]|] eqn:X4;
    try discriminate. apply expect_inv in X4.
  intros [= <- <- <-].
  exists w1, w2, w3, w4, w5, w6, w7. split; [|split; repeat constructor; auto].
  rewrite E0, X1, E1, F1, E2, X2, E3, F2, E4, X3, E5, F3, E6, X4.
  reflexivity.
Qed.

(** X9: [parseColor] accepts two forms only.  One is a [#] followed by
    exactly six hexadecimal digits; each channel is then sixteen times the
    value of the first digit of its pair plus the value of the second, from
    0 to 255.  The other is [rgb], an opening parenthesis, three runs of
    decimal digits, not empty, separated by commas, and a closing
    parenthesis, with optional white space after [rgb], inside the
    parentheses and around the commas; each channel is then not negative,
    and is the value of its run when the run has at most fifteen digits.
    Every other text gives no colour. *)
Theorem parseColor_accepts_only color c :
  Index.parseColor color = Some c ->
  (prefix "#" color = true /\ String.length color = 7%nat
   /\ 0 <= Index.r c <= 255 /\ 0 <= Index.g c <= 255
   /\ 0 <= Index.b c <= 255
   /\ exists c1 c2 c3 c4 c5 c6,
        color = String "#" (String c1 (String c2 (String c3 (String c4
                  (String c5 (String c6 ""))))))
        /\ Forall (fun x => Index.is_hex x = true) [c1; c2; c3; c4; c5; c6]
        /\ Index.r c = 16 * Index.hex_value c1 + Index.hex_value c2
        /\ Index.g c = 16 * Index.hex_value c3 + Index.hex_value c4
        /\ Index.b c = 16 * Index.hex_value c5 + Index.hex_value c6)
  \/ (prefix "rgb" color = true
      /\ 0 <= Index.r c /\ 0 <= Index.g c /\ 0 <= Index.b c
      /\ exists w1 w2 w3 w4 w5 w6 w7 d1 d2 d3,
           color = "rgb" ++ w1 ++ "(" ++ w2 ++ d1 ++ w3 ++ "," ++ w4 ++ d2
                         ++ w5 ++ "," ++ w6 ++ d3 ++ w7 ++ ")"
           /\ Forall (fun w => Spec.all_chars Index.is_space w = true)
                     [w1; w2; w3; w4; w5; w6; w7]
           /\ Forall (fun d => Spec.all_chars JS.is_digit d = true /\ d <> "")
                     [d1; d2; d3]
           /\ ((String.length d1 <= 15)%nat -> Index.r c = JS.parseInt d1)
           /\ ((String.length d2 <= 15)%nat -> Index.g c = JS.parseInt d2)
           /\ ((String.length d3 <= 15)%nat -> Index.b c = JS.parseInt d3)).
Proof.
  unfold Index.parseColor.
  destruct (Index.match_hex color) as [[[h1 h2] h3]|] eqn:H.
  - intros [= <-]. left.
    apply match_hex_shape in H
      as (c1 & c2 & c3 & c4 & c5 & c6 & -> & -> & -> & ->
          & E1 & E2 & E3 & E4 & E5 & E6).
    cbn [Index.r Index.g Index.b].
    split; [reflexivity|]. split; [reflexivity|].
    split; [now apply parseInt16_pair|]. split; [now apply parseInt16_pair|].
    split; [now apply parseInt16_pair|].
    exists c1, c2, c3, c4, c5, c6. split; [reflexivity|].
    split; [repeat constructor; assumption|].
    unfold Index.parseInt16. cbn [Index.parseInt16_from].
    rewrite E1, E2, E3, E4, E5, E6. repeat split; lia.
  - destruct (Index.match_rgb color) as [[[d1 d2] d3]|] eqn:R; [|discriminate].
    intros [= <-]. right. cbn [Index.r Index.g Index.b].
    split; [exact (match_rgb_prefix _ _ R)|].
    split; [apply parseInt_from_nonneg; lia|].
    split; [apply parseInt_from_nonneg; lia|].
    split; [apply parseInt_from_nonneg; lia|].
    apply match_rgb_shape in R as (w1 & w2 & w3 & w4 & w5 & w6 & w7 & E & Hw & Hd).
    exists w1, w2, w3, w4, w5, w6, w7, d1, d2, d3.
    split; [exact E|]. split; [exact Hw|]. split; [exact Hd|].
    repeat split; intros _; reflexivity.
Qed.

Lemma parseColor_accepts_only_witness :
  Index.parseColor "rgb(999, 0, 0)" = Some (Index.mkRGB 999 0 0)
  /\ prefix "rgb" "rgb(999, 0, 0)" = true
  /\ Index.parseColor "#zzzzzz" = None
  /\ Index.parseColor "rgbfoo" = None.
Proof.
  split; [reflexivity|]. split; [|split; reflexivity].
  destruct (parseColor_accepts_only "rgb(999, 0, 0)" (Index.mkRGB 999 0 0)
              eq_refl) as [[H _]|[H _]]; [discriminate H | exact H].
Defined.

(** X10: every colour that [ansi256ToHex] gives for an index from 0 to 255
    is read back by [parseColor]: for the cube with the channel values of
    the cube formula, for the gray ramp with the gray level on the three
    channels, and for the sixteen palette entries with channels from 0 to
    255. *)
Theorem parseColor_reads_ansi256ToHex :
  (forall code, 16 <= code <= 231 ->
     Index.parseColor (ansi256ToHex code)
     = Some (Index.mkRGB (Spec.cube_component ((code - 16) / 36))
                         (Spec.cube_component (((code - 16) mod 36) / 6))
                         (Spec.cube_component ((code - 16) mod 6))))
  /\ (forall code, 232 <= code <= 255 ->
        Index.parseColor (ansi256ToHex code)
        = Some (Index.mkRGB ((code - 232) * 10 + 8) ((code - 232) * 10 + 8)
                            ((code - 232) * 10 + 8)))
  /\ (forall code, 0 <= code <= 15 ->
        exists c, Index.parseColor (ansi256ToHex code) = Some c
                  /\ ANSI_COLORS_16 code = Some (ansi256ToHex code)).
Proof.
  pose (same := fun (o : option Index.RGB) (x y z : Z) =>
                  match o with
                  | Some c => (Index.r c =? x) && (Index.g c =? y)
                              && (Index.b c =? z)
                  | None => false
                  end).
  assert (S : forall o x y z, same o x y z = true ->
                              o = Some (Index.mkRGB x y z)).
  { intros [[x' y' z']|] x y z; simpl; [|discriminate].
    rewrite !andb_true_iff, !Z.eqb_eq. intros [[-> ->] ->]. reflexivity. }
  split; [|split].
  - intros code Hc. apply S.
    apply (range_forallb
             (fun c => same (Index.parseColor (ansi256ToHex c))
                         (Spec.cube_component ((c - 16) / 36))
                         (Spec.cube_component (((c - 16) mod 36) / 6))
                         (Spec.cube_component ((c - 16) mod 6))) 16 216).
    + vm_compute. reflexivity.
    + lia.
  - intros code Hc. apply S.
    apply (range_forallb
             (fun c => same (Index.parseColor (ansi256ToHex c))
                         ((c - 232) * 10 + 8) ((c - 232) * 10 + 8)
                         ((c - 232) * 10 + 8)) 232 24).
    + vm_compute. reflexivity.
    + lia.
  - intros code Hc.
    assert (C : code = 0 \/ code = 1 \/ code = 2 \/ code = 3 \/ code = 4
                \/ code = 5 \/ code = 6 \/ code = 7 \/ code = 8 \/ code = 9
                \/ code = 10 \/ code = 11 \/ code = 12 \/ code = 13
                \/ code = 14 \/ code = 15) by lia.
    repeat (destruct C as [->|C]; [eexists; split; reflexivity|]).
    subst. eexists; split; reflexivity.
Qed.

Lemma parseColor_reads_ansi256ToHex_witness :
  16 <= 196 <= 231
  /\ Index.parseColor (ansi256ToHex 196) = Some (Index.mkRGB 255 0 0).
Proof.
  split; [lia|].
  apply (proj1 parseColor_reads_ansi256ToHex 196). lia.
Defined.

(** *** Decimal digits printed and read back *)

Lemma parseInt_from_pos d :
  forall acc,
    JS.parseInt_from (Zpos acc) (DecimalString.NilEmpty.string_of_uint d)
    = Zpos (Pos.of_uint_acc d acc).
Proof.
  induction d; intros acc;
    cbn [DecimalString.NilEmpty.string_of_uint JS.parseInt_from
         Pos.of_uint_acc];
    try reflexivity;
    match goal with
    | |- context [JS.is_digit ?c] =>
        change (JS.is_digit c) with true; cbv iota
    end;
    rewrite <- IHd; f_equal;
    match goal with
    | |- context [JS.digit_value ?c] =>
        let v := eval vm_compute in (JS.digit_value c) in
        change (JS.digit_value c) with v
    end; lia.
Qed.

Lemma parseInt_uint d :
  JS.parseInt (DecimalString.NilEmpty.string_of_uint d)
  = Z.of_N (Pos.of_uint d).
Proof.
  unfold JS.parseInt.
  induction d;
    cbn [DecimalString.NilEmpty.string_of_uint JS.parseInt_from Pos.of_uint];
    try reflexivity;
    match goal with
    | |- context [JS.is_digit ?c] =>
        change (JS.is_digit c) with true; cbv iota
    end;
    try exact IHd;
    cbn [Z.of_N]; rewrite <- parseInt_from_pos; f_equal;
    match goal with
    | |- context [JS.digit_value ?c] =>
        let v := eval vm_compute in (JS.digit_value c) in
        change (JS.digit_value c) with v
    end; lia.
Qed.

Lemma decimal_digits d :
  Spec.all_chars JS.is_digit (DecimalString.NilEmpty.string_of_uint d) = true.
Proof. induction d; simpl; auto. Qed.

Lemma toString10_pos p :
  JS.toString10 (Zpos p)
  = DecimalString.NilEmpty.string_of_uint (Pos.to_uint p).
Proof.
  unfold JS.toString10. cbn [Z.to_int DecimalString.NilZero.string_of_int].
  unfold DecimalString.NilZero.string_of_uint.
  pose proof (Unsigned.to_uint_nonnil p) as H.
  destruct (Pos.to_uint p); [contradiction|..]; reflexivity.
Qed.

Lemma parseInt_toString10 n : 0 <= n -> JS.parseInt (JS.toString10 n) = n.
Proof.
  intros H. destruct n as [|p|p]; [reflexivity| |lia].
  rewrite toString10_pos, parseInt_uint, Unsigned.of_to. reflexivity.
Qed.

Lemma toString10_digits n :
  0 <= n ->
  Spec.all_chars JS.is_digit (JS.toString10 n) = true
  /\ JS.toString10 n <> "".
Proof.
  intros H. destruct n as [|p|p]; [split; [reflexivity|discriminate]| |lia].
  rewrite toString10_pos. split; [apply decimal_digits|].
  pose proof (Unsigned.to_uint_nonnil p) as Hn.
  destruct (Pos.to_uint p); [contradiction|..]; discriminate.
Qed.

(** *** The rgb form *)

Lemma skip_spaces_run w c x :
  Spec.all_chars Index.is_space w = true -> Index.is_space c = false ->
  Index.skip_spaces (w ++ String c x) = String c x.
Proof.
  intros Hw Hc. induction w as [|y w IH]; simpl.
  - now rewrite Hc.
  - simpl in Hw. apply andb_true_iff in Hw as [Hy Hw]. rewrite Hy. now apply IH.
Qed.

Lemma span_digits_run d rest :
  Spec.all_chars JS.is_digit d = true ->
  match rest with
  | String c _ => JS.is_digit c = false
  | EmptyString => True
  end ->
  Index.span_digits (d ++ rest) = (d, rest).
Proof.
  intros Hd Hr. induction d as [|y d IH]; simpl.
  - destruct rest as [|c r]; [reflexivity|]. simpl. now rewrite Hr.
  - simpl in Hd. apply andb_true_iff in Hd as [Hy Hd]. rewrite Hy, (IH Hd).
    reflexivity.
Qed.

Lemma space_not_digit c : Index.is_space c = true -> JS.is_digit c = false.
Proof.
  unfold Index.is_space, JS.is_digit.
  destruct (9 <=? nat_of_ascii c)%nat eqn:E1;
    destruct (nat_of_ascii c <=? 13)%nat eqn:E2;
    destruct (nat_of_ascii c =? 32)%nat eqn:E3;
    destruct (nat_of_ascii c =? 160)%nat eqn:E4;
    destruct (48 <=? nat_of_ascii c)%nat eqn:E5;
    destruct (nat_of_ascii c <=? 57)%nat eqn:E6;
    simpl; try discriminate; try reflexivity; intros _;
    rewrite ?Nat.leb_le, ?Nat.leb_gt, ?Nat.eqb_eq, ?Nat.eqb_neq in *; lia.
Qed.

Lemma digit_not_space c : JS.is_digit c = true -> Index.is_space c = false.
Proof.
  intros H. destruct (Index.is_space c) eqn:E; [|reflexivity].
  apply space_not_digit in E. congruence.
Qed.

Lemma digits1_run d w c x :
  Spec.all_chars JS.is_digit d = true -> d <> "" ->
  Spec.all_chars Index.is_space w = true -> JS.is_digit c = false ->
  Index.digits1 (d ++ w ++ String c x) = Some (d, w ++ String c x).
Proof.
  intros Hd Hn Hw Hc. unfold Index.digits1.
  rewrite span_digits_run; [|exact Hd|].
  - destruct d; [contradiction | reflexivity].
  - destruct w as [|y w]; [exact Hc|].
    simpl in Hw. apply andb_true_iff in Hw as [Hy _].
    now apply space_not_digit.
Qed.

Lemma skip_spaces_before_digits w d x :
  Spec.all_chars Index.is_space w = true ->
  Spec.all_chars JS.is_digit d = true -> d <> "" ->
  Index.skip_spaces (w ++ d ++ x) = d ++ x.
Proof.
  intros Hw Hd Hn. destruct d as [|c d]; [contradiction|].
  simpl in Hd. apply andb_true_iff in Hd as [Hc _].
  apply skip_spaces_run; [exact Hw | now apply digit_not_space].
Qed.

Lemma parseColor_rgb_digits w1 w2 w3 w4 w5 w6 w7 d1 d2 d3 :
  Forall (fun w => Spec.all_chars Index.is_space w = true)
         [w1; w2; w3; w4; w5; w6; w7] ->
  Forall (fun d => Spec.all_chars JS.is_digit d = true /\ d <> "")
         [d1; d2; d3] ->
  Index.parseColor
    ("rgb" ++ w1 ++ "(" ++ w2 ++ d1 ++ w3 ++ "," ++ w4 ++ d2 ++ w5 ++ ","
           ++ w6 ++ d3 ++ w7 ++ ")")
  = Some (Index.mkRGB (JS.parseInt d1) (JS.parseInt d2) (JS.parseInt d3)).
Proof.
  intros Hw Hd.
  inversion_clear Hw as [|? ? H1 Hw']. inversion_clear Hw' as [|? ? H2 Hw].
  inversion_clear Hw as [|? ? H3 Hw']. inversion_clear Hw' as [|? ? H4 Hw].
  inversion_clear Hw as [|? ? H5 Hw']. inversion_clear Hw' as [|? ? H6 Hw].
  inversion_clear Hw as [|? ? H7 _].
  inversion_clear Hd as [|? ? [D1 N1] Hd']. inversion_clear Hd' as [|? ? [D2 N2] Hd].
  inversion_clear Hd as [|? ? [D3 N3] _].
  unfold Index.parseColor.
  change (Index.match_hex ("rgb" ++ _)) with (@None (string * string * string)).
  cbv iota.
  cbn [append Index.match_rgb Ascii.eqb Bool.eqb andb].
  change ("(" ++ ?x) with (String "(" x).
  rewrite (skip_spaces_run w1 "(") by (exact H1 || reflexivity).
  cbn [Index.expect Ascii.eqb Bool.eqb].
  rewrite (skip_spaces_before_digits w2 d1) by assumption.
  rewrite (digits1_run d1 w3 ",") by (assumption || reflexivity).
  rewrite (skip_spaces_run w3 ",") by (exact H3 || reflexivity).
  cbn [Index.expect Ascii.eqb Bool.eqb].
  rewrite (skip_spaces_before_digits w4 d2) by assumption.
  rewrite (digits1_run d2 w5 ",") by (assumption || reflexivity).
  rewrite (skip_spaces_run w5 ",") by (exact H5 || reflexivity).
  cbn [Index.expect Ascii.eqb Bool.eqb].
  rewrite (skip_spaces_before_digits w6 d3) by assumption.
  rewrite (digits1_run d3 w7 ")") by (assumption || reflexivity).
  rewrite (skip_spaces_run w7 ")") by (exact H7 || reflexivity).
  reflexivity.
Qed.

(** X11: [parseColor] reads back the rgb form whatever the white space
    of the model around its parts: three integers from 0 to 2^53 - 1,
    printed in decimal between [rgb(], commas and [)], with any run of
    tabs, line feeds, vertical tabs, form feeds, carriage returns, spaces
    and no-break spaces after [rgb], inside the parentheses and around the
    commas, give these three integers.  This is the form in which
    [ansiToHtml] writes a truecolor and in which the derived colours of the
    export are written. *)
Theorem parseColor_reads_rgb w1 w2 w3 w4 w5 w6 w7 r g b :
  Forall (fun w => Spec.all_chars Index.is_space w = true)
         [w1; w2; w3; w4; w5; w6; w7] ->
  safe_integer r -> safe_integer g -> safe_integer b ->
  Index.parseColor
    ("rgb" ++ w1 ++ "(" ++ w2 ++ JS.toString10 r ++ w3 ++ "," ++ w4
           ++ JS.toString10 g ++ w5 ++ "," ++ w6 ++ JS.toString10 b ++ w7
           ++ ")")
  = Some (Index.mkRGB r g b).
Proof.
  intros Hw [Hr _] [Hg _] [Hb _].
  rewrite parseColor_rgb_digits.
  - now rewrite !parseInt_toString10.
  - exact Hw.
  - repeat constructor; now apply toString10_digits.
Qed.

Lemma parseColor_reads_rgb_witness :
  safe_integer 10 /\ safe_integer 20 /\ safe_integer 30
  /\ Index.parseColor (rgb_text (Some 10) (Some 20) (Some 30))
     = Some (Index.mkRGB 10 20 30)
  /\ Index.parseColor "rgb(24, 24, 30)" = Some (Index.mkRGB 24 24 30).
Proof.
  assert (S : forall n, 0 <= n <= 255 -> safe_integer n)
    by (intros n H; unfold safe_integer, MAX_SAFE_INTEGER; lia).
  split; [apply S; lia|]. split; [apply S; lia|]. split; [apply S; lia|].
  split.
  - apply (parseColor_reads_rgb "" "" "" "" "" "" "" 10 20 30);
      [repeat constructor | apply S; lia | apply S; lia | apply S; lia].
  - apply (parseColor_reads_rgb "" "" "" " " "" " " "" 24 24 30);
      [repeat constructor | apply S; lia | apply S; lia | apply S; lia].
Defined.

(** ** The parameters of a sequence read back *)

Lemma digit_not_semicolon c : JS.is_digit c = true -> (c =? ";")%char = false.
Proof.
  intros H. destruct (Ascii.eqb_spec c ";") as [->|]; [|reflexivity].
  vm_compute in H. discriminate.
Qed.

Lemma split_digits d :
  Spec.all_chars JS.is_digit d = true -> JS.split ";" d = [d].
Proof.
  induction d as [|c d IH]; [reflexivity|]. simpl.
  intros H. apply andb_true_iff in H as [Hc Hd].
  rewrite (digit_not_semicolon c Hc), (IH Hd). reflexivity.
Qed.

Lemma split_digits_then d rest :
  Spec.all_chars JS.is_digit d = true ->
  JS.split ";" (d ++ ";" ++ rest) = d :: JS.split ";" rest.
Proof.
  induction d as [|c d IH]; [reflexivity|]. simpl.
  intros H. apply andb_true_iff in H as [Hc Hd].
  rewrite (digit_not_semicolon c Hc). simpl in IH. rewrite (IH Hd). reflexivity.
Qed.

Lemma digits_are_params d :
  Spec.all_chars JS.is_digit d = true ->
  Spec.all_chars is_param_char d = true.
Proof.
  apply all_chars_weaken. intros c H. unfold is_param_char. now rewrite H.
Qed.

Lemma parse_codes_single d :
  Spec.all_chars JS.is_digit d = true -> d <> "" ->
  parse_codes d = [JS.parseInt d].
Proof.
  intros Hd Hn. unfold parse_codes. rewrite (split_digits d Hd). cbn [map].
  apply String.eqb_neq in Hn. now rewrite Hn.
Qed.

Lemma parse_codes_then d rest :
  Spec.all_chars JS.is_digit d = true -> d <> "" ->
  parse_codes (d ++ ";" ++ rest) = JS.parseInt d :: parse_codes rest.
Proof.
  intros Hd Hn. unfold parse_codes. rewrite (split_digits_then d rest Hd).
  cbn [map]. apply String.eqb_neq in Hn. now rewrite Hn.
Qed.

(** X12: a list of codes from 0 to 2^53 - 1, printed in decimal and
    joined by semicolons, is read back as the same list: the sequence
    ESC[n1;n2;...m is interpreted with exactly the codes n1, n2, ..., and
    matches the pattern. *)
Theorem parse_codes_reads_back codes :
  codes <> [] -> Forall safe_integer codes ->
  parse_codes (JS.join ";" (map JS.toString10 codes)) = codes
  /\ Spec.all_chars is_param_char (JS.join ";" (map JS.toString10 codes))
     = true.
Proof.
  intros Hn HF. induction HF as [|n codes [Hp _] HF IH]; [contradiction|].
  destruct (toString10_digits n Hp) as [Hd He].
  destruct codes as [|n' codes].
  - cbn [map JS.join]. rewrite (parse_codes_single _ Hd He).
    rewrite (parseInt_toString10 n Hp). split; [reflexivity|].
    now apply digits_are_params.
  - destruct IH as [IH1 IH2]; [discriminate|].
    change (JS.join ";" (map JS.toString10 (n :: n' :: codes)))
      with (JS.toString10 n ++ ";"
              ++ JS.join ";" (map JS.toString10 (n' :: codes))).
    split.
    + rewrite (parse_codes_then _ _ Hd He), (parseInt_toString10 n Hp), IH1.
      reflexivity.
    + rewrite !all_chars_app, (digits_are_params _ Hd), IH2. reflexivity.
Qed.

Lemma parse_codes_reads_back_witness :
  [38; 5; 196] <> [] /\ Forall safe_integer [38; 5; 196]
  /\ parse_codes "38;5;196" = [38; 5; 196].
Proof.
  assert (F : Forall safe_integer [38; 5; 196])
    by (repeat constructor; unfold MAX_SAFE_INTEGER; lia).
  split; [discriminate|]. split; [exact F|].
  apply (parse_codes_reads_back [38; 5; 196]); [discriminate | exact F].
Defined.

(** ** The tool calls of a session *)

Section SessionFacts.

Context {Content Details Args : Type}.

Local Abbreviation Entry := (@Index.Entry Content Details Args).
Local Abbreviation Block := (@Index.Block Args).
Local Abbreviation ToolResult := (@Index.ToolResult Content Details).
Local Abbreviation ToolHtmlRenderer := (@Index.ToolHtmlRenderer Content Details Args).

Lemma map_get_set {V : Type} (k k' : string) (v : V) m :
  Index.map_get k (Index.map_set k' v m)
  = if (k' =? k)%string then Some v else Index.map_get k m.
Proof.
  induction m as [|[k0 v0] m IH]; simpl.
  - reflexivity.
  - destruct (String.eqb_spec k0 k') as [->|Hn]; simpl.
    + destruct (k' =? k)%string; reflexivity.
    + rewrite IH. destruct (String.eqb_spec k0 k) as [->|]; [|reflexivity].
      destruct (String.eqb_spec k' k) as [->|]; [contradiction|reflexivity].
Qed.

Lemma add_tool_result_other id (m : list (string * ToolResult)) (e : Entry) :
  Index.is_result_for id e = false ->
  Index.map_get id (Index.add_tool_result m e) = Index.map_get id m.
Proof.
  destruct e as [[id' c d e'| |]|]; simpl; try reflexivity.
  intros H. now rewrite map_get_set, H.
Qed.

Lemma fold_tool_results_other id (post : list Entry) :
  forallb (fun e => negb (Index.is_result_for id e)) post = true ->
  forall m : list (string * ToolResult),
    Index.map_get id (fold_left Index.add_tool_result post m)
    = Index.map_get id m.
Proof.
  induction post as [|e post IH]; intros H m; [reflexivity|].
  simpl in H. apply andb_true_iff in H as [He Hp].
  apply negb_true_iff in He. simpl. rewrite (IH Hp).
  now apply add_tool_result_other.
Qed.

(** X13: the map of tool results gives, for a call id, the last tool-result
    message of the session with that id, its error flag being false when the
    message has none; it gives nothing for an id that no tool-result message
    carries. *)
Theorem buildToolResultMap_last_wins :
  (forall (entries : list Entry) id,
      forallb (fun e => negb (Index.is_result_for id e)) entries = true ->
      Index.map_get id (Index.buildToolResultMap entries) = None)
  /\ (forall (pre post : list Entry) id content details isError,
        forallb (fun e => negb (Index.is_result_for id e)) post = true ->
        Index.map_get id
          (Index.buildToolResultMap
             (pre ++ Index.MessageEntry
                       (Index.ToolResultMessage id content details isError)
                  :: post)%list)
        = Some (Index.mkToolResult content details
                  (match isError with Some e => e | None => false end))).
Proof.
  split.
  - intros entries id H. unfold Index.buildToolResultMap.
    now rewrite (fold_tool_results_other id entries H).
  - intros pre post id content details isError H.
    unfold Index.buildToolResultMap. rewrite fold_left_app. cbn [fold_left].
    rewrite (fold_tool_results_other id post H). cbn [Index.add_tool_result].
    now rewrite map_get_set, String.eqb_refl.
Qed.

Lemma obj_get_set {V : Type} (id k : string) (v : V) m :
  Index.map_get id (Index.obj_set k v m)
  = if (k =? "__proto__")%string then Index.map_get id m
    else if (k =? id)%string then Some v else Index.map_get id m.
Proof.
  unfold Index.obj_set. destruct (k =? "__proto__")%string; [reflexivity|].
  apply map_get_set.
Qed.

Lemma fold_left_invariant {A B : Type} (Inv : A -> Prop) (f : A -> B -> A) l :
  (forall acc x, In x l -> Inv acc -> Inv (f acc x)) ->
  forall acc, Inv acc -> Inv (fold_left f l acc).
Proof.
  induction l as [|x l IH]; intros Hf acc Ha; [exact Ha|].
  simpl. apply IH.
  - intros acc' y Hy. apply Hf. now right.
  - apply Hf; [now left | exact Ha].
Qed.

Lemma fold_left_reaches {A B : Type} (Q : A -> Prop) (f : A -> B -> A) l x0 :
  (forall acc x, Q acc -> Q (f acc x)) ->
  (forall acc, Q (f acc x0)) ->
  In x0 l -> forall acc, Q (fold_left f l acc).
Proof.
  intros Hk Hs. induction l as [|x l IH]; intros Hin acc; [destruct Hin|].
  simpl. destruct Hin as [->|Hin].
  - apply fold_left_invariant; [|apply Hs]. intros; now apply Hk.
  - now apply IH.
Qed.

Lemma tool_calls_in (entries : list Entry) (block : Block) :
  In block (Index.tool_calls entries) <->
  exists content,
    In (Index.MessageEntry (Index.AssistantMessage content)) entries
    /\ In block content
    /\ (Index.block_type block =? "toolCall")%string = true.
Proof.
  unfold Index.tool_calls. rewrite in_flat_map. split.
  - intros ([[| content |] |] & He & Hb); try destruct Hb.
    apply filter_In in Hb as [Hb Ht]. eauto.
  - intros (content & He & Hb & Ht).
    exists (Index.MessageEntry (Index.AssistantMessage content)).
    split; [exact He|]. apply filter_In. auto.
Qed.

Lemma render_block_sound (entries : list Entry) (renderer : ToolHtmlRenderer)
    acc (block : Block) content :
  In (Index.MessageEntry (Index.AssistantMessage content)) entries ->
  In block content ->
  (forall id rendered,
      Index.map_get id acc = Some rendered ->
      Index.rendering_of entries renderer id rendered) ->
  forall id rendered,
    Index.map_get id
      (Index.render_block renderer (Index.buildToolResultMap entries) acc block)
    = Some rendered ->
    Index.rendering_of entries renderer id rendered.
Proof.
  intros He Hb Inv id rendered. unfold Index.render_block.
  destruct (Index.block_type block =? "toolCall")%string eqn:Ht; [|apply Inv].
  destruct (Index.BUILTIN_TOOLS_has (Index.block_name block)) eqn:Hn;
    [apply Inv|]. cbn [negb].
  match goal with
  | |- context [if ?c then _ else _] => destruct c eqn:Hs
  end; [|apply Inv].
  rewrite obj_get_set.
  destruct (String.eqb_spec (Index.block_id block) "__proto__") as [|Hp];
    [apply Inv|].
  destruct (String.eqb_spec (Index.block_id block) id) as [<-|]; [|apply Inv].
  intros [= <-]. split; [exact Hp|]. split; [exact Hs|].
  exists block. repeat split; try assumption.
  apply tool_calls_in. eauto.
Qed.

Lemma render_block_keeps (renderer : ToolHtmlRenderer)
    (toolResults : list (string * ToolResult)) acc (block : Block) id :
  Index.map_get id acc <> None ->
  Index.map_get id (Index.render_block renderer toolResults acc block) <> None.
Proof.
  intros H. unfold Index.render_block.
  destruct (Index.block_type block =? "toolCall")%string; [|exact H].
  destruct (negb (Index.BUILTIN_TOOLS_has (Index.block_name block)));
    [|exact H].
  match goal with
  | |- context [if ?c then _ else _] => destruct c
  end; [|exact H].
  rewrite obj_get_set.
  destruct (Index.block_id block =? "__proto__")%string; [exact H|].
  destruct (Index.block_id block =? id)%string; [discriminate | exact H].
Qed.

Lemma render_entry_keeps (renderer : ToolHtmlRenderer)
    (toolResults : list (string * ToolResult)) acc (entry : Entry) id :
  Index.map_get id acc <> None ->
  Index.map_get id (Index.render_entry renderer toolResults acc entry) <> None.
Proof.
  intros H. destruct entry as [[| content |]|]; cbn [Index.render_entry];
    try exact H.
  apply (fold_left_invariant (fun acc => Index.map_get id acc <> None));
    [|exact H].
  intros acc' b _. apply render_block_keeps.
Qed.

(** X14: every rendering that [renderCustomTools] stores under a call id
    is the rendering of a tool call of the session with that id whose tool
    is not built in, and holds at least one piece of HTML that is not
    empty; and every such tool call, its id not being [__proto__], has a
    rendering stored under its id. *)
Theorem renderCustomTools_stores (entries : list Entry)
    (renderer : ToolHtmlRenderer) :
  (forall id rendered,
      Index.map_get id (Index.renderCustomTools entries renderer)
      = Some rendered ->
      Index.rendering_of entries renderer id rendered)
  /\ (forall block : Block,
        In block (Index.tool_calls entries) ->
        Index.BUILTIN_TOOLS_has (Index.block_name block) = false ->
        Index.block_id block <> "__proto__" ->
        (let rendered :=
           Index.render_tool_call renderer (Index.buildToolResultMap entries)
                                  block in
         JS.truthy_str (Index.callHtml rendered)
         || JS.truthy_str (Index.resultHtmlCollapsed rendered)
         || JS.truthy_str (Index.resultHtmlExpanded rendered) = true) ->
        Index.map_get (Index.block_id block)
                      (Index.renderCustomTools entries renderer) <> None).
Proof.
  unfold Index.renderCustomTools. split.
  - apply (fold_left_invariant
             (fun acc => forall id rendered,
                  Index.map_get id acc = Some rendered ->
                  Index.rendering_of entries renderer id rendered)).
    + intros acc entry He Inv.
      destruct entry as [[| content |]|]; cbn [Index.render_entry];
        try exact Inv.
      apply (fold_left_invariant
               (fun acc => forall id rendered,
                    Index.map_get id acc = Some rendered ->
                    Index.rendering_of entries renderer id rendered));
        [|exact Inv].
      intros acc' b Hb Inv'. now apply (render_block_sound _ _ _ _ content).
    + intros id rendered H. discriminate H.
  - intros block Hb Hn Hp Hs. cbv zeta in Hs.
    apply tool_calls_in in Hb as (content & He & Hb & Ht).
    apply (fold_left_reaches
             (fun acc => Index.map_get (Index.block_id block) acc <> None)
             _ _ (Index.MessageEntry (Index.AssistantMessage content)));
      [intros; now apply render_entry_keeps | | exact He].
    intros acc. cbn [Index.render_entry].
    apply (fold_left_reaches
             (fun acc => Index.map_get (Index.block_id block) acc <> None)
             _ _ block);
      [intros; now apply render_block_keeps | | exact Hb].
    intros acc'. unfold Index.render_block. rewrite Ht, Hn.
    cbn [negb]. rewrite Hs, obj_get_set.
    apply String.eqb_neq in Hp. rewrite Hp, String.eqb_refl. discriminate.
Qed.

End SessionFacts.

(** ** The renderer of custom tools *)

Section RendererFacts.

Context {Content Details Args : Type}.

Local Abbreviation ToolDefinition :=
  (@ToolRenderer.ToolDefinition Content Details Args).

Lemma getToolDefinition_agrees (runner : string -> option ToolDefinition)
    cache name :
  ToolRenderer.cache_agrees runner cache ->
  fst (ToolRenderer.getToolDefinition runner cache name) = runner name
  /\ ToolRenderer.cache_agrees runner
       (snd (ToolRenderer.getToolDefinition runner cache name)).
Proof.
  intros H. unfold ToolRenderer.getToolDefinition.
  destruct (Index.map_get name cache) as [def|] eqn:E.
  - split; [symmetry; exact (H _ _ E) | exact H].
  - destruct (runner name) as [def|] eqn:R; (split; [reflexivity|]);
      [|exact H].
    intros k d. cbn [snd]. rewrite map_get_set.
    destruct (String.eqb_spec name k) as [<-|]; [|apply H].
    intros [= <-]. exact R.
Qed.

(** X15: the cache of tool definitions does not change what is rendered:
    from a cache whose definitions are those the runner gives, as the empty
    cache of a new renderer is, [renderCall] and [renderResult] give what
    they give without a cache, and leave such a cache. *)
Theorem tool_definition_cache_is_transparent
    (runner : string -> option ToolDefinition) cache name :
  ToolRenderer.cache_agrees runner cache ->
  (forall args id,
      fst (ToolRenderer.renderCall runner cache name args id)
      = fst (ToolRenderer.renderCall runner [] name args id)
      /\ ToolRenderer.cache_agrees runner
           (snd (ToolRenderer.renderCall runner cache name args id)))
  /\ (forall result details isError expanded,
        fst (ToolRenderer.renderResult runner cache name result details
                                       isError expanded)
        = fst (ToolRenderer.renderResult runner [] name result details
                                         isError expanded)
        /\ ToolRenderer.cache_agrees runner
             (snd (ToolRenderer.renderResult runner cache name result details
                                             isError expanded))).
Proof.
  intros H.
  destruct (getToolDefinition_agrees runner cache name H) as [E1 A1].
  assert (H0 : ToolRenderer.cache_agrees runner [])
    by (intros k d E; discriminate E).
  destruct (getToolDefinition_agrees runner [] name H0) as [E0 _].
  split; intros; unfold ToolRenderer.renderCall, ToolRenderer.renderResult;
    destruct (ToolRenderer.getToolDefinition runner cache name) as [d c];
    destruct (ToolRenderer.getToolDefinition runner [] name) as [d0 c0];
    cbn [fst snd] in *; subst d d0;
    destruct (runner name) as [def|]; cbn [fst snd];
    [ destruct (ToolRenderer.def_renderCall def) | |
      destruct (ToolRenderer.def_renderResult def) | ];
    cbn [fst snd]; auto.
Qed.

Lemma component_html_markers (made : ToolRenderer.Outcome (option ToolRenderer.Component)) html :
  ToolRenderer.component_html made = Some html ->
  exists component lines,
    made = ToolRenderer.Returned (Some component)
    /\ ToolRenderer.render component 100 = ToolRenderer.Returned lines
    /\ ansiLinesToHtml lines = Some html
    /\ every_lt_is_tag html = true
    /\ Spec.every_amp_is_entity html = true
    /\ Spec.occurrences "<span" html = Spec.occurrences "</span>" html.
Proof.
  destruct made as [[component|]|]; cbn [ToolRenderer.component_html];
    try discriminate.
  unfold ToolRenderer.renderComponentToHtml, ToolRenderer.DEFAULT_RENDER_WIDTH.
  destruct (ToolRenderer.render component 100) as [lines|] eqn:R;
    [|discriminate].
  destruct (ansiLinesToHtml lines) as [h|] eqn:A; [|discriminate].
  intros [= <-]. exists component, lines.
  split; [reflexivity|]. split; [exact R|]. split; [exact A|].
  destruct (map_lines_markup lines) as (outs & HM & _ & HF).
  unfold ansiLinesToHtml in A. rewrite HM in A. injection A as <-.
  destruct (join_break_counts outs HF) as (_ & B & T & P). auto.
Qed.

(** X16: whatever the tool definition does, the HTML that [renderCall] or
    [renderResult] returns is the conversion, by [ansiLinesToHtml], of the
    lines that the component of the tool rendered at the default width,
    100: the tool has a definition with the renderer asked for, this
    renderer returned a component for the arguments of the call (for the
    content, the details and the [expanded] flag of the result), the
    component rendered lines at width 100 without an exception, and the
    HTML is what [ansiLinesToHtml] makes of these lines.  So every [<] in it
    opens a marker of a style scope or a line break, every [&] an entity,
    and its style scopes are balanced. *)
Theorem tool_html_is_converted_lines
    (runner : string -> option ToolDefinition) cache name html :
  ToolRenderer.DEFAULT_RENDER_WIDTH = 100%nat
  /\ (forall args id,
        fst (ToolRenderer.renderCall runner cache name args id) = Some html ->
        exists def f component lines,
          fst (ToolRenderer.getToolDefinition runner cache name) = Some def
          /\ ToolRenderer.def_renderCall def = Some f
          /\ f args = ToolRenderer.Returned (Some component)
          /\ ToolRenderer.render component ToolRenderer.DEFAULT_RENDER_WIDTH
             = ToolRenderer.Returned lines
          /\ ansiLinesToHtml lines = Some html
          /\ every_lt_is_tag html = true
          /\ Spec.every_amp_is_entity html = true
          /\ Spec.occurrences "<span" html = Spec.occurrences "</span>" html)
  /\ (forall result details isError expanded,
        fst (ToolRenderer.renderResult runner cache name result details
                                       isError expanded) = Some html ->
        exists def f component lines,
          fst (ToolRenderer.getToolDefinition runner cache name) = Some def
          /\ ToolRenderer.def_renderResult def = Some f
          /\ f result details expanded
             = ToolRenderer.Returned (Some component)
          /\ ToolRenderer.render component ToolRenderer.DEFAULT_RENDER_WIDTH
             = ToolRenderer.Returned lines
          /\ ansiLinesToHtml lines = Some html
          /\ every_lt_is_tag html = true
          /\ Spec.every_amp_is_entity html = true
          /\ Spec.occurrences "<span" html = Spec.occurrences "</span>" html).
Proof.
  split; [reflexivity|].
  split; intros;
    unfold ToolRenderer.renderCall, ToolRenderer.renderResult in *;
    destruct (ToolRenderer.getToolDefinition runner cache name) as [[def|] c];
    cbn [fst] in *; try discriminate;
    [ destruct (ToolRenderer.def_renderCall def) as [f|] eqn:F
    | destruct (ToolRenderer.def_renderResult def) as [f|] eqn:F ];
    cbn [fst] in *; try discriminate;
    match goal with
    | H : ToolRenderer.component_html _ = Some _ |- _ =>
        apply component_html_markers in H
          as (component & lines & M & R & A & T & P & B)
    end;
    exists def, f, component, lines;
    (split; [reflexivity|]); (split; [exact F|]); (split; [exact M|]);
    (split; [exact R|]); auto.
Qed.

End RendererFacts.

(** ** The matches of the pattern *)

Lemma exec_at_sound s g :
  exec_at s = Some g ->
  exists rest, s = sgr g ++ rest /\ Spec.all_chars is_param_char g = true.
Proof.
  intros H. pose proof (exec_at_group_chars s g H) as Hg.
  destruct s as [|c1 [|c2 rest]]; simpl in H; try discriminate.
  destruct (Ascii.eqb_spec c1 ESC) as [->|]; [|discriminate].
  destruct (Ascii.eqb_spec c2 "[") as [->|]; [|discriminate].
  simpl in H.
  assert (Hs : forall x, fst (span_params x) ++ snd (span_params x) = x).
  { induction x as [|c x IH]; [reflexivity|]. simpl.
    destruct (is_param_char c); [|reflexivity].
    destruct (span_params x) as [run after]. simpl in IH |- *. now rewrite IH. }
  specialize (Hs rest).
  destruct (span_params rest) as [run [|c3 after]]; [discriminate|].
  destruct (Ascii.eqb_spec c3 "m") as [->|]; [|discriminate].
  injection H as H. subst g. exists after. split; [|exact Hg].
  simpl in Hs. rewrite <- Hs. unfold sgr. simpl.
  now rewrite append_assoc.
Qed.

Lemma matchAll_from_sound s :
  forall pre skip m,
    In m (matchAll_from s (String.length pre) skip) ->
    substring (index m) (whole_length m) (pre ++ s) = sgr (group1 m)
    /\ Spec.all_chars is_param_char (group1 m) = true.
Proof.
  induction s as [|c s IH]; intros pre skip m; [intros []|].
  assert (E : pre ++ String c s = (pre ++ String c "") ++ s)
    by now rewrite append_assoc.
  assert (L : S (String.length pre) = String.length (pre ++ String c ""))
    by (rewrite length_append; simpl; lia).
  destruct skip as [|k].
  - rewrite matchAll_from_try.
    destruct (exec_at (String c s)) as [g|] eqn:X.
    + intros [<-|H].
      * cbn [index whole_length group1].
        apply exec_at_sound in X as (rest & -> & Hg). split; [|exact Hg].
        rewrite <- (Nat.add_0_r (String.length pre)), substring_shift.
        rewrite <- sgr_length, substring_app_l by lia.
        apply substring_all.
      * rewrite E. rewrite L in H. now apply IH in H.
    + intros H. rewrite E. rewrite L in H. now apply IH in H.
  - cbn [matchAll_from]. intros H. rewrite E. rewrite L in H.
    now apply IH in H.
Qed.

Lemma matchAll_from_in_order s :
  forall pos skip, in_order (matchAll_from s pos skip) (pos + skip).
Proof.
  induction s as [|c s IH]; intros pos skip; [exact I|].
  destruct skip as [|k].
  - rewrite matchAll_from_try.
    destruct (exec_at (String c s)) as [g|].
    + cbn [in_order index whole_length]. split; [lia|].
      replace (pos + (3 + String.length g))%nat
        with (S pos + (2 + String.length g))%nat by lia.
      apply IH.
    + replace (pos + 0)%nat with (pos + 0)%nat by reflexivity.
      specialize (IH (S pos) 0%nat).
      destruct (matchAll_from s (S pos) 0) as [|m ms]; [exact I|].
      cbn [in_order] in *. destruct IH as [H1 H2]. split; [lia | exact H2].
  - cbn [matchAll_from].
    replace (pos + S k)%nat with (S pos + k)%nat by lia. apply IH.
Qed.

(** X17: the matches that the scan of a text reports are occurrences of the
    pattern: the text at the index of a match, on its length, is ESC, an
    opening bracket, the group, made of digits and semicolons, and [m]; they
    come in order without overlapping, and the last one ends within the
    text, so the pieces of literal text cut between them are well formed. *)
Theorem matchAll_reports_occurrences text :
  (forall m, In m (matchAll text) ->
     substring (index m) (whole_length m) text = sgr (group1 m)
     /\ Spec.all_chars is_param_char (group1 m) = true
     /\ (index m + whole_length m <= String.length text)%nat)
  /\ in_order (matchAll text) 0.
Proof.
  split.
  - intros m H. unfold matchAll in H.
    destruct (matchAll_from_sound text "" 0 m H) as [H1 H2].
    apply matchAll_from_bounds in H. repeat split; [exact H1 | exact H2 | lia].
  - exact (matchAll_from_in_order text 0 0).
Qed.

Lemma matchAll_reports_occurrences_witness :
  In (mkMatch 1 5 "31") (matchAll ("a" ++ sgr "31" ++ "b"))
  /\ substring 1 5 ("a" ++ sgr "31" ++ "b") = sgr "31".
Proof.
  assert (H : In (mkMatch 1 5 "31") (matchAll ("a" ++ sgr "31" ++ "b")))
    by (left; reflexivity).
  split; [exact H|].
  exact (proj1 (proj1 (matchAll_reports_occurrences
                         ("a" ++ sgr "31" ++ "b")) _ H)).
Defined.

(** ** Instances *)

Example remove_sequences_example :
  remove_sequences ("a<" ++ sgr "1;31" ++ "b" ++ String ESC "[3" ++ sgr "" ++ "c")
  = "a<b" ++ String ESC "[3" ++ "c".
Proof. reflexivity. Qed.

Lemma buildToolResultMap_last_wins_witness :
  forallb (fun e => negb (Index.is_result_for "a" e))
          [@Index.OtherEntry string unit string "x"] = true
  /\ Index.map_get "a"
       (Index.buildToolResultMap
          ([Index.MessageEntry (Index.ToolResultMessage "a" "old" None None)]
             ++ Index.MessageEntry
                  (Index.ToolResultMessage "a" "new" (Some tt) (Some true))
             :: [@Index.OtherEntry string unit string "x"])%list)
     = Some (Index.mkToolResult "new" (Some tt) true).
Proof.
  split; [reflexivity|].
  apply (proj2 (@buildToolResultMap_last_wins string unit string)).
  reflexivity.
Defined.

Lemma renderCustomTools_stores_witness :
  let entries :=
    [@Index.MessageEntry string unit string
       (Index.AssistantMessage
          [Index.mkBlock "toolCall" "bash" "c1" "ls";
           Index.mkBlock "toolCall" "deploy" "c2" "now"])] in
  let renderer :=
    @Index.mkRenderer string unit string
      (fun name _ _ => Some name) (fun _ _ _ _ _ => None) in
  Index.map_get "c2" (Index.renderCustomTools entries renderer)
  = Some (Index.mkRendered (Some "deploy") None None)
  /\ Index.map_get "c1" (Index.renderCustomTools entries renderer) = None
  /\ Index.rendering_of entries renderer "c2"
       (Index.mkRendered (Some "deploy") None None).
Proof.
  intros entries renderer.
  split; [reflexivity|]. split; [reflexivity|].
  apply (proj1 (renderCustomTools_stores entries renderer)). reflexivity.
Defined.

Lemma tool_definition_cache_is_transparent_witness :
  let def :=
    @ToolRenderer.mkToolDefinition string unit string
      (Some (fun _ =>
               ToolRenderer.Returned
                 (Some (ToolRenderer.mkComponent
                          (fun _ => ToolRenderer.Returned ["a"; "b"])))))
      None in
  let runner := fun name => if (name =? "t")%string then Some def else None in
  ToolRenderer.cache_agrees runner [("t", def)]
  /\ fst (ToolRenderer.renderCall runner [("t", def)] "t" "args" "id")
     = fst (ToolRenderer.renderCall runner [] "t" "args" "id").
Proof.
  intros def runner.
  assert (H : ToolRenderer.cache_agrees runner [("t", def)]).
  { intros name d. cbn [Index.map_get].
    destruct (String.eqb_spec "t" name) as [<-|]; intros E;
      [|discriminate E].
    injection E as <-. reflexivity. }
  split; [exact H|].
  apply (proj1 (tool_definition_cache_is_transparent runner _ "t" H)).
Defined.

Lemma tool_html_is_converted_lines_witness :
  let component :=
    ToolRenderer.mkComponent
      (fun width =>
         if (width =? 100)%nat then ToolRenderer.Returned ["a"; "b"]
         else ToolRenderer.Thrown) in
  let def :=
    @ToolRenderer.mkToolDefinition string unit string
      (Some (fun _ => ToolRenderer.Returned (Some component))) None in
  let runner := fun name => if (name =? "t")%string then Some def else None in
  fst (ToolRenderer.renderCall runner [] "t" "args" "id") = Some "a<br>b"
  /\ exists d f c lines,
       fst (ToolRenderer.getToolDefinition runner [] "t") = Some d
       /\ ToolRenderer.def_renderCall d = Some f
       /\ f "args" = ToolRenderer.Returned (Some c)
       /\ ToolRenderer.render c ToolRenderer.DEFAULT_RENDER_WIDTH
          = ToolRenderer.Returned lines
       /\ ansiLinesToHtml lines = Some "a<br>b"
       /\ every_lt_is_tag "a<br>b" = true
       /\ Spec.every_amp_is_entity "a<br>b" = true
       /\ Spec.occurrences "<span" "a<br>b"
          = Spec.occurrences "</span>" "a<br>b".
Proof.
  intros component def runner. split; [reflexivity|].
  apply (proj1 (proj2 (tool_html_is_converted_lines runner [] "t" "a<br>b"))
               "args" "id").
  reflexivity.
Defined.

(** ** Brightness and the colours of the export *)

Lemma parseColor_spaced r g b :
  0 <= r -> 0 <= g -> 0 <= b ->
  Index.parseColor (Index.rgb_spaced r g b) = Some (Index.mkRGB r g b).
Proof.
  intros Hr Hg Hb. unfold Index.rgb_spaced.
  pose proof (parseColor_rgb_digits "" "" "" " " "" " " ""
                (JS.toString10 r) (JS.toString10 g) (JS.toString10 b)) as P.
  cbn [append] in P |- *. rewrite P.
  - now rewrite !parseInt_toString10.
  - repeat constructor.
  - repeat constructor; now apply toString10_digits.
Qed.

Lemma spaced_in_range r g b :
  0 <= r <= 255 -> 0 <= g <= 255 -> 0 <= b <= 255 ->
  Index.parses_in_range (Index.rgb_spaced r g b).
Proof.
  intros Hr Hg Hb. exists (Index.mkRGB r g b).
  split; [apply parseColor_spaced; lia|]. cbn. auto.
Qed.

Section BrightnessFacts.

Context {Factor : Type}.
Variable round_times : Z -> Factor -> Z.
Variable is_light : Z -> Z -> Z -> bool.
Variables factor_096 factor_07 factor_085 : Factor.

Lemma adjust_range factor c :
  0 <= Index.adjust round_times factor c <= 255.
Proof. unfold Index.adjust. lia. Qed.

Lemma adjustBrightness_in_range color factor parsed :
  Index.parseColor color = Some parsed ->
  Index.parses_in_range (Index.adjustBrightness round_times color factor).
Proof.
  intros H. unfold Index.adjustBrightness. rewrite H.
  apply spaced_in_range; apply adjust_range.
Qed.

(** X18: [adjustBrightness] returns a colour it cannot parse as it is; for
    one it can parse, whatever the factor and whatever the channels, it
    returns the text rgb(r, g, b) of three channels clamped from 0 to 255,
    and [parseColor] reads this text back as these three channels. *)
Theorem adjustBrightness_clamps color (factor : Factor) :
  (Index.parseColor color = None ->
   Index.adjustBrightness round_times color factor = color)
  /\ (forall parsed,
        Index.parseColor color = Some parsed ->
        exists r g b,
          0 <= r <= 255 /\ 0 <= g <= 255 /\ 0 <= b <= 255
          /\ Index.adjustBrightness round_times color factor
             = Index.rgb_spaced r g b
          /\ Index.parseColor
               (Index.adjustBrightness round_times color factor)
             = Some (Index.mkRGB r g b)).
Proof.
  unfold Index.adjustBrightness. split.
  - intros H. now rewrite H.
  - intros parsed H. rewrite H.
    exists (Index.adjust round_times factor (Index.r parsed)),
      (Index.adjust round_times factor (Index.g parsed)),
      (Index.adjust round_times factor (Index.b parsed)).
    pose proof (adjust_range factor (Index.r parsed)).
    pose proof (adjust_range factor (Index.g parsed)).
    pose proof (adjust_range factor (Index.b parsed)).
    repeat split; try lia. apply parseColor_spaced; lia.
Qed.

(** X19: the three colours that [deriveExportColors] gives can always be
    parsed again with channels from 0 to 255 when the base colour cannot be
    parsed (the three fixed colours) or parses with channels from 0 to 255,
    as every colour in the [#] form does; this holds for the light and for
    the dark variant, whatever the luminance test and the rounding are. *)
Theorem deriveExportColors_in_range baseColor :
  (Index.parseColor baseColor = None \/ Index.parses_in_range baseColor) ->
  let derived :=
    Index.deriveExportColors round_times is_light factor_096 factor_07
                             factor_085 baseColor in
  Index.parses_in_range (Index.pageBg derived)
  /\ Index.parses_in_range (Index.cardBg derived)
  /\ Index.parses_in_range (Index.infoBg derived).
Proof.
  intros H. unfold Index.deriveExportColors.
  destruct (Index.parseColor baseColor) as [parsed|] eqn:P.
  - destruct H as [H|H]; [discriminate H|].
    pose proof H as (c & Hc & Hr & Hg & Hb).
    rewrite P in Hc. injection Hc as <-.
    destruct (is_light (Index.r parsed) (Index.g parsed) (Index.b parsed));
      cbn [Index.pageBg Index.cardBg Index.infoBg];
      repeat split;
      try (eapply adjustBrightness_in_range; exact P);
      try exact H;
      apply spaced_in_range; lia.
  - cbn [Index.pageBg Index.cardBg Index.infoBg].
    split; [apply (spaced_in_range 24 24 30); lia|].
    split; [apply (spaced_in_range 30 30 36); lia|].
    apply (spaced_in_range 60 55 40); lia.
Qed.

End BrightnessFacts.

Lemma adjustBrightness_clamps_witness :
  Index.parseColor "#fff" = None
  /\ Index.adjustBrightness (fun c (k : Z) => c * k) "#fff" 2 = "#fff"
  /\ Index.parseColor "#102080" = Some (Index.mkRGB 16 32 128)
  /\ exists r g b,
       0 <= r <= 255 /\ 0 <= g <= 255 /\ 0 <= b <= 255
       /\ Index.adjustBrightness (fun c (k : Z) => c * k) "#102080" 3
          = Index.rgb_spaced r g b
       /\ Index.parseColor
            (Index.adjustBrightness (fun c (k : Z) => c * k) "#102080" 3)
          = Some (Index.mkRGB r g b).
Proof.
  split; [reflexivity|]. split.
  - apply (proj1 (adjustBrightness_clamps (fun c (k : Z) => c * k) "#fff" 2)).
    reflexivity.
  - split; [reflexivity|].
    exact (proj2 (adjustBrightness_clamps (fun c (k : Z) => c * k)
                    "#102080" 3) _ eq_refl).
Defined.

Example adjustBrightness_example :
  Index.adjustBrightness (fun c (k : Z) => c * k) "#102080" 3
  = "rgb(48, 96, 255)".
Proof. reflexivity. Qed.

Lemma deriveExportColors_in_range_witness :
  Index.parses_in_range "#343541"
  /\ Index.parses_in_range
       (Index.infoBg
          (Index.deriveExportColors (fun c (k : Z) => c * k / 100)
             (fun _ _ _ => false) 96 70 85 "#343541")).
Proof.
  assert (H : Index.parses_in_range "#343541").
  { exists (Index.mkRGB 52 53 65). split; [reflexivity|].
    cbn [Index.r Index.g Index.b]. lia. }
  split; [exact H|].
  apply (deriveExportColors_in_range (fun c (k : Z) => c * k / 100)
           (fun _ _ _ => false) 96 70 85 "#343541" (or_intror H)).
Defined.

(** ** Sequences that are not terminated, in any text *)

Lemma remove_sequences_from_app a r :
  forall skip, (skip <= String.length a)%nat ->
    remove_sequences_from (a ++ String ESC r) skip
    = remove_sequences_from a skip ++ remove_sequences_from (String ESC r) 0.
Proof.
  induction a as [|c a IH]; intros skip Hs.
  - simpl in Hs. replace skip with 0%nat by lia. reflexivity.
  - destruct skip as [|k].
    + change (String c a ++ String ESC r) with (String c (a ++ String ESC r)).
      cbn [remove_sequences_from].
      change (String c (a ++ String ESC r)) with (String c a ++ String ESC r).
      rewrite exec_at_app_esc.
      destruct (exec_at (String c a)) as [g|] eqn:E.
      * apply exec_at_length in E. simpl in E. apply IH. lia.
      * rewrite IH by lia. reflexivity.
    + cbn [append remove_sequences_from]. simpl in Hs. apply IH. lia.
Qed.

Lemma exec_at_not_esc c s : Spec.not_esc c = true -> exec_at (String c s) = None.
Proof.
  intros H. destruct (exec_at (String c s)) as [g|] eqn:E; [|reflexivity].
  apply exec_at_esc in E as [rest E]. injection E as -> _.
  unfold Spec.not_esc in H. rewrite Ascii.eqb_refl in H. discriminate.
Qed.

Lemma remove_sequences_from_no_esc x rest :
  Spec.all_chars Spec.not_esc x = true ->
  remove_sequences_from (x ++ rest) 0 = x ++ remove_sequences_from rest 0.
Proof.
  induction x as [|c x IH]; intros H; [reflexivity|].
  simpl in H. apply andb_true_iff in H as [Hc Hx].
  change (String c x ++ rest) with (String c (x ++ rest)).
  cbn [remove_sequences_from]. rewrite (exec_at_not_esc c _ Hc), (IH Hx).
  reflexivity.
Qed.

(** An opened sequence that is not terminated stays in the literal text,
    wherever it stands. *)
Lemma remove_sequences_unterminated a p rest :
  Spec.all_chars is_param_char p = true ->
  match rest with
  | String c _ => is_param_char c = false /\ c <> "m"%char
  | EmptyString => True
  end ->
  remove_sequences (a ++ String ESC (String "[" (p ++ rest)))
  = remove_sequences a ++ String ESC (String "[" p) ++ remove_sequences rest.
Proof.
  intros Hp Hr. unfold remove_sequences.
  rewrite remove_sequences_from_app by lia. f_equal.
  cbn [remove_sequences_from].
  rewrite (exec_at_unterminated p rest Hp Hr). cbn [append]. f_equal.
  rewrite (exec_at_not_esc "[") by reflexivity. f_equal.
  apply remove_sequences_from_no_esc.
  revert Hp. apply all_chars_weaken, param_char_not_esc.
Qed.

Lemma convert_from_no_match st res t :
  matchAll t = [] -> convert_from st res t = Some (st, append_text st res t).
Proof.
  intros H. unfold convert_from. rewrite H. cbn [for_matches state_of
    result_of lastIndex_of]. unfold JS.slice_from.
  now rewrite Nat.sub_0_r, substring_all.
Qed.

(** The literal text after the last sequence of a text, an opened sequence
    that is not terminated included, is appended escaped, inside a style
    scope exactly when the state has a style. *)
Lemma ansiToHtml_trailing_text a q t :
  Spec.all_chars is_param_char q = true ->
  matchAll t = [] -> t <> "" ->
  exists st1 oa st2,
    convert_from empty_state "" a = Some (st1, oa)
    /\ apply_codes q st1 = Some st2
    /\ ansiToHtml (a ++ sgr q ++ t)
       = Some (oa ++ (if hasStyle st2
                      then openSpan st2 ++ escapeHtml t ++ "</span>"
                      else escapeHtml t)).
Proof.
  intros Hq Hm Hn.
  destruct (convert_from_total empty_state "" a) as (st1 & oa & Ha).
  destruct (apply_codes_total q st1) as (st2 & Hc).
  exists st1, oa, st2. split; [exact Ha|]. split; [exact Hc|].
  rewrite ansiToHtml_convert_from, (convert_from_cut a q t _ _ Hq), Ha, Hc.
  rewrite (convert_from_no_match st2 oa t Hm). f_equal.
  unfold append_text. apply String.eqb_neq in Hn. rewrite Hn.
  destruct (hasStyle st2); reflexivity.
Qed.

Lemma ansiToHtml_literal s :
  exists out,
    ansiToHtml s = Some out
    /\ Spec.Markup out
    /\ strip_tags false out = escapeHtml (remove_sequences s).
Proof.
  destruct (ansiToHtml_markup s) as (out & Ho & Hm).
  exists out. split; [exact Ho|]. split; [exact Hm|].
  unfold ansiToHtml in Ho.
  destruct (for_matches s (matchAll s) (mkScan empty_state "" 0))
    as [sc|] eqn:H; [|discriminate Ho].
  injection Ho as <-.
  rewrite (for_matches_literal s (matchAll s)
             (mkScan empty_state "" 0) sc eq_refl Spec.Markup_end H).
  cbn [result_of lastIndex_of strip_tags append]. f_equal.
  pose proof (literal_pieces_remove s "" 0 0 (fun _ => Nat.le_0_l _)
                (fun H => False_ind _ (H eq_refl))) as P.
  cbn [append String.length Nat.sub] in P. rewrite substring_zero in P.
  exact P.
Qed.

(** C2: the converter returns a string on every input.  The pattern does
    not match at an opened sequence that is not terminated, and such a
    sequence stays, wherever it stands, in the literal text of the input;
    the text of every output, its markers cut out, is the escaped literal
    text of the input, and every output is a sequence of escaped texts,
    bare or in a style scope, so the characters of the sequence are emitted
    as escaped literal text.  In particular a text without a match comes out
    escaped, and the text after the last sequence comes out escaped, in a
    style scope when the state has a style. *)
Theorem ansiToHtml_total_unterminated_literal :
  (forall s, exists out, ansiToHtml s = Some out)
  /\ (forall p rest,
        Spec.all_chars is_param_char p = true ->
        match rest with
        | String c _ => is_param_char c = false /\ c <> "m"%char
        | EmptyString => True
        end ->
        exec_at (String ESC (String "[" (p ++ rest))) = None)
  /\ (forall s, matchAll s = [] -> ansiToHtml s = Some (escapeHtml s))
  /\ (forall p,
        Spec.all_chars is_param_char p = true ->
        ansiToHtml (String ESC (String "[" p))
        = Some (String ESC (String "[" p)))
  /\ (forall a p rest,
        Spec.all_chars is_param_char p = true ->
        match rest with
        | String c _ => is_param_char c = false /\ c <> "m"%char
        | EmptyString => True
        end ->
        remove_sequences (a ++ String ESC (String "[" (p ++ rest)))
        = remove_sequences a ++ String ESC (String "[" p)
                             ++ remove_sequences rest)
  /\ (forall s, exists out,
        ansiToHtml s = Some out
        /\ Spec.Markup out
        /\ strip_tags false out = escapeHtml (remove_sequences s))
  /\ (forall a q t,
        Spec.all_chars is_param_char q = true ->
        matchAll t = [] -> t <> "" ->
        exists st1 oa st2,
          convert_from empty_state "" a = Some (st1, oa)
          /\ apply_codes q st1 = Some st2
          /\ ansiToHtml (a ++ sgr q ++ t)
             = Some (oa ++ (if hasStyle st2
                            then openSpan st2 ++ escapeHtml t ++ "</span>"
                            else escapeHtml t))).
Proof.
  split; [exact ansiToHtml_total|].
  split; [exact exec_at_unterminated|].
  split; [exact ansiToHtml_no_match|].
  split.
  - intros p Hp.
    assert (Hm : matchAll (String ESC (String "[" p)) = []).
    { unfold matchAll. rewrite matchAll_from_try.
      pose proof (exec_at_unterminated p "" Hp I) as E.
      rewrite append_nil_r in E. rewrite E.
      apply matchAll_from_no_esc. simpl.
      revert Hp. apply all_chars_weaken, param_char_not_esc. }
    rewrite (ansiToHtml_no_match _ Hm). f_equal.
    apply escapeHtml_plain. simpl.
    revert Hp. apply all_chars_weaken, param_char_plain.
  - split; [exact remove_sequences_unterminated|].
    split; [|exact ansiToHtml_trailing_text].
    exact ansiToHtml_literal.
Qed.

Lemma ansiToHtml_total_unterminated_literal_witness :
  Spec.all_chars is_param_char "38;5" = true
  /\ ansiToHtml (String ESC "[38;5") = Some (String ESC "[38;5")
  /\ exec_at (String ESC "[1;31 m") = None
  /\ remove_sequences ((sgr "1" ++ "a<") ++ String ESC (String "[" ("31" ++ " b")))
     = "a<" ++ String ESC "[31" ++ " b"
  /\ matchAll (String ESC "[31") = []
  /\ ansiToHtml ("" ++ sgr "1" ++ String ESC "[31")
     = Some ("<span style=" ++ dquote ++ "font-weight:bold" ++ dquote ++ ">"
               ++ String ESC "[31" ++ "</span>").
Proof.
  split; [reflexivity|]. split; [|split; [|split; [|split; [reflexivity|]]]].
  - apply (proj1 (proj2 (proj2 (proj2 ansiToHtml_total_unterminated_literal)))
             "38;5").
    reflexivity.
  - apply (proj1 (proj2 ansiToHtml_total_unterminated_literal) "1;31" " m").
    + reflexivity.
    + split; [reflexivity | discriminate].
  - rewrite (proj1 (proj2 (proj2 (proj2 (proj2
               ansiToHtml_total_unterminated_literal))))
               (sgr "1" ++ "a<") "31" " b");
      [reflexivity | reflexivity | split; [reflexivity | discriminate]].
  - destruct (proj2 (proj2 (proj2 (proj2 (proj2 (proj2
                ansiToHtml_total_unterminated_literal)))))
                "" "1" (String ESC "[31") eq_refl eq_refl)
      as (st1 & oa & st2 & H1 & H2 & H3); [discriminate|].
    vm_compute in H1. injection H1 as <- <-.
    vm_compute in H2. injection H2 as <-.
    exact H3.
Defined.

(** ** Escaping, in any text *)

(** C6: the three replacements of [escapeHtml] encode each character of a
    literal text once, so no [<] or [>] is left in it and every [&] opens an
    entity.  Every output is a sequence of pieces, each one the escaped form
    of a literal text, bare or between the two markers of a style scope, and
    its text, the markers cut out, is the escaped literal text of the input:
    no [<] and no [>] of the input is in it.  In every output each [<] opens
    a marker of a style scope, each [&] an entity, and the text <script>
    does not occur; for the input <script> the output is the encoded
    text. *)
Theorem literal_text_is_escaped :
  (forall t, escapeHtml t = Spec.encode t)
  /\ (forall t, Spec.all_chars Spec.not_angle (escapeHtml t) = true
                /\ Spec.every_amp_is_entity (escapeHtml t) = true)
  /\ (forall s, exists out,
        ansiToHtml s = Some out
        /\ Spec.every_lt_is_marker out = true
        /\ Spec.every_amp_is_entity out = true
        /\ Spec.occurrences "<script>" out = 0%nat
        /\ Spec.Markup out
        /\ strip_tags false out = escapeHtml (remove_sequences s)
        /\ Spec.all_chars Spec.not_angle (strip_tags false out) = true)
  /\ ansiToHtml "<script>" = Some "&lt;script&gt;".
Proof.
  split; [exact escapeHtml_encode|].
  split; [intros t; split;
          [apply escapeHtml_not_angle | apply escapeHtml_entities]|].
  split; [|reflexivity].
  intros s. destruct (ansiToHtml_literal s) as (out & Ho & Hm & Hs).
  exists out. split; [exact Ho|].
  pose proof (Markup_every_lt out Hm) as Hl.
  split; [exact Hl|]. split; [apply Markup_every_amp, Hm|].
  split; [apply every_lt_no_script, Hl|]. split; [exact Hm|].
  split; [exact Hs|]. rewrite Hs. apply escapeHtml_not_angle.
Qed.
